(** * ffa3: a client for the FlashForge Adventurer 3 command protocol

    A shallow embedding of the two generations of the client library
    (package [ffa3]) and the properties of its command transport, reply
    parsers, distance codec and discovery.

    Conventions of the embedding:
    - a Go [string] is a sequence of bytes: [list ascii];
    - a Go [int] is 64 bits wide; [physic.Distance] is an [int64]; both are
      [Z] with the wrap-around of the arithmetic written out ([wrap64]);
    - a Go [error] value is [option error], [None] being [nil];
    - a call that does not come back is an [outcome] of its own: [Panics]
      (index or slice out of range) or [Blocks] (a [Read] that waits for
      bytes which never arrive);
    - the stream [d.conn] is a script of the results of its successive
      [Read] and [Write] calls, a log of the bytes written and a flag set
      by [Close]. *)

From Stdlib Require Import Ascii String List ZArith Lia Bool.
Import ListNotations.

Set Implicit Arguments.

(* ================================================================== *)
(** * Strings *)

Definition gostring : Type := list ascii.

Definition str (s : string) : gostring := list_ascii_of_string s.

Definition CR : ascii := "013"%char.
Definition LF : ascii := "010"%char.
Definition CRLF : gostring := [CR; LF].

(** [len(s)], a Go [int]. *)
Definition len (s : gostring) : Z := Z.of_nat (length s).

(** [a == b] on strings. *)
Fixpoint eqs (a b : gostring) : bool :=
  match a, b with
  | [], [] => true
  | x :: a', y :: b' => Ascii.eqb x y && eqs a' b'
  | _, _ => false
  end.

(* ================================================================== *)
(** * Outcomes of a call *)

Inductive outcome (A : Type) : Type :=
| Returns (a : A)
| Panics
| Blocks.

Arguments Panics {A}.
Arguments Blocks {A}.

Definition bind {A B : Type} (m : outcome A) (k : A -> outcome B) : outcome B :=
  match m with
  | Returns a => k a
  | Panics => Panics
  | Blocks => Blocks
  end.

Declare Scope go_scope.
Delimit Scope go_scope with go.
Notation "x <- m ;; k" := (bind m (fun x => k))
  (at level 61, m at next level, right associativity) : go_scope.
Notation "' p <- m ;; k" := (bind m (fun x => match x with p => k end))
  (at level 61, p pattern, m at next level, right associativity) : go_scope.
Local Open Scope go_scope.
Local Open Scope Z_scope.

(** [s[i]]: panics when [i] is out of range. *)
Definition index {A : Type} (l : list A) (i : Z) : outcome A :=
  if (0 <=? i)%Z && (i <? Z.of_nat (length l))%Z
  then match nth_error l (Z.to_nat i) with
       | Some x => Returns x
       | None => Panics
       end
  else Panics.

(** [s[lo:hi]]: panics unless [0 <= lo <= hi <= len(s)]. *)
Definition slice (s : gostring) (lo hi : Z) : outcome gostring :=
  if (0 <=? lo)%Z && (lo <=? hi)%Z && (hi <=? len s)%Z
  then Returns (firstn (Z.to_nat (hi - lo)) (skipn (Z.to_nat lo) s))
  else Panics.

(** [s[lo:]] *)
Definition sliceFrom (s : gostring) (lo : Z) : outcome gostring :=
  slice s lo (len s).

(** [s[:hi]] *)
Definition sliceTo (s : gostring) (hi : Z) : outcome gostring :=
  slice s 0 hi.

(* ================================================================== *)
(** * Package [strings] *)

Module strings.

(** [strings.HasPrefix(s, prefix)] *)
Fixpoint HasPrefix (s prefix : gostring) {struct prefix} : bool :=
  match prefix, s with
  | [], _ => true
  | p :: prefix', c :: s' => Ascii.eqb c p && HasPrefix s' prefix'
  | _ :: _, [] => false
  end.

(** [strings.HasSuffix(s, suffix)]:
    [len(s) >= len(suffix) && s[len(s)-len(suffix):] == suffix] *)
Definition HasSuffix (s suffix : gostring) : bool :=
  (length suffix <=? length s)%nat
  && eqs (skipn (length s - length suffix) s) suffix.

(** [strings.IndexRune(s, c)] for a one-byte rune; [None] is Go's [-1]. *)
Fixpoint IndexRune (s : gostring) (c : ascii) : option nat :=
  match s with
  | [] => None
  | x :: s' =>
      if Ascii.eqb x c then Some 0%nat
      else match IndexRune s' c with
           | Some i => Some (S i)
           | None => None
           end
  end.

(** [strings.SplitN(s, sep, n)] for a one-byte separator and [n >= 0]:
    at most [n] substrings, the last one being the unsplit remainder. *)
Fixpoint SplitN (s : gostring) (sep : ascii) (n : nat) : list gostring :=
  match n with
  | O => []
  | S O => [s]
  | S n' =>
      match IndexRune s sep with
      | None => [s]
      | Some i => firstn i s :: SplitN (skipn (S i) s) sep n'
      end
  end.

(** [strings.Split(s, sep)] for a one-byte separator. *)
Fixpoint Split (s : gostring) (sep : ascii) : list gostring :=
  match s with
  | [] => [[]]
  | c :: s' =>
      if Ascii.eqb c sep then [] :: Split s' sep
      else match Split s' sep with
           | h :: t => (c :: h) :: t
           | [] => [[c]]
           end
  end.

(** [strings.TrimRight(s, cutset)] *)
Fixpoint TrimRight (s cutset : gostring) : gostring :=
  match s with
  | [] => []
  | c :: s' =>
      match TrimRight s' cutset with
      | [] => if existsb (Ascii.eqb c) cutset then [] else [c]
      | t => c :: t
      end
  end.

End strings.

(* ================================================================== *)
(** * Errors *)

Inductive error : Type :=
| ErrIO (what : gostring)
    (** an error handed back by the stream or the socket *)
| ErrEOF
    (** [io.EOF] *)
| ErrSyntax (fn s : gostring)
    (** [*strconv.NumError] with [Err = strconv.ErrSyntax] *)
| ErrRange (fn s : gostring)
    (** [*strconv.NumError] with [Err = strconv.ErrRange] *)
| ErrAlreadyConnected
    (** [errors.New("printer already has a connection; please disconnect
        other client first")] *)
| ErrTakeControl (resp : gostring)
    (** [fmt.Errorf("failed to take control: %q", resp)] *)
| ErrReleaseControl (resp : gostring)
    (** [fmt.Errorf("failed to release control: %q", resp)] *)
| ErrUnknownCmdReply (c resp : gostring)
    (** [fmt.Errorf("unknown %s reply: %q", c, resp)] *)
| ErrUnknownReply (line : gostring)
    (** [fmt.Errorf("unknown reply: %q", line)] *)
| ErrWrap (msg : gostring) (inner : error).
    (** [fmt.Errorf(msg + ": %w", inner)] *)

(* ================================================================== *)
(** * The stream [io.ReadWriteCloser] *)

Record Conn : Type := mkConn {
  incoming : list (gostring * option error);
    (** results of the successive [Read] calls: bytes copied and error *)
  wresults : list (option error);
    (** results of the successive [Write] calls; later writes succeed *)
  sent : list gostring;
    (** what was written so far, oldest first *)
  closeErr : option error;
    (** what [Close] returns *)
  closed : bool
}.

(** [len(b)] for [b := [4096]byte{}] *)
Definition bufLen : nat := 4096.

(** [conn.Write(p)] *)
Definition Write (c : Conn) (p : gostring) : option error * Conn :=
  match wresults c with
  | [] => (None, mkConn (incoming c) [] (sent c ++ [p]) (closeErr c) (closed c))
  | r :: rest =>
      (r, mkConn (incoming c) rest (sent c ++ [p]) (closeErr c) (closed c))
  end.

(** [conn.Read(b[:])] with [len(b) = n]: at most [n] bytes are copied. *)
Definition Read (c : Conn) (n : nat)
  : outcome ((gostring * option error) * Conn) :=
  match incoming c with
  | [] => Blocks
  | (data, err) :: rest =>
      Returns ((firstn n data, err),
               mkConn rest (wresults c) (sent c) (closeErr c) (closed c))
  end.

(** [conn.Close()] *)
Definition CloseConn (c : Conn) : option error * Conn :=
  (closeErr c, mkConn (incoming c) (wresults c) (sent c) (closeErr c) true).

(** The [for] loop of [sendCommand]:
<<
	for {
		n, err := d.conn.Read(b[:])
		if resp += string(b[:n]); err != nil {
			return resp, err
		}
		if n != len(b) {
			break
		}
	}
>>
    by recursion on the script of the reads still to come. *)
Fixpoint readLoop (script : list (gostring * option error)) (resp : gostring)
  : outcome ((gostring * option error) * list (gostring * option error)) :=
  match script with
  | [] => Blocks
  | (data, err) :: rest =>
      let chunk := firstn bufLen data in
      let resp := resp ++ chunk in
      match err with
      | Some e => Returns ((resp, Some e), rest)
      | None =>
          if negb (length chunk =? bufLen)%nat
          then Returns ((resp, None), rest)
          else readLoop rest resp
      end
  end.

Definition readAll (c : Conn) : outcome ((gostring * option error) * Conn) :=
  '(r, rest) <- readLoop (incoming c) [] ;;
  Returns (r, mkConn rest (wresults c) (sent c) (closeErr c) (closed c)).

(* ================================================================== *)
(** * Package [strconv] *)

Module strconv.

Definition isDigit (c : ascii) : bool :=
  (48 <=? nat_of_ascii c)%nat && (nat_of_ascii c <=? 57)%nat.

Definition digitVal (c : ascii) : Z := Z.of_nat (nat_of_ascii c) - 48.

(** The number that a run of decimal digits denotes. *)
Definition digitsValue (ds : gostring) : Z :=
  fold_left (fun n c => n * 10 + digitVal c)%Z ds 0%Z.

(** [1 << 63], the cutoff of [ParseInt] for a 64-bit [int]. *)
Definition cutoff : Z := 2 ^ 63.

Definition fnAtoi : gostring := str "Atoi".

(** Where the loop of [ParseUint] over the digits ends. *)
Inductive scanned : Type :=
| Number (n : Z)
| BadSyntax
| OutOfRange.

(** The loop of [ParseUint] in base 10 for a 64-bit word, [n] being the
    number read so far: it leaves at the first byte that is not a digit
    with a syntax error, and at the first digit with which the number
    exceeds [1<<64 - 1] with a range error, whichever comes first. *)
Fixpoint scanDigits (ds : gostring) (n : Z) : scanned :=
  match ds with
  | [] => Number n
  | c :: rest =>
      if isDigit c then
        let n1 := (n * 10 + digitVal c)%Z in
        if (2 ^ 64 <=? n1)%Z then OutOfRange else scanDigits rest n1
      else BadSyntax
  end.

(** [strconv.Atoi(s)], that is [ParseInt(s, 10, 0)] with a 64-bit [int]:
    an optional sign and at least one decimal digit, no underscores in
    base 10.  A syntax error comes with the value 0, a range error with
    the nearest representable value. *)
Definition Atoi (s : gostring) : Z * option error :=
  match s with
  | [] => (0%Z, Some (ErrSyntax fnAtoi s))
  | c :: s' =>
      let neg := Ascii.eqb c "-"%char in
      let ds := if Ascii.eqb c "+"%char || neg then s' else s in
      match ds with
      | [] => (0%Z, Some (ErrSyntax fnAtoi s))
      | _ :: _ =>
          match scanDigits ds 0%Z with
          | BadSyntax => (0%Z, Some (ErrSyntax fnAtoi s))
          | OutOfRange =>
              if neg
              then ((- cutoff)%Z, Some (ErrRange fnAtoi s))
              else ((cutoff - 1)%Z, Some (ErrRange fnAtoi s))
          | Number un =>
              if neg then
                if (cutoff <? un)%Z
                then ((- cutoff)%Z, Some (ErrRange fnAtoi s))
                else ((- un)%Z, None)
              else
                if (cutoff <=? un)%Z
                then ((cutoff - 1)%Z, Some (ErrRange fnAtoi s))
                else (un, None)
          end
      end
  end.

End strconv.

(* ================================================================== *)
(** * Package [physic] (periph.io/x/conn/v3/physic) *)

(** Reduction of a mathematical integer to an [int64] (two's complement). *)
Definition wrap64 (z : Z) : Z := ((z + 2 ^ 63) mod 2 ^ 64 - 2 ^ 63)%Z.

Module physic.

(** Modelled from the spec: the physical-unit package
    (periph.io/x/conn/v3/physic) is an external collaborator and not part
    of the sources.  The spec has a distance as a scaled integer quantity,
    the millimetre being a fixed multiple of the smallest unit, with
    -12.340 mm being -12340 micrometres.  As in that package,
    [type Distance int64] counts nanometres. *)
Definition Distance : Type := Z.

Definition NanoMetre : Distance := 1%Z.
Definition MicroMetre : Distance := (1000 * NanoMetre)%Z.
Definition MilliMetre : Distance := (1000 * MicroMetre)%Z.

(** [type Temperature int64] *)
Definition Temperature : Type := Z.

(** [a * b] on [Distance] *)
Definition mul (a b : Distance) : Distance := wrap64 (a * b).

(** [a + b] on [Distance] *)
Definition add (a b : Distance) : Distance := wrap64 (a + b).

(** [a / b] on [Distance], for [b <> 0]: the quotient truncated toward
    zero. *)
Definition div (a b : Distance) : Distance := wrap64 (Z.quot a b).

End physic.

(* ================================================================== *)
(** * Package [regexp] *)

Module regexp.

(** The fragment of the RE2 syntax that the client's patterns use. *)
Inductive Regexp : Type :=
| Eps                          (** the empty pattern *)
| Lit (c : ascii)              (** a literal byte, escaped or not *)
| Digits                       (** [\d+] *)
| Opt (r : Regexp)             (** [r?] *)
| Cat (r1 r2 : Regexp)         (** [r1 r2] *)
| Group (r : Regexp)           (** [(r)] *)
| NonCap (r : Regexp)          (** [(?:r)] *)
| Bol                          (** [^] *)
| Eol.                         (** [$] *)

(** What is left to match: the rest of the text and the groups closed so
    far, in the order of their closing (no pattern here nests groups). *)
Definition cont : Type := gostring -> list gostring -> option (list gostring).

(** [\d+] is greedy: the longest run first, then the shorter ones. *)
Fixpoint plusDigits (s : gostring) (caps : list gostring) (k : cont)
  : option (list gostring) :=
  match s with
  | [] => None
  | c :: s' =>
      if strconv.isDigit c then
        match plusDigits s' caps k with
        | Some m => Some m
        | None => k s' caps
        end
      else None
  end.

(** Leftmost-first matching of [r] at the head of [s]; [n] is the length
    of the whole text. *)
Fixpoint run (n : nat) (r : Regexp) (s : gostring) (caps : list gostring)
  (k : cont) : option (list gostring) :=
  match r with
  | Eps => k s caps
  | Lit c =>
      match s with
      | x :: s' => if Ascii.eqb x c then k s' caps else None
      | [] => None
      end
  | Digits => plusDigits s caps k
  | Opt r1 =>
      match run n r1 s caps k with
      | Some m => Some m
      | None => k s caps
      end
  | Cat r1 r2 => run n r1 s caps (fun s' caps' => run n r2 s' caps' k)
  | Group r1 =>
      run n r1 s caps
        (fun s' caps' => k s' (caps' ++ [firstn (length s - length s') s]))
  | NonCap r1 => run n r1 s caps k
  | Bol => if (length s =? n)%nat then k s caps else None
  | Eol => match s with [] => k s caps | _ :: _ => None end
  end.

(** The leftmost start at which the pattern matches. *)
Fixpoint search (n : nat) (r : Regexp) (s : gostring)
  : option (list gostring) :=
  match run n r s []
          (fun s' caps => Some (firstn (length s - length s') s :: caps)) with
  | Some m => Some m
  | None =>
      match s with
      | [] => None
      | _ :: s' => search n r s'
      end
  end.

(** [re.FindStringSubmatch(s)]: [None] is [nil]; otherwise the match
    followed by the text of each group. *)
Definition FindStringSubmatch (re : Regexp) (s : gostring)
  : option (list gostring) :=
  search (length s) re s.

(** A literal string. *)
Fixpoint lits (p : gostring) : Regexp :=
  match p with
  | [] => Eps
  | c :: p' => Cat (Lit c) (lits p')
  end.

(** A sequence of patterns. *)
Fixpoint seq (rs : list Regexp) : Regexp :=
  match rs with
  | [] => Eps
  | r :: rs' => Cat r (seq rs')
  end.

End regexp.

(* ================================================================== *)
(** * The datagram socket of the discovery *)

(** [type Found struct { IP; Name string }] *)
Record Found : Type := mkFound {
  fIP : gostring;
  fName : gostring
}.

(** The network as one discovery meets it.  [arrivals] lists, in order,
    what [ReadFromUDP] has to hand over and when, as a [time.Duration]
    counted from the moment the wait for the window starts: a datagram
    (payload and source address) or a read error.  The reader goroutine
    and the closing of the socket are joined through [done] or [wg]
    before the result is read, so one discovery is a function of this
    record. *)
Record UDPNet : Type := mkUDPNet {
  resolveErr : option error;   (** of [net.ResolveUDPAddr] *)
  openErr : option error;      (** of [net.ListenUDP] or [net.DialUDP] *)
  arrivals : list (Z * ((gostring * gostring) + error));
  writeErr : option error;     (** of the write of the magic packet *)
  udpCloseErr : option error   (** of [Close] *)
}.

(** [bytes.IndexByte(b, c)]; [None] is Go's [-1]. *)
Definition IndexByte (b : gostring) (c : ascii) : option nat :=
  strings.IndexRune b c.

(** The network as [SearchListen] meets it: it dials a socket [conn] for
    the magic packet and listens on a second socket [l] for the replies.
    [sockets] describes the first resolve, the dial, the write and the
    close of [conn], and, as [arrivals], what [ReadFromUDP] on [l] has to
    hand over. *)
Record ListenNet : Type := mkListenNet {
  sockets : UDPNet;
  resolveLocalErr : option error;
    (** of the second [net.ResolveUDPAddr], for the local address *)
  listenErr : option error
    (** of [net.ListenUDP] *)
}.

(* ================================================================== *)
(** * The command transport, first generation (src/ffa3.go) *)

(** [type Dev struct { conn io.ReadWriteCloser }]: the stream is the only
    field, and a [*Dev] is threaded through the calls as the state. *)
Definition Dev : Type := Conn.

Module ffa3_v1.

(** [func (d *Dev) sendCommand(cmd string) (string, error)] *)
Definition sendCommand (d : Dev) (cmd : gostring)
  : outcome ((gostring * option error) * Dev) :=
  let '(werr, d) := Write d (str "~" ++ cmd ++ [LF]) in
  match werr with
  | Some e => Returns (([], Some e), d)
  | None =>
      '((resp, rerr), d) <- readAll d ;;
      match rerr with
      | Some e => Returns ((resp, Some e), d)
      | None =>
          c <- index (strings.SplitN cmd " "%char 2) 0 ;;
          let prefix := str "CMD " ++ c ++ str " Received." ++ CRLF in
          if negb (strings.HasPrefix resp prefix)
          then Returns ((resp, Some (ErrUnknownCmdReply c resp)), d)
          else if negb (strings.HasSuffix resp (CRLF ++ str "ok" ++ CRLF))
          then Returns ((resp, Some (ErrUnknownCmdReply c resp)), d)
          else
            line <- slice resp (len prefix)
                      (len resp - len (str "ok" ++ CRLF)) ;;
            Returns ((line, None), d)
      end
  end.

(** The reader goroutine of [SearchNoListen], with [b := [8192]byte{}]:
    every datagram read before the socket is closed, after the window
    [d], becomes a [Found]. *)
Fixpoint reader (d : Z) (evs : list (Z * ((gostring * gostring) + error)))
  (out : list Found) : list Found :=
  match evs with
  | [] => out
  | (t, ev) :: rest =>
      if (d <=? t)%Z then out
      else match ev with
           | inr _ => out
           | inl (payload, src) =>
               reader d rest (out ++ [mkFound src (firstn (2 * 4096) payload)])
           end
  end.



(** The reader goroutine of [SearchListen].  Nothing closes the socket
    [l] it reads from: the loop ends on a read error only, and a read with
    nothing to hand over waits. *)
Fixpoint listenReader (evs : list (Z * ((gostring * gostring) + error)))
  (out : list Found) : outcome (list Found) :=
  match evs with
  | [] => Blocks
  | (_, inr _) :: _ => Returns out
  | (_, inl (payload, src)) :: rest =>
      listenReader rest (out ++ [mkFound src (firstn (2 * 4096) payload)])
  end.

(** [func SearchListen() ([]Found, error)]; [wg.Wait()] comes back when
    the reader has left its loop. *)
Definition SearchListen (net : ListenNet)
  : outcome (list Found * option error) :=
  match resolveErr (sockets net) with
  | Some e =>
      Returns ([], Some (ErrWrap (str "failed to resolve 225.0.0.9:19000") e))
  | None =>
      match openErr (sockets net) with
      | Some e => Returns ([], Some e)
      | None =>
          match resolveLocalErr net with
          | Some e => Returns ([], Some e)
          | None =>
              match listenErr net with
              | Some e =>
                  Returns ([], Some (ErrWrap (str "failed listening to UDP") e))
              | None =>
                  match writeErr (sockets net) with
                  | Some e =>
                      _ <- listenReader (arrivals (sockets net)) [] ;;
                      Returns
                        ([], Some (ErrWrap (str "failed to write magic packet") e))
                  | None =>
                      out <- listenReader (arrivals (sockets net)) [] ;;
                      Returns (out, udpCloseErr (sockets net))
                  end
              end
          end
      end
  end.

(** [func (d *Dev) sendHello() error] *)
Definition sendHello (d : Dev) : outcome (option error * Dev) :=
  '((resp, err), d) <- sendCommand d (str "M601 S1") ;;
  match err with
  | Some e => Returns (Some e, d)
  | None =>
      if eqs resp (str "Control failed.")
      then Returns (Some ErrAlreadyConnected, d)
      else if negb (eqs resp (str "Control Success."))
      then Returns (Some (ErrTakeControl resp), d)
      else Returns (None, d)
  end.

(** [func (d *Dev) sendBye() error] *)
Definition sendBye (d : Dev) : outcome (option error * Dev) :=
  '((resp, err), d) <- sendCommand d (str "M602") ;;
  match err with
  | Some e => Returns (Some e, d)
  | None =>
      if negb (eqs resp (str "Control Release."))
      then Returns (Some (ErrReleaseControl resp), d)
      else Returns (None, d)
  end.

(** [func (d *Dev) Close() error] *)
Definition Close (d : Dev) : outcome (option error * Dev) :=
  '(err, d) <- sendBye d ;;
  let '(err2, d) := CloseConn d in
  match err with
  | Some e => Returns (Some e, d)
  | None => Returns (err2, d)
  end.

(** [func Connect(ip string)], returning a [*Dev] and an [error]; next to
    them the stream that was dialled, as the call leaves it. *)
Definition Connect (dial : gostring -> Conn + error) (ip : gostring)
  : outcome ((option Dev * option error) * option Conn) :=
  match dial (ip ++ str ":8899") with
  | inr e => Returns ((None, Some e), None)
  | inl conn =>
      let d : Dev := conn in
      '(err, d) <- sendHello d ;;
      match err with
      | Some e =>
          '(_, d) <- Close d ;;
          Returns ((None, Some e), Some d)
      | None => Returns ((Some d, None), Some d)
      end
  end.

(** [func (d *Dev) SetLight(on bool) error] *)
Definition SetLight (d : Dev) (on : bool) : outcome (option error * Dev) :=
  let cmd := if on then str "M146 r255 g255 b255 F0"
             else str "M146 r0 g0 b0 F0" in
  '((resp, err), d) <- sendCommand d cmd ;;
  if negb (eqs resp (str "CMD M146 Received." ++ CRLF ++ str "ok" ++ CRLF))
  then Returns (Some (ErrUnknownCmdReply (str "M146") resp), d)
  else Returns (err, d).

(** [func (d *Dev) SetFan(on bool) error] *)
Definition SetFan (d : Dev) (on : bool) : outcome (option error * Dev) :=
  let cmd := if on then str "M106 P1 S255" else str "M107" in
  '((_, err), d) <- sendCommand d cmd ;;
  Returns (err, d).

End ffa3_v1.

(* ================================================================== *)
(** * The command transport, second generation (src/unnamed/part_001) *)

Module ffa3.

(** [func (d *Dev) sendCommand(cmd string) (string, error)] *)
Definition sendCommand (d : Dev) (cmd : gostring)
  : outcome ((gostring * option error) * Dev) :=
  let '(werr, d) := Write d (str "~" ++ cmd ++ [LF]) in
  match werr with
  | Some e => Returns (([], Some e), d)
  | None =>
      '((resp, rerr), d) <- readAll d ;;
      match rerr with
      | Some e => Returns ((resp, Some e), d)
      | None =>
          c <- index (strings.SplitN cmd " "%char 2) 0 ;;
          let prefix := str "CMD " ++ c ++ str " Received." ++ CRLF in
          if negb (strings.HasPrefix resp prefix)
          then Returns ((resp, Some (ErrUnknownCmdReply c resp)), d)
          else if negb (strings.HasSuffix resp (CRLF ++ str "ok" ++ CRLF))
          then Returns ((resp, Some (ErrUnknownCmdReply c resp)), d)
          else
            line <- slice resp (len prefix)
                      (len resp - len (str "ok" ++ CRLF)) ;;
            line <- (if strings.HasSuffix line CRLF
                     then slice line 0 (len line - len CRLF)
                     else Returns line) ;;
            Returns ((line, None), d)
      end
  end.

(** [func parseDistance(s string) (physic.Distance, error)] *)
Definition parseDistance (s : gostring)
  : outcome (physic.Distance * option error) :=
  c0 <- index s 0 ;;
  let neg := Ascii.eqb c0 "-"%char in
  s <- (if neg then sliceFrom s 1 else Returns s) ;;
  r <- match strings.IndexRune s "."%char with
       | Some i =>
           a <- sliceTo s (Z.of_nat i) ;;
           let '(v, err) := strconv.Atoi a in
           match err with
           | Some e => Returns (inl e)
           | None =>
               b <- sliceFrom s (Z.of_nat i + 1) ;;
               let '(f, err) := strconv.Atoi b in
               match err with
               | Some e => Returns (inl e)
               | None =>
                   let ff := Nat.iter (length b)
                               (fun ff => physic.div ff 10%Z) physic.MilliMetre in
                   Returns (inr (physic.add (physic.mul physic.MilliMetre v)
                                            (physic.mul ff f)))
               end
           end
       | None =>
           let '(v, err) := strconv.Atoi s in
           match err with
           | Some e => Returns (inl e)
           | None => Returns (inr (physic.mul physic.MilliMetre v))
           end
       end ;;
  match r with
  | inl e => Returns (0%Z, Some e)
  | inr out =>
      Returns ((if neg then physic.mul out (-1)%Z else out), None)
  end.

(** [type Position struct] *)
Record Position : Type := mkPosition {
  pX : physic.Distance;
  pY : physic.Distance;
  pZ : physic.Distance;
  pA : Z;
  pB : Z
}.

(** [type Temperatures struct] *)
Record Temperatures : Type := mkTemperatures {
  Extruder : physic.Temperature;
  Bed : physic.Temperature;
  Chamber : physic.Temperature
}.

(** [type Info struct] *)
Record Info : Type := mkInfo {
  iType : gostring;
  iName : gostring;
  iFirmware : gostring;
  iSerial : gostring;
  iX : physic.Distance;
  iY : physic.Distance;
  iZ : physic.Distance;
  iExtruderCount : Z;
  iMacAddr : gostring
}.

(** [type Status struct] *)
Record Status : Type := mkStatus {
  sX : Z;
  sY : Z;
  sZ : Z;
  sStatus : gostring;
  sMoveMode : gostring;
  sStuff : gostring
}.

(** Assignments to one field of [*i]. *)
Definition setType (i : Info) (v : gostring) : Info :=
  mkInfo v (iName i) (iFirmware i) (iSerial i) (iX i) (iY i) (iZ i)
    (iExtruderCount i) (iMacAddr i).
Definition setName (i : Info) (v : gostring) : Info :=
  mkInfo (iType i) v (iFirmware i) (iSerial i) (iX i) (iY i) (iZ i)
    (iExtruderCount i) (iMacAddr i).
Definition setFirmware (i : Info) (v : gostring) : Info :=
  mkInfo (iType i) (iName i) v (iSerial i) (iX i) (iY i) (iZ i)
    (iExtruderCount i) (iMacAddr i).
Definition setSerial (i : Info) (v : gostring) : Info :=
  mkInfo (iType i) (iName i) (iFirmware i) v (iX i) (iY i) (iZ i)
    (iExtruderCount i) (iMacAddr i).
Definition setX (i : Info) (v : physic.Distance) : Info :=
  mkInfo (iType i) (iName i) (iFirmware i) (iSerial i) v (iY i) (iZ i)
    (iExtruderCount i) (iMacAddr i).
Definition setY (i : Info) (v : physic.Distance) : Info :=
  mkInfo (iType i) (iName i) (iFirmware i) (iSerial i) (iX i) v (iZ i)
    (iExtruderCount i) (iMacAddr i).
Definition setZ (i : Info) (v : physic.Distance) : Info :=
  mkInfo (iType i) (iName i) (iFirmware i) (iSerial i) (iX i) (iY i) v
    (iExtruderCount i) (iMacAddr i).
Definition setExtruderCount (i : Info) (v : Z) : Info :=
  mkInfo (iType i) (iName i) (iFirmware i) (iSerial i) (iX i) (iY i) (iZ i)
    v (iMacAddr i).
Definition setMacAddr (i : Info) (v : gostring) : Info :=
  mkInfo (iType i) (iName i) (iFirmware i) (iSerial i) (iX i) (iY i) (iZ i)
    (iExtruderCount i) v.

(** [regexp.MustCompile(`^X: (\d+) Y: (\d+) Z: (\d+)$`)] *)
Definition reInfoXYZ : regexp.Regexp :=
  regexp.seq
    [regexp.Bol; regexp.lits (str "X: "); regexp.Group regexp.Digits;
     regexp.lits (str " Y: "); regexp.Group regexp.Digits;
     regexp.lits (str " Z: "); regexp.Group regexp.Digits; regexp.Eol].

(** The body of the loop of [QueryPrinterInfo] for one element of
    [strings.Split(resp, "\n")]: the error it returns with, if any, and
    [*i] as it leaves it. *)
Definition infoLine (i : Info) (line : gostring)
  : outcome (option error * Info) :=
  let line := strings.TrimRight line [CR] in
  if strings.HasPrefix line (str "Machine Type: ") then
    v <- sliceFrom line (len (str "Machine Type: ")) ;;
    Returns (None, setType i v)
  else if strings.HasPrefix line (str "Machine Name: ") then
    v <- sliceFrom line (len (str "Machine Name: ")) ;;
    Returns (None, setName i v)
  else if strings.HasPrefix line (str "Firmware: ") then
    v <- sliceFrom line (len (str "Firmware: ")) ;;
    Returns (None, setFirmware i v)
  else if strings.HasPrefix line (str "SN: ") then
    v <- sliceFrom line (len (str "SN: ")) ;;
    Returns (None, setSerial i v)
  else if strings.HasPrefix line (str "X: ") then
    match regexp.FindStringSubmatch reInfoXYZ line with
    | None => Returns (Some (ErrUnknownReply line), i)
    | Some m =>
        m1 <- index m 1 ;;
        let '(v, err) := strconv.Atoi m1 in
        match err with
        | Some e => Returns (Some e, i)
        | None =>
            let i := setX i (physic.mul physic.MilliMetre v) in
            m2 <- index m 2 ;;
            let '(v, err) := strconv.Atoi m2 in
            match err with
            | Some e => Returns (Some e, i)
            | None =>
                let i := setY i (physic.mul physic.MilliMetre v) in
                m3 <- index m 3 ;;
                let '(v, err) := strconv.Atoi m3 in
                match err with
                | Some e => Returns (Some e, i)
                | None =>
                    Returns (None, setZ i (physic.mul physic.MilliMetre v))
                end
            end
        end
    end
  else if strings.HasPrefix line (str "Tool Count: ") then
    t <- sliceFrom line (len (str "Tool Count: ")) ;;
    let '(v, err) := strconv.Atoi t in
    Returns (err, setExtruderCount i v)
  else if strings.HasPrefix line (str "Mac Address: ") then
    v <- sliceFrom line (len (str "Mac Address: ")) ;;
    Returns (None, setMacAddr i v)
  else if eqs line [] then Returns (None, i)
  else Returns (Some (ErrUnknownReply line), i).

(** [for _, line := range strings.Split(resp, "\n") { ... }] *)
Fixpoint infoLines (lines : list gostring) (i : Info)
  : outcome (option error * Info) :=
  match lines with
  | [] => Returns (None, i)
  | line :: rest =>
      '(err, i) <- infoLine i line ;;
      match err with
      | Some e => Returns (Some e, i)
      | None => infoLines rest i
      end
  end.

(** [func (d *Dev) QueryPrinterInfo(i *Info) error]: the error, [*i] and
    the stream after the call. *)
Definition QueryPrinterInfo (d : Dev) (i : Info)
  : outcome ((option error * Info) * Dev) :=
  '((resp, err), d) <- sendCommand d (str "M115") ;;
  match err with
  | Some e => Returns ((Some e, i), d)
  | None =>
      r <- infoLines (strings.Split resp LF) i ;;
      Returns (r, d)
  end.

(** The body of the loop of [QueryStatus] for one line. *)
Definition statusLine (line : gostring) : option error :=
  let line := strings.TrimRight line [CR] in
  if eqs line (str "Endstop: X-max:0 Y-max:0 Z-max:0") then None
  else if strings.HasPrefix line (str "MachineStatus: ") then None
  else if strings.HasPrefix line (str "MoveMode: ") then None
  else if eqs line (str "Status: S:0 L:0 J:0 F:0") then None
  else Some (ErrUnknownReply line).

Fixpoint statusLines (lines : list gostring) : option error :=
  match lines with
  | [] => None
  | line :: rest =>
      match statusLine line with
      | Some e => Some e
      | None => statusLines rest
      end
  end.

(** [func (d *Dev) QueryStatus(s *Status) error] *)
Definition QueryStatus (d : Dev) (s : Status)
  : outcome ((option error * Status) * Dev) :=
  '((resp, err), d) <- sendCommand d (str "M119") ;;
  match err with
  | Some e => Returns ((Some e, s), d)
  | None => Returns ((statusLines (strings.Split resp LF), s), d)
  end.

(** [\-?\d+(?:\.\d+)] *)
Definition reDecimal : regexp.Regexp :=
  regexp.seq
    [regexp.Opt (regexp.Lit "-"%char); regexp.Digits;
     regexp.NonCap (regexp.seq [regexp.Lit "."%char; regexp.Digits])].

(** [regexp.MustCompile(`^X:(\-?\d+(?:\.\d+)) Y:(\-?\d+(?:\.\d+))
    Z:(\-?\d+(?:\.\d+)) A:(\d+) B:(\d+)$`)] *)
Definition rePosition : regexp.Regexp :=
  regexp.seq
    [regexp.Bol;
     regexp.lits (str "X:"); regexp.Group reDecimal;
     regexp.lits (str " Y:"); regexp.Group reDecimal;
     regexp.lits (str " Z:"); regexp.Group reDecimal;
     regexp.lits (str " A:"); regexp.Group regexp.Digits;
     regexp.lits (str " B:"); regexp.Group regexp.Digits;
     regexp.Eol].

(** [func (d *Dev) QueryExtruderPosition(p *Position) error] *)
Definition QueryExtruderPosition (d : Dev) (p : Position)
  : outcome ((option error * Position) * Dev) :=
  '((resp, err), d) <- sendCommand d (str "M114") ;;
  match err with
  | Some e => Returns ((Some e, p), d)
  | None =>
      match regexp.FindStringSubmatch rePosition resp with
      | None => Returns ((Some (ErrUnknownReply resp), p), d)
      | Some m =>
          m1 <- index m 1 ;;
          '(v, err) <- parseDistance m1 ;;
          match err with
          | Some e => Returns ((Some e, p), d)
          | None =>
              let p := mkPosition v (pY p) (pZ p) (pA p) (pB p) in
              m2 <- index m 2 ;;
              '(v, err) <- parseDistance m2 ;;
              match err with
              | Some e => Returns ((Some e, p), d)
              | None =>
                  let p := mkPosition (pX p) v (pZ p) (pA p) (pB p) in
                  m3 <- index m 3 ;;
                  '(v, err) <- parseDistance m3 ;;
                  match err with
                  | Some e => Returns ((Some e, p), d)
                  | None =>
                      let p := mkPosition (pX p) (pY p) v (pA p) (pB p) in
                      m4 <- index m 4 ;;
                      let '(w, err) := strconv.Atoi m4 in
                      match err with
                      | Some e => Returns ((Some e, p), d)
                      | None =>
                          let p := mkPosition (pX p) (pY p) (pZ p) w (pB p) in
                          m5 <- index m 5 ;;
                          let '(w, err) := strconv.Atoi m5 in
                          match err with
                          | Some e => Returns ((Some e, p), d)
                          | None =>
                              Returns
                                ((None,
                                  mkPosition (pX p) (pY p) (pZ p) (pA p) w),
                                 d)
                          end
                      end
                  end
              end
          end
      end
  end.

(** [regexp.MustCompile(`^T(\d+):(\d+) /(\d+) B:(\d+)/(\d+)$`)] *)
Definition reTemp : regexp.Regexp :=
  regexp.seq
    [regexp.Bol;
     regexp.Lit "T"%char; regexp.Group regexp.Digits;
     regexp.Lit ":"%char; regexp.Group regexp.Digits;
     regexp.lits (str " /"); regexp.Group regexp.Digits;
     regexp.lits (str " B:"); regexp.Group regexp.Digits;
     regexp.Lit "/"%char; regexp.Group regexp.Digits;
     regexp.Eol].

(** [func (d *Dev) QueryTemp(t *Temperatures) error] *)
Definition QueryTemp (d : Dev) (t : Temperatures)
  : outcome ((option error * Temperatures) * Dev) :=
  '((resp, err), d) <- sendCommand d (str "M105") ;;
  match err with
  | Some e => Returns ((Some e, t), d)
  | None =>
      match regexp.FindStringSubmatch reTemp resp with
      | None => Returns ((Some (ErrUnknownReply resp), t), d)
      | Some _ => Returns ((None, t), d)
      end
  end.

(** [func (d *Dev) sendHello() error] *)
Definition sendHello (d : Dev) : outcome (option error * Dev) :=
  '((resp, err), d) <- sendCommand d (str "M601 S1") ;;
  match err with
  | Some e => Returns (Some e, d)
  | None =>
      if eqs resp (str "Control failed.")
      then Returns (Some ErrAlreadyConnected, d)
      else if negb (eqs resp (str "Control Success."))
      then Returns (Some (ErrTakeControl resp), d)
      else Returns (None, d)
  end.

(** [func (d *Dev) sendBye() error] *)
Definition sendBye (d : Dev) : outcome (option error * Dev) :=
  '((resp, err), d) <- sendCommand d (str "M602") ;;
  match err with
  | Some e => Returns (Some e, d)
  | None =>
      if negb (eqs resp (str "Control Release."))
      then Returns (Some (ErrReleaseControl resp), d)
      else Returns (None, d)
  end.

(** [func (d *Dev) Close() error] *)
Definition Close (d : Dev) : outcome (option error * Dev) :=
  '(err, d) <- sendBye d ;;
  let '(err2, d) := CloseConn d in
  match err with
  | Some e => Returns (Some e, d)
  | None => Returns (err2, d)
  end.

(** [func Connect(ip string)], returning a [*Dev] and an [error].
    [dial addr] is what [net.Dial("tcp", addr)] gives.  Next to the two results stands the
    stream that was dialled, as the call leaves it. *)
Definition Connect (dial : gostring -> Conn + error) (ip : gostring)
  : outcome ((option Dev * option error) * option Conn) :=
  match dial (ip ++ str ":8899") with
  | inr e => Returns ((None, Some e), None)
  | inl conn =>
      let d : Dev := conn in
      '(err, d) <- sendHello d ;;
      match err with
      | Some e =>
          '(_, d) <- Close d ;;
          Returns ((None, Some e), Some d)
      | None => Returns ((Some d, None), Some d)
      end
  end.

(** The reader goroutine of [Search], with [b := [1024]byte{}].  It
    leaves the loop on a read error, which is also how the closing of the
    socket after the window [d] ends a pending read, and after the first
    datagram when [first] is set.  A datagram without a zero byte adds
    nothing. *)
Fixpoint reader (first : bool) (d : Z)
  (evs : list (Z * ((gostring * gostring) + error))) (out : list Found)
  : list Found :=
  match evs with
  | [] => out
  | (t, ev) :: rest =>
      if (d <=? t)%Z then out
      else match ev with
           | inr _ => out
           | inl (payload, src) =>
               let b := firstn 1024 payload in
               let out :=
                 match IndexByte b zero with
                 | Some i => out ++ [mkFound src (firstn i b)]
                 | None => out
                 end in
               if first then out else reader first d rest out
           end
  end.

(** [func Search(first bool, d time.Duration) ([]Found, error)] *)
Definition Search (net : UDPNet) (first : bool) (d : Z)
  : list Found * option error :=
  match resolveErr net with
  | Some e => ([], Some (ErrWrap (str "failed to resolve 225.0.0.9:19000") e))
  | None =>
      match openErr net with
      | Some e => ([], Some (ErrWrap (str "failed listening to UDP") e))
      | None =>
          match writeErr net with
          | Some e =>
              ([], Some (ErrWrap (str "failed to write magic packet") e))
          | None => (reader first d (arrivals net) [], udpCloseErr net)
          end
      end
  end.

(** [func (d *Dev) QueryJobStatus() (string, error)] *)
Definition QueryJobStatus (d : Dev)
  : outcome ((gostring * option error) * Dev) :=
  '((resp, err), d) <- sendCommand d (str "M27") ;;
  match err with
  | Some e => Returns (([], Some e), d)
  | None => Returns ((resp, None), d)
  end.

(** [func (d *Dev) SetLight(on bool) error] *)
Definition SetLight (d : Dev) (on : bool) : outcome (option error * Dev) :=
  let cmd := if on then str "M146 r255 g255 b255 F0"
             else str "M146 r0 g0 b0 F0" in
  '((resp, err), d) <- sendCommand d cmd ;;
  if negb (eqs resp [])
  then Returns (Some (ErrUnknownReply resp), d)
  else Returns (err, d).

(** [func (d *Dev) SetFan(on bool) error] *)
Definition SetFan (d : Dev) (on : bool) : outcome (option error * Dev) :=
  let cmd := if on then str "M106 P0 S255" else str "M107 P0" in
  '((resp, err), d) <- sendCommand d cmd ;;
  if negb (eqs resp [])
  then Returns (Some (ErrUnknownReply resp), d)
  else Returns (err, d).

(** [func (d *Dev) StopJob() error] *)
Definition StopJob (d : Dev) : outcome (option error * Dev) :=
  '((resp, err), d) <- sendCommand d (str "M26") ;;
  if negb (eqs resp [])
  then Returns (Some (ErrUnknownReply resp), d)
  else Returns (err, d).

(** [func (d *Dev) SendRawCommand(cmd string) (string, error)] *)
Definition SendRawCommand (d : Dev) (cmd : gostring)
  : outcome ((gostring * option error) * Dev) :=
  sendCommand d cmd.

End ffa3.

(* ================================================================== *)
(** * The printer information, first generation (src/ffa3.go) *)

(** The first generation declares the same [Info] struct as the second;
    the record of the second stands for both. *)
Module ffa3_v1_info.

(** [regexp.MustCompile(`X: (\d+) Y: (\d+) Z: (\d+)`)]: no anchors. *)
Definition reInfoXYZ : regexp.Regexp :=
  regexp.seq
    [regexp.lits (str "X: "); regexp.Group regexp.Digits;
     regexp.lits (str " Y: "); regexp.Group regexp.Digits;
     regexp.lits (str " Z: "); regexp.Group regexp.Digits].

(** The body of the loop of [QueryPrinterInfo] for one line. *)
Definition infoLine (i : ffa3.Info) (line : gostring)
  : outcome (option error * ffa3.Info) :=
  let line := strings.TrimRight line [CR] in
  if strings.HasPrefix line (str "Machine Type: ") then
    v <- sliceFrom line (len (str "Machine Type: ")) ;;
    Returns (None, ffa3.setType i v)
  else if strings.HasPrefix line (str "Machine Name: ") then
    v <- sliceFrom line (len (str "Machine Name: ")) ;;
    Returns (None, ffa3.setName i v)
  else if strings.HasPrefix line (str "Firmware: ") then
    v <- sliceFrom line (len (str "Firmware: ")) ;;
    Returns (None, ffa3.setFirmware i v)
  else if strings.HasPrefix line (str "SN: ") then
    v <- sliceFrom line (len (str "SN: ")) ;;
    Returns (None, ffa3.setSerial i v)
  else if strings.HasPrefix line (str "X: ") then
    match regexp.FindStringSubmatch reInfoXYZ line with
    | Some m =>
        m1 <- index m 1 ;;
        let '(v, err) := strconv.Atoi m1 in
        match err with
        | Some e => Returns (Some e, i)
        | None =>
            let i := ffa3.setX i (physic.mul physic.MilliMetre v) in
            m2 <- index m 2 ;;
            let '(v, err) := strconv.Atoi m2 in
            match err with
            | Some e => Returns (Some e, i)
            | None =>
                let i := ffa3.setY i (physic.mul physic.MilliMetre v) in
                m3 <- index m 3 ;;
                let '(v, err) := strconv.Atoi m3 in
                match err with
                | Some e => Returns (Some e, i)
                | None =>
                    Returns (None, ffa3.setZ i (physic.mul physic.MilliMetre v))
                end
            end
        end
    | None => Returns (Some (ErrUnknownCmdReply (str "M115") line), i)
    end
  else if strings.HasPrefix line (str "Tool Count: ") then
    t <- sliceFrom line (len (str "Tool Count: ")) ;;
    let '(v, err) := strconv.Atoi t in
    Returns (err, ffa3.setExtruderCount i v)
  else if strings.HasPrefix line (str "Mac Address: ") then
    v <- sliceFrom line (len (str "Mac Address: ")) ;;
    Returns (None, ffa3.setMacAddr i v)
  else if eqs line (str "CMD M115 Received.") then Returns (None, i)
  else if eqs line (str "ok") then Returns (None, i)
  else if eqs line [] then Returns (None, i)
  else Returns (Some (ErrUnknownCmdReply (str "M115") line), i).

(** [for _, line := range strings.Split(resp, "\n") { ... }] *)
Fixpoint infoLines (lines : list gostring) (i : ffa3.Info)
  : outcome (option error * ffa3.Info) :=
  match lines with
  | [] => Returns (None, i)
  | line :: rest =>
      '(err, i) <- infoLine i line ;;
      match err with
      | Some e => Returns (Some e, i)
      | None => infoLines rest i
      end
  end.

(** [func (d *Dev) QueryPrinterInfo(i *Info) error] *)
Definition QueryPrinterInfo (d : Dev) (i : ffa3.Info)
  : outcome ((option error * ffa3.Info) * Dev) :=
  '((resp, err), d) <- ffa3_v1.sendCommand d (str "M115") ;;
  match err with
  | Some e => Returns ((Some e, i), d)
  | None =>
      r <- infoLines (strings.Split resp LF) i ;;
      Returns (r, d)
  end.

End ffa3_v1_info.

(* ================================================================== *)
(** * Vocabulary of the specification *)

(** The command's leading word: what stands before its first space. *)
Definition leadingWord (cmd : gostring) : gostring :=
  match strings.IndexRune cmd " "%char with
  | Some i => firstn i cmd
  | None => cmd
  end.

(** [CMD <token> Received.\r\n] *)
Definition framePrefix (token : gostring) : gostring :=
  str "CMD " ++ token ++ str " Received." ++ CRLF.

(** [\r\nok\r\n] *)
Definition frameSuffix : gostring := CRLF ++ str "ok" ++ CRLF.

(** The payload as the specification words it: the bytes between prefix
    and suffix, with one trailing [\r\n], if present, further stripped. *)
Definition specPayload (interior : gostring) : gostring :=
  if strings.HasSuffix interior CRLF
  then firstn (length interior - 2) interior
  else interior.

(** A stream on which every write succeeds and whose reads hand over the
    given chunks, one per call. *)
Definition streamOf (chunks : list gostring) : Conn :=
  mkConn (map (fun b => (b, None)) chunks) [] [] None false.

(** A run of decimal digits. *)
Definition allDigits (ds : gostring) : bool := forallb strconv.isDigit ds.

(** The optional leading [-]. *)
Definition signOf (neg : bool) : gostring :=
  if neg then ["-"%char] else [].

(** The text of a signed decimal: sign, integer digits and, when there is
    a fraction, [.] and its digits. *)
Definition decimalText (neg : bool) (ip : gostring) (frac : option gostring)
  : gostring :=
  signOf neg ++ ip ++ match frac with
                      | Some fp => "."%char :: fp
                      | None => []
                      end.

(** A well-formed signed decimal: both digit runs are non-empty runs of
    digits. *)
Definition wellFormed (ip : gostring) (frac : option gostring) : Prop :=
  ip <> [] /\ allDigits ip = true
  /\ match frac with
     | Some fp => fp <> [] /\ allDigits fp = true
     | None => True
     end.

(** Both digit runs denote numbers that a 64-bit [int] holds. *)
Definition fitsInt (ip : gostring) (frac : option gostring) : Prop :=
  strconv.digitsValue ip < 2 ^ 63
  /\ match frac with
     | Some fp => strconv.digitsValue fp < 2 ^ 63
     | None => True
     end.

(** The distance as the specification words it:
    [sign * (intPart * unit + fracPart * (unit / 10^d))], the unit being
    the millimetre. *)
Definition specDistance (neg : bool) (ip : gostring) (frac : option gostring)
  : Z :=
  (if neg then -1 else 1)
  * (strconv.digitsValue ip * physic.MilliMetre
     + match frac with
       | Some fp =>
           strconv.digitsValue fp
           * (physic.MilliMetre / 10 ^ Z.of_nat (length fp))
       | None => 0
       end).

(** A part without the sign, [+] or [-], that may stand at its head. *)
Definition unsignedPart (p : gostring) : gostring :=
  match p with
  | c :: rest =>
      if Ascii.eqb c "+"%char || Ascii.eqb c "-"%char then rest else p
  | [] => []
  end.

(** A part that is not a number: after the sign at its head, if there is
    one, it is empty or holds a byte that is not a digit. *)
Definition badPart (p : gostring) : Prop :=
  unsignedPart p = []
  \/ exists c, In c (unsignedPart p) /\ strconv.isDigit c = false.

(** What [parseDistance] computes between the handling of the sign and
    its application, on a text without its leading [-]: the magnitude or
    the error of the first conversion that fails. *)
Definition magnitude (body : gostring) : error + physic.Distance :=
  match strings.IndexRune body "."%char with
  | Some i =>
      match strconv.Atoi (firstn i body) with
      | (_, Some e) => inl e
      | (v, None) =>
          match strconv.Atoi (skipn (S i) body) with
          | (_, Some e) => inl e
          | (f, None) =>
              inr (physic.add
                     (physic.mul physic.MilliMetre v)
                     (physic.mul
                        (Nat.iter (length (skipn (S i) body))
                           (fun ff => physic.div ff 10) physic.MilliMetre)
                        f))
          end
      end
  | None =>
      match strconv.Atoi body with
      | (_, Some e) => inl e
      | (v, None) => inr (physic.mul physic.MilliMetre v)
      end
  end.

(** [\d+(?:\.\d+)], what [reDecimal] asks for after the optional sign. *)
Definition reUnsigned : regexp.Regexp :=
  regexp.Cat regexp.Digits
    (regexp.Cat
       (regexp.NonCap
          (regexp.Cat (regexp.Lit "."%char) (regexp.Cat regexp.Digits regexp.Eps)))
       regexp.Eps).

(** A text that does not start with a digit. *)
Definition noDigitHead (s : gostring) : Prop :=
  match s with
  | [] => True
  | c :: _ => strconv.isDigit c = false
  end.

(** The single line that [M114] is answered with. *)
Definition positionText (x y z a b : gostring) : gostring :=
  str "X:" ++ x ++ str " Y:" ++ y ++ str " Z:" ++ z
    ++ str " A:" ++ a ++ str " B:" ++ b.

(** A signed decimal of the codec's grammar: the fraction is optional. *)
Definition isDecimal (s : gostring) : Prop :=
  exists neg ip frac, s = decimalText neg ip frac /\ wellFormed ip frac.

(** A signed decimal with its fraction, both digit runs below [2^63]. *)
Definition isFraction (s : gostring) : Prop :=
  exists neg ip fp,
    s = decimalText neg ip (Some fp)
    /\ wellFormed ip (Some fp) /\ fitsInt ip (Some fp).

(** A non-empty run of digits. *)
Definition isInt (s : gostring) : Prop := s <> [] /\ allDigits s = true.

(** The exchange of [cmd] on [d] went through and was answered by a frame
    without payload: the prefix followed by [ok\r\n], or by the suffix;
    [d1] is the stream after it. *)
Definition answeredEmpty (d : Dev) (cmd : gostring) (d1 : Dev) : Prop :=
  exists d0 raw,
    Write d (str "~" ++ cmd ++ [LF]) = (None, d0)
    /\ readAll d0 = Returns ((raw, None), d1)
    /\ (raw = framePrefix (leadingWord cmd) ++ str "ok" ++ CRLF
        \/ raw = framePrefix (leadingWord cmd) ++ frameSuffix).

(** The line of [M115] that gives the build volume. *)
Definition volumeText (a b c : gostring) : gostring :=
  str "X: " ++ a ++ str " Y: " ++ b ++ str " Z: " ++ c.

(** The payload that answers [M105]. *)
Definition tempText (n a b c e : gostring) : gostring :=
  str "T" ++ n ++ str ":" ++ a ++ str " /" ++ b ++ str " B:" ++ c
    ++ str "/" ++ e.

(** The lines that [QueryStatus] knows, once their trailing [\r] are
    removed. *)
Definition allowedStatus (t : gostring) : Prop :=
  t = str "Endstop: X-max:0 Y-max:0 Z-max:0"
  \/ (exists v, t = str "MachineStatus: " ++ v)
  \/ (exists v, t = str "MoveMode: " ++ v)
  \/ t = str "Status: S:0 L:0 J:0 F:0".

(** The keys of the lines that [QueryPrinterInfo] knows. *)
Definition infoKeys : list gostring :=
  [str "Machine Type: "; str "Machine Name: "; str "Firmware: "; str "SN: ";
   str "X: "; str "Tool Count: "; str "Mac Address: "].

(** A line of the vocabulary of [M115], without its trailing [\r]: empty,
    or a key followed by its value. *)
Definition knownInfoLine (t : gostring) : Prop :=
  t = [] \/ exists key v, In key infoKeys /\ t = key ++ v.

(* ================================================================== *)
(** * Strings: basic facts *)

Lemma eqs_spec (a b : gostring) : eqs a b = true <-> a = b.
Proof.
  revert b; induction a as [|x a IH]; intros [|y b]; simpl;
    try (split; congruence).
  rewrite andb_true_iff, Ascii.eqb_eq, IH.
  split; [intros [-> ->]; reflexivity | intros H; injection H; auto].
Qed.

Lemma eqs_refl (a : gostring) : eqs a a = true.
Proof. apply eqs_spec; reflexivity. Qed.

Lemma len_app (a b : gostring) : len (a ++ b) = (len a + len b)%Z.
Proof. unfold len; rewrite length_app; lia. Qed.

Lemma len_nonneg (a : gostring) : (0 <= len a)%Z.
Proof. unfold len; lia. Qed.

Lemma HasPrefix_app (p t : gostring) : strings.HasPrefix (p ++ t) p = true.
Proof.
  induction p as [|c p IH]; simpl; [reflexivity|].
  rewrite Ascii.eqb_refl; exact IH.
Qed.

Lemma HasPrefix_spec (s p : gostring) :
  strings.HasPrefix s p = true <-> exists t, s = p ++ t.
Proof.
  split.
  - revert s; induction p as [|c p IH]; intros s H.
    + exists s; reflexivity.
    + destruct s as [|x s]; simpl in H; [discriminate|].
      apply andb_true_iff in H; destruct H as [Hc Hp].
      apply Ascii.eqb_eq in Hc; subst x.
      destruct (IH _ Hp) as [t ->]; exists t; reflexivity.
  - intros [t ->]; apply HasPrefix_app.
Qed.

Lemma HasSuffix_app (t x : gostring) : strings.HasSuffix (t ++ x) x = true.
Proof.
  unfold strings.HasSuffix.
  rewrite length_app.
  replace (length t + length x - length x)%nat with (length t) by lia.
  rewrite skipn_app, skipn_all, Nat.sub_diag; simpl.
  rewrite eqs_refl, andb_true_r.
  apply Nat.leb_le; lia.
Qed.

Lemma HasSuffix_spec (s x : gostring) :
  strings.HasSuffix s x = true <-> exists t, s = t ++ x.
Proof.
  split.
  - unfold strings.HasSuffix; intros H.
    apply andb_true_iff in H; destruct H as [_ H].
    apply eqs_spec in H.
    exists (firstn (length s - length x) s).
    rewrite <- (firstn_skipn (length s - length x) s) at 1.
    rewrite H; reflexivity.
  - intros [t ->]; apply HasSuffix_app.
Qed.

Lemma slice_middle (a b c : gostring) :
  slice (a ++ b ++ c) (len a) (len (a ++ b ++ c) - len c) = Returns b.
Proof.
  unfold slice.
  rewrite !len_app.
  pose proof (len_nonneg a); pose proof (len_nonneg b);
    pose proof (len_nonneg c).
  replace ((0 <=? len a)%Z) with true by (symmetry; apply Z.leb_le; lia).
  replace ((len a <=? len a + (len b + len c) - len c)%Z) with true
    by (symmetry; apply Z.leb_le; lia).
  replace ((len a + (len b + len c) - len c <=? len a + (len b + len c))%Z)
    with true by (symmetry; apply Z.leb_le; lia).
  simpl.
  replace (len a + (len b + len c) - len c - len a)%Z with (len b) by lia.
  unfold len; rewrite !Nat2Z.id.
  rewrite skipn_app, skipn_all, Nat.sub_diag; simpl.
  rewrite firstn_app, firstn_all, Nat.sub_diag; simpl.
  rewrite app_nil_r; reflexivity.
Qed.

Lemma slice_front (b c : gostring) :
  slice (b ++ c) 0 (len (b ++ c) - len c) = Returns b.
Proof. exact (slice_middle [] b c). Qed.

Lemma index_SplitN_first (cmd : gostring) :
  index (strings.SplitN cmd " "%char 2) 0 = Returns (leadingWord cmd).
Proof.
  unfold leadingWord; simpl.
  destruct (strings.IndexRune cmd " "%char); reflexivity.
Qed.

(** Where a response that starts with the prefix and ends with the
    suffix stands: the prefix is followed by [ok\r\n] alone, its own line
    end serving the suffix, or by an interior and the whole suffix. *)
Lemma frame_tail (p t u : gostring) :
  p ++ str "." ++ CRLF ++ t = u ++ frameSuffix ->
  t = str "ok" ++ CRLF \/ exists interior, t = interior ++ frameSuffix.
Proof.
  intros H.
  apply (f_equal (@rev ascii)) in H.
  rewrite !rev_app_distr in H; simpl in H.
  rewrite <- (rev_involutive t).
  destruct (rev t) as [|a [|b [|c [|d [|e [|f r]]]]]]; simpl in H;
    try (injection H; intros; subst; discriminate).
  - injection H; intros; subst; left; reflexivity.
  - injection H; intros; subst; right.
    exists (rev r); simpl.
    repeat rewrite <- app_assoc; reflexivity.
Qed.

(* ================================================================== *)
(** * The read loop *)

Local Opaque bufLen.

Lemma readAll_step (c : Conn) :
  readAll c =
  '((chunk, err), c1) <- Read c bufLen ;;
  match err with
  | Some e => Returns ((chunk, Some e), c1)
  | None =>
      if negb (length chunk =? bufLen)%nat
      then Returns ((chunk, None), c1)
      else '(r, rest) <- readLoop (incoming c1) chunk ;;
           Returns (r, mkConn rest (wresults c) (sent c) (closeErr c) (closed c))
  end.
Proof.
  unfold readAll, Read.
  destruct (incoming c) as [|[data [e|]] rest]; simpl; try reflexivity.
  destruct (length (firstn bufLen data) =? bufLen)%nat; reflexivity.
Qed.

(** Reads that fill the buffer keep the loop going. *)
Lemma readLoop_full_reads (fulls : list gostring) :
  Forall (fun b => length b = bufLen) fulls ->
  forall rest acc,
    readLoop (map (fun b => (b, None)) fulls ++ rest) acc
    = readLoop rest (acc ++ concat fulls).
Proof.
  induction 1 as [|b fulls Hb _ IH]; intros rest acc; simpl.
  - rewrite app_nil_r; reflexivity.
  - rewrite firstn_all2 by lia.
    rewrite Hb, Nat.eqb_refl; simpl.
    rewrite IH, <- app_assoc; reflexivity.
Qed.

(** The first read that does not fill the buffer ends it. *)
Lemma readLoop_short_read (chunk acc : gostring) rest :
  (length chunk < bufLen)%nat ->
  readLoop ((chunk, None) :: rest) acc = Returns ((acc ++ chunk, None), rest).
Proof.
  intros H; simpl.
  rewrite firstn_all2 by lia.
  replace (length chunk =? bufLen)%nat with false
    by (symmetry; apply Nat.eqb_neq; lia).
  reflexivity.
Qed.

Lemma readAll_delivery (c : Conn) (fulls : list gostring) chunk rest :
  incoming c = map (fun b => (b, None)) fulls ++ (chunk, None) :: rest ->
  Forall (fun b => length b = bufLen) fulls ->
  (length chunk < bufLen)%nat ->
  readAll c =
  Returns ((concat fulls ++ chunk, None),
           mkConn rest (wresults c) (sent c) (closeErr c) (closed c)).
Proof.
  intros Hin Hfull Hshort; unfold readAll.
  rewrite Hin, readLoop_full_reads by assumption.
  rewrite readLoop_short_read by assumption.
  reflexivity.
Qed.

Lemma Write_incoming (c : Conn) p e c' :
  Write c p = (e, c') ->
  incoming c' = incoming c /\ closeErr c' = closeErr c
  /\ closed c' = closed c /\ sent c' = sent c ++ [p].
Proof.
  unfold Write; destruct (wresults c); intros H; injection H; intros; subst;
    simpl; auto.
Qed.

(* ================================================================== *)
(** * sendCommand *)

(** What [sendCommand] does once the write went through and the read loop
    handed over [resp] without an error. *)
Lemma sendCommand_verify (d d0 d1 : Dev) (cmd resp : gostring) :
  Write d (str "~" ++ cmd ++ [LF]) = (None, d0) ->
  readAll d0 = Returns ((resp, None), d1) ->
  ffa3.sendCommand d cmd =
  if strings.HasPrefix resp (framePrefix (leadingWord cmd))
     && strings.HasSuffix resp frameSuffix
  then
    line <- slice resp (len (framePrefix (leadingWord cmd)))
              (len resp - len (str "ok" ++ CRLF)) ;;
    line <- (if strings.HasSuffix line CRLF
             then slice line 0 (len line - len CRLF)
             else Returns line) ;;
    Returns ((line, None), d1)
  else
    Returns ((resp, Some (ErrUnknownCmdReply (leadingWord cmd) resp)), d1).
Proof.
  intros Hw Hr; unfold ffa3.sendCommand.
  rewrite Hw, Hr; unfold bind at 1.
  rewrite index_SplitN_first; unfold bind at 1.
  fold (framePrefix (leadingWord cmd)); fold frameSuffix.
  destruct (strings.HasPrefix resp (framePrefix (leadingWord cmd)));
    [|reflexivity].
  destruct (strings.HasSuffix resp frameSuffix); reflexivity.
Qed.

Lemma sendCommand_v1_verify (d d0 d1 : Dev) (cmd resp : gostring) :
  Write d (str "~" ++ cmd ++ [LF]) = (None, d0) ->
  readAll d0 = Returns ((resp, None), d1) ->
  ffa3_v1.sendCommand d cmd =
  if strings.HasPrefix resp (framePrefix (leadingWord cmd))
     && strings.HasSuffix resp frameSuffix
  then
    line <- slice resp (len (framePrefix (leadingWord cmd)))
              (len resp - len (str "ok" ++ CRLF)) ;;
    Returns ((line, None), d1)
  else
    Returns ((resp, Some (ErrUnknownCmdReply (leadingWord cmd) resp)), d1).
Proof.
  intros Hw Hr; unfold ffa3_v1.sendCommand.
  rewrite Hw, Hr; unfold bind at 1.
  rewrite index_SplitN_first; unfold bind at 1.
  fold (framePrefix (leadingWord cmd)); fold frameSuffix.
  destruct (strings.HasPrefix resp (framePrefix (leadingWord cmd)));
    [|reflexivity].
  destruct (strings.HasSuffix resp frameSuffix); reflexivity.
Qed.

(** The two shapes of an accepted response. *)
Lemma accepted_shape (token resp : gostring) :
  strings.HasPrefix resp (framePrefix token) = true ->
  strings.HasSuffix resp frameSuffix = true ->
  resp = framePrefix token ++ str "ok" ++ CRLF
  \/ exists interior, resp = framePrefix token ++ interior ++ frameSuffix.
Proof.
  intros Hp Hs.
  apply HasPrefix_spec in Hp; destruct Hp as [t ->].
  apply HasSuffix_spec in Hs; destruct Hs as [u Hu].
  assert (H : (str "CMD " ++ token ++ str " Received") ++ str "." ++ CRLF ++ t
              = u ++ frameSuffix).
  { rewrite <- Hu; unfold framePrefix.
    repeat rewrite <- app_assoc; reflexivity. }
  apply frame_tail in H; destruct H as [-> | [interior ->]].
  - left; reflexivity.
  - right; exists interior; reflexivity.
Qed.

Lemma slice_interior (token interior : gostring) :
  slice (framePrefix token ++ interior ++ frameSuffix)
    (len (framePrefix token))
    (len (framePrefix token ++ interior ++ frameSuffix) - len (str "ok" ++ CRLF))
  = Returns (interior ++ CRLF).
Proof.
  replace (framePrefix token ++ interior ++ frameSuffix)
    with (framePrefix token ++ (interior ++ CRLF) ++ (str "ok" ++ CRLF))
    by (unfold frameSuffix; repeat rewrite <- app_assoc; reflexivity).
  apply slice_middle.
Qed.

Lemma slice_empty_frame (token : gostring) :
  slice (framePrefix token ++ str "ok" ++ CRLF)
    (len (framePrefix token))
    (len (framePrefix token ++ str "ok" ++ CRLF) - len (str "ok" ++ CRLF))
  = Returns [].
Proof. exact (slice_middle (framePrefix token) [] (str "ok" ++ CRLF)). Qed.

Lemma strip_line_end (interior : gostring) :
  (if strings.HasSuffix (interior ++ CRLF) CRLF
   then slice (interior ++ CRLF) 0 (len (interior ++ CRLF) - len CRLF)
   else Returns (interior ++ CRLF))
  = Returns interior.
Proof. rewrite HasSuffix_app; apply slice_front. Qed.

Lemma readLoop_not_panics script acc : readLoop script acc <> Panics.
Proof.
  revert acc; induction script as [|[data [e|]] rest IH]; intros acc; simpl;
    try discriminate.
  destruct (length (firstn bufLen data) =? bufLen)%nat; simpl;
    [apply IH | discriminate].
Qed.

Lemma readAll_not_panics (c : Conn) : readAll c <> Panics.
Proof.
  unfold readAll.
  pose proof (readLoop_not_panics (incoming c) []) as H.
  destruct (readLoop (incoming c) []) as [[r rest]| |]; simpl;
    congruence.
Qed.

(** C1, as amended.  When the read loop hands over a response made of the
    prefix [CMD <token> Received.\r\n] for the command's leading word, an
    interior and the suffix [\r\nok\r\n], [sendCommand] returns exactly the
    interior, with no error.  Nothing more is stripped: an interior that
    itself ends with a line separator keeps it. *)
Theorem sendCommand_returns_interior (d d0 d1 : Dev) (cmd interior : gostring) :
  Write d (str "~" ++ cmd ++ [LF]) = (None, d0) ->
  readAll d0 =
    Returns ((framePrefix (leadingWord cmd) ++ interior ++ frameSuffix, None),
             d1) ->
  ffa3.sendCommand d cmd = Returns ((interior, None), d1).
Proof.
  intros Hw Hr.
  rewrite (@sendCommand_verify d d0 d1 cmd _ Hw Hr).
  replace (strings.HasPrefix _ (framePrefix (leadingWord cmd))) with true
    by (symmetry; apply HasPrefix_app).
  replace (strings.HasSuffix _ frameSuffix) with true
    by (symmetry; rewrite app_assoc; apply HasSuffix_app).
  cbv beta iota delta [andb].
  rewrite slice_interior; unfold bind at 1.
  rewrite strip_line_end; reflexivity.
Qed.

Lemma sendCommand_returns_interior_witness :
  ffa3.sendCommand
    (streamOf [framePrefix (str "M601") ++ str "Control Success." ++ frameSuffix])
    (str "M601 S1")
  = Returns ((str "Control Success.", None),
             mkConn [] [] [str "~M601 S1" ++ [LF]] None false).
Proof.
  apply (@sendCommand_returns_interior _
           (mkConn [(framePrefix (str "M601") ++ str "Control Success."
                       ++ frameSuffix, None)]
                   [] [str "~M601 S1" ++ [LF]] None false)).
  - reflexivity.
  - vm_compute; reflexivity.
Defined.

(** C1, as stated, fails: an interior that ends with a line separator is
    returned whole, where the statement strips that separator. *)
Lemma sendCommand_keeps_inner_line_end :
  let interior := str "SD printing byte 0/100" ++ CRLF in
  let resp := framePrefix (str "M27") ++ interior ++ frameSuffix in
  ffa3.sendCommand (streamOf [resp]) (str "M27")
    = Returns ((interior, None), mkConn [] [] [str "~M27" ++ [LF]] None false)
  /\ specPayload interior = str "SD printing byte 0/100"
  /\ interior <> specPayload interior.
Proof.
  vm_compute; repeat split; discriminate.
Qed.

(** C2, as amended.  Accumulation goes on only after a read that fills the
    whole 4096-byte buffer; the first read that returns fewer bytes ends
    it.  If what was accumulated until then does not end with the suffix
    [\r\nok\r\n], [sendCommand] fails with the unknown-reply error that
    carries those bytes, and what the stream delivers later stays
    unread. *)
Theorem sendCommand_short_read_ends_accumulation
  (d d0 : Dev) (cmd : gostring) (fulls : list gostring) (chunk : gostring)
  (rest : list (gostring * option error)) :
  Write d (str "~" ++ cmd ++ [LF]) = (None, d0) ->
  incoming d = map (fun b => (b, None)) fulls ++ (chunk, None) :: rest ->
  Forall (fun b => length b = 4096%nat) fulls ->
  (length chunk < 4096)%nat ->
  strings.HasSuffix (concat fulls ++ chunk) frameSuffix = false ->
  ffa3.sendCommand d cmd =
  Returns ((concat fulls ++ chunk,
            Some (ErrUnknownCmdReply (leadingWord cmd) (concat fulls ++ chunk))),
           mkConn rest (wresults d0) (sent d0) (closeErr d0) (closed d0)).
Proof.
  intros Hw Hin Hfull Hshort Hsuf.
  destruct (Write_incoming _ _ Hw) as (Hi & _).
  rewrite <- Hi in Hin.
  change 4096%nat with bufLen in Hfull, Hshort.
  pose proof (@readAll_delivery d0 fulls chunk rest Hin Hfull Hshort) as Hr.
  rewrite (@sendCommand_verify d d0 _ cmd _ Hw Hr).
  rewrite Hsuf, andb_false_r; reflexivity.
Qed.

Lemma sendCommand_short_read_ends_accumulation_witness :
  ffa3.sendCommand
    (streamOf [framePrefix (str "M601") ++ str "Control";
               str " Success." ++ frameSuffix])
    (str "M601 S1")
  = Returns ((framePrefix (str "M601") ++ str "Control",
              Some (ErrUnknownCmdReply (str "M601")
                      (framePrefix (str "M601") ++ str "Control"))),
             mkConn [(str " Success." ++ frameSuffix, None)] []
               [str "~M601 S1" ++ [LF]] None false).
Proof.
  apply (@sendCommand_short_read_ends_accumulation
           (streamOf [framePrefix (str "M601") ++ str "Control";
                      str " Success." ++ frameSuffix])
           (mkConn [(framePrefix (str "M601") ++ str "Control", None);
                    (str " Success." ++ frameSuffix, None)]
                   [] [str "~M601 S1" ++ [LF]] None false)
           (str "M601 S1") []
           (framePrefix (str "M601") ++ str "Control")
           [(str " Success." ++ frameSuffix, None)]).
  - reflexivity.
  - reflexivity.
  - constructor.
  - vm_compute; lia.
  - vm_compute; reflexivity.
Defined.

(** C2, as stated, fails: a well-framed response that arrives in two
    reads, the first shorter than the buffer, is cut at the first read and
    the exchange fails. *)
Lemma sendCommand_fails_on_split_response :
  let first := framePrefix (str "M601") ++ str "Control" in
  let second := str " Success." ++ frameSuffix in
  first ++ second
    = framePrefix (str "M601") ++ str "Control Success." ++ frameSuffix
  /\ (length first < 4096)%nat
  /\ strings.HasSuffix first frameSuffix = false
  /\ ffa3.sendCommand (streamOf [first; second]) (str "M601 S1")
     = Returns ((first, Some (ErrUnknownCmdReply (str "M601") first)),
                mkConn [(second, None)] [] [str "~M601 S1" ++ [LF]] None false).
Proof.
  vm_compute; repeat split; lia.
Qed.

(** C9, as amended.  On every stream and command the two generations of
    [sendCommand] leave the stream in the same state and agree on whether
    the call returns, on the error, and, when it fails, on the string
    returned with the error.  On success the first generation returns the
    payload of the second followed by [\r\n], except for a frame without
    interior (prefix followed by [ok\r\n]), where both return the empty
    string.  Neither panics. *)
Theorem sendCommand_generations (d : Dev) (cmd : gostring) :
  match ffa3_v1.sendCommand d cmd, ffa3.sendCommand d cmd with
  | Returns ((r1, e1), d1), Returns ((r2, e2), d2) =>
      d1 = d2 /\ e1 = e2 /\
      match e1 with
      | Some _ => r1 = r2
      | None => (r1 = [] /\ r2 = []) \/ r1 = r2 ++ CRLF
      end
  | Blocks, Blocks => True
  | _, _ => False
  end.
Proof.
  destruct (Write d (str "~" ++ cmd ++ [LF])) as [[e|] d0] eqn:Hw.
  - unfold ffa3_v1.sendCommand, ffa3.sendCommand; rewrite Hw; auto.
  - destruct (readAll d0) as [[[resp [e|]] d1]| |] eqn:Hr.
    + unfold ffa3_v1.sendCommand, ffa3.sendCommand; rewrite Hw, Hr; simpl; auto.
    + rewrite (@sendCommand_v1_verify d d0 d1 cmd resp Hw Hr).
      rewrite (@sendCommand_verify d d0 d1 cmd resp Hw Hr).
      destruct (strings.HasPrefix resp (framePrefix (leadingWord cmd))) eqn:Hp;
        [|simpl; auto].
      destruct (strings.HasSuffix resp frameSuffix) eqn:Hs; [|simpl; auto].
      cbv beta iota delta [andb].
      destruct (accepted_shape _ _ Hp Hs) as [-> | [interior ->]].
      * rewrite slice_empty_frame; simpl; auto.
      * rewrite slice_interior; unfold bind at 1 2.
        rewrite strip_line_end; simpl; auto.
    + exfalso; exact (readAll_not_panics _ Hr).
    + unfold ffa3_v1.sendCommand, ffa3.sendCommand; rewrite Hw, Hr; simpl; auto.
Qed.

(** C9, as stated, fails: on the reply to the hello command the first
    generation returns the payload with its line separator, the second
    without. *)
Lemma generations_differ_on_hello_reply :
  let d := streamOf [framePrefix (str "M601") ++ str "Control Success."
                       ++ frameSuffix] in
  let d' := mkConn [] [] [str "~M601 S1" ++ [LF]] None false in
  ffa3_v1.sendCommand d (str "M601 S1")
    = Returns ((str "Control Success." ++ CRLF, None), d')
  /\ ffa3.sendCommand d (str "M601 S1")
    = Returns ((str "Control Success.", None), d')
  /\ ffa3_v1.sendCommand d (str "M601 S1") <> ffa3.sendCommand d (str "M601 S1").
Proof.
  vm_compute; repeat split; discriminate.
Qed.

(* ================================================================== *)
(** * The handshake *)

Lemma readAll_state (c c' : Conn) r :
  readAll c = Returns (r, c') ->
  sent c' = sent c /\ closed c' = closed c /\ closeErr c' = closeErr c.
Proof.
  unfold readAll.
  destruct (readLoop (incoming c) []) as [[r0 rest]| |]; simpl;
    try discriminate.
  intros H; injection H; intros; subst; simpl; auto.
Qed.

(** A [sendCommand] that returns has written its command line, and has
    not closed the stream. *)
Lemma sendCommand_state (d d' : Dev) (cmd : gostring) r :
  ffa3.sendCommand d cmd = Returns (r, d') ->
  sent d' = sent d ++ [str "~" ++ cmd ++ [LF]]
  /\ closed d' = closed d /\ closeErr d' = closeErr d.
Proof.
  destruct (Write d (str "~" ++ cmd ++ [LF])) as [[e|] d0] eqn:Hw;
    destruct (Write_incoming _ _ Hw) as (_ & Hce & Hcl & Hs).
  - unfold ffa3.sendCommand; rewrite Hw.
    intros H; injection H; intros; subst; auto.
  - destruct (readAll d0) as [[[resp [e|]] d1]| |] eqn:Hr.
    + unfold ffa3.sendCommand; rewrite Hw, Hr; simpl.
      destruct (readAll_state _ Hr) as (H1 & H2 & H3).
      intros H; injection H; intros; subst.
      rewrite H1, H2, H3; auto.
    + rewrite (@sendCommand_verify d d0 d1 cmd resp Hw Hr).
      destruct (readAll_state _ Hr) as (H1 & H2 & H3).
      assert (Hd1 : sent d1 = sent d ++ [str "~" ++ cmd ++ [LF]]
                    /\ closed d1 = closed d /\ closeErr d1 = closeErr d)
        by (rewrite H1, H2, H3; auto).
      destruct (_ && _).
      * destruct (slice resp _ _) as [line| |]; simpl; try discriminate.
        destruct (if strings.HasSuffix line CRLF
                  then slice line 0 (len line - len CRLF)
                  else Returns line) as [line'| |]; simpl; try discriminate.
        intros H; injection H; intros; subst; exact Hd1.
      * intros H; injection H; intros; subst; exact Hd1.
    + unfold ffa3.sendCommand; rewrite Hw, Hr; discriminate.
    + unfold ffa3.sendCommand; rewrite Hw, Hr; discriminate.
Qed.

(** [Close] returns as soon as the bye exchange does, and leaves the
    stream closed. *)
Lemma Close_returns (d d' : Dev) r :
  ffa3.sendCommand d (str "M602") = Returns (r, d') ->
  exists bye,
    ffa3.Close d = Returns (bye, snd (CloseConn d'))
    /\ closed (snd (CloseConn d')) = true.
Proof.
  intros H; unfold ffa3.Close, ffa3.sendBye; rewrite H.
  destruct r as [resp [e|]]; simpl.
  - eexists; split; reflexivity.
  - destruct (eqs resp _); simpl; eexists; split; reflexivity.
Qed.

(** [Close] does not return while the bye exchange does not. *)
Lemma Close_blocks (d : Dev) :
  ffa3.sendCommand d (str "M602") = Blocks -> ffa3.Close d = Blocks.
Proof.
  intros H; unfold ffa3.Close, ffa3.sendBye; rewrite H; reflexivity.
Qed.

(** C3, as amended.  [Connect] writes the hello command [M601 S1] first.
    Once that exchange has returned a payload and an error: with no error
    and the payload [Control Success.] the connection is handed over,
    still open; with no error and the payload [Control failed.] the
    failure is the already-connected error; with no error and any other
    payload it is the take-control error carrying that payload; with an
    error it is that error.  On a failure [Connect] goes through [Close],
    which performs the bye exchange [M602] before it closes the stream:
    when the bye exchange returns, whatever its result, [Connect] returns
    the failure and no connection, and the stream has been closed by
    then; when the bye exchange does not return, neither does [Connect],
    and nothing has closed the stream. *)
Theorem Connect_handshake
  (dial : gostring -> Conn + error) (ip : gostring) (conn d1 : Conn)
  (resp : gostring) (err : option error) :
  dial (ip ++ str ":8899") = inl conn ->
  ffa3.sendCommand conn (str "M601 S1") = Returns ((resp, err), d1) ->
  sent d1 = sent conn ++ [str "~M601 S1" ++ [LF]]
  /\ (err = None -> resp = str "Control Success." ->
      ffa3.Connect dial ip = Returns ((Some d1, None), Some d1)
      /\ closed d1 = closed conn)
  /\ (let failure :=
        match err with
        | Some e => Some e
        | None =>
            if eqs resp (str "Control failed.") then Some ErrAlreadyConnected
            else if eqs resp (str "Control Success.") then None
            else Some (ErrTakeControl resp)
        end in
      forall e, failure = Some e ->
        ffa3.sendHello conn = Returns (Some e, d1)
        /\ closed d1 = closed conn
        /\ (forall bye d2,
              ffa3.sendCommand d1 (str "M602") = Returns (bye, d2) ->
              ffa3.Connect dial ip
                = Returns ((None, Some e), Some (snd (CloseConn d2)))
              /\ closed (snd (CloseConn d2)) = true)
        /\ (ffa3.sendCommand d1 (str "M602") = Blocks ->
            ffa3.Close d1 = Blocks /\ ffa3.Connect dial ip = Blocks)).
Proof.
  intros Hdial Hhello.
  destruct (sendCommand_state _ _ Hhello) as (Hsent & Hclosed & _).
  split; [exact Hsent|].
  split.
  - intros -> ->.
    unfold ffa3.Connect, ffa3.sendHello; rewrite Hdial, Hhello.
    split; [reflexivity | exact Hclosed].
  - intros failure e Hfail.
    assert (Hhi : ffa3.sendHello conn = Returns (Some e, d1)).
    { unfold ffa3.sendHello; rewrite Hhello; unfold bind.
      subst failure; destruct err as [e0|].
      - injection Hfail as ->; reflexivity.
      - destruct (eqs resp (str "Control failed.")).
        + injection Hfail as <-; reflexivity.
        + destruct (eqs resp (str "Control Success.")); [discriminate|].
          injection Hfail as <-; reflexivity. }
    split; [exact Hhi|].
    split; [exact Hclosed|].
    split.
    + intros bye d2 Hbye.
      destruct (Close_returns _ Hbye) as (b & HClose & Hc).
      split; [|exact Hc].
      unfold ffa3.Connect; rewrite Hdial, Hhi.
      unfold bind at 2; unfold bind; rewrite HClose; reflexivity.
    + intros Hbye; pose proof (@Close_blocks d1 Hbye) as HClose.
      split; [exact HClose|].
      unfold ffa3.Connect; rewrite Hdial, Hhi.
      unfold bind at 2; unfold bind; rewrite HClose; reflexivity.
Qed.

Lemma Connect_handshake_witness :
  let hello := framePrefix (str "M601") ++ str "Control failed." ++ frameSuffix in
  let bye := framePrefix (str "M602") ++ str "Control Release." ++ frameSuffix in
  ffa3.Connect (fun _ => inl (streamOf [hello; bye])) (str "10.0.0.2")
  = Returns ((None, Some ErrAlreadyConnected),
             Some (mkConn [] [] [str "~M601 S1" ++ [LF]; str "~M602" ++ [LF]]
                     None true)).
Proof.
  intros hello bye.
  destruct (@Connect_handshake (fun _ => inl (streamOf [hello; bye]))
              (str "10.0.0.2") (streamOf [hello; bye])
              (mkConn [(bye, None)] [] [str "~M601 S1" ++ [LF]] None false)
              (str "Control failed.") None eq_refl)
    as (_ & _ & H).
  - vm_compute; reflexivity.
  - destruct (H ErrAlreadyConnected eq_refl) as (_ & _ & Hret & _).
    exact (proj1 (Hret (str "Control Release.", None)
                    (mkConn [] [] [str "~M601 S1" ++ [LF]; str "~M602" ++ [LF]]
                       None false)
                    ltac:(vm_compute; reflexivity))).
Defined.

(** C3, as stated, fails on a printer that refuses the control and then
    stays silent: the handshake has failed with the already-connected
    error and the stream is open; the bye exchange of [Close] waits for a
    reply that does not come, so [Connect] returns no error and the
    stream is never closed. *)
Lemma Connect_silent_after_refusal :
  let hello := framePrefix (str "M601") ++ str "Control failed." ++ frameSuffix in
  let d1 := mkConn [] [] [str "~M601 S1" ++ [LF]] None false in
  ffa3.sendHello (streamOf [hello]) = Returns (Some ErrAlreadyConnected, d1)
  /\ closed d1 = false
  /\ ffa3.Close d1 = Blocks
  /\ ffa3.Connect (fun _ => inl (streamOf [hello])) (str "10.0.0.2") = Blocks.
Proof.
  repeat split; vm_compute; reflexivity.
Qed.

(* ================================================================== *)
(** * Discovery *)





(* ================================================================== *)
(** * The reply parsers and the caller's record *)

(** [QueryTemp] never assigns to [*t]. *)
Lemma QueryTemp_keeps_record (d d' : Dev) (t t' : ffa3.Temperatures) r :
  ffa3.QueryTemp d t = Returns ((r, t'), d') -> t' = t.
Proof.
  unfold ffa3.QueryTemp.
  destruct (ffa3.sendCommand d (str "M105")) as [[[resp [e|]] d1]| |]; simpl;
    try discriminate.
  - intros H; injection H; auto.
  - destruct (regexp.FindStringSubmatch ffa3.reTemp resp);
      intros H; injection H; auto.
Qed.

(** C7.  On a payload of the shape [T<n>:<int> /<int> B:<int>/<int>],
    [QueryTemp] returns no error and leaves the caller's record as it
    was: the temperatures of the reply are not extracted. *)
Theorem QueryTemp_extracts_nothing :
  let reply := framePrefix (str "M105") ++ str "T0:210 /215 B:55/60"
                 ++ frameSuffix in
  ffa3.QueryTemp (streamOf [reply]) (ffa3.mkTemperatures 0%Z 0%Z 0%Z)
  = Returns ((None, ffa3.mkTemperatures 0%Z 0%Z 0%Z),
             mkConn [] [] [str "~M105" ++ [LF]] None false).
Proof. vm_compute; reflexivity. Qed.

Lemma infoLines_app (before after : list gostring) (i i1 : ffa3.Info) :
  ffa3.infoLines before i = Returns (None, i1) ->
  ffa3.infoLines (before ++ after) i = ffa3.infoLines after i1.
Proof.
  revert i; induction before as [|line before IH]; intros i; simpl.
  - intros H; injection H; intros; subst; reflexivity.
  - destruct (ffa3.infoLine i line) as [[[e|] i']| |]; simpl;
      try discriminate.
    apply IH.
Qed.

(** A line on which [infoLine] fails changes at most the three distances
    and the tool count. *)
Lemma infoLine_failure_keeps (i i' : ffa3.Info) (line : gostring) (e : error) :
  ffa3.infoLine i line = Returns (Some e, i') ->
  ffa3.iType i' = ffa3.iType i /\ ffa3.iName i' = ffa3.iName i
  /\ ffa3.iFirmware i' = ffa3.iFirmware i /\ ffa3.iSerial i' = ffa3.iSerial i
  /\ ffa3.iMacAddr i' = ffa3.iMacAddr i.
Proof.
  unfold ffa3.infoLine.
  repeat match goal with
         | |- context [if ?b then _ else _] => destruct b
         | |- context [bind (sliceFrom ?l ?n) _] =>
             destruct (sliceFrom l n); simpl
         | |- context [bind (index ?l ?n) _] => destruct (index l n); simpl
         | |- context [regexp.FindStringSubmatch ?r ?l] =>
             destruct (regexp.FindStringSubmatch r l)
         | |- context [strconv.Atoi ?a] =>
             destruct (strconv.Atoi a) as [? [?|]]
         end;
    try discriminate;
    intros H; injection H; intros; subst; simpl; auto.
Qed.

(** C4, as amended.  The parsers write the caller's record in place and
    roll nothing back.  When [QueryPrinterInfo] fails on a line, the
    record is left as the lines before it, applied in order, and then the
    failing line have written it: the fields that earlier lines assigned
    stay assigned, and the failing line itself changes at most the three
    distances and the tool count. *)
Theorem QueryPrinterInfo_failure_keeps_earlier_lines
  (d d1 : Dev) (resp : gostring) (before after : list gostring)
  (bad : gostring) (i i1 i2 : ffa3.Info) (e : error) :
  ffa3.sendCommand d (str "M115") = Returns ((resp, None), d1) ->
  strings.Split resp LF = before ++ bad :: after ->
  ffa3.infoLines before i = Returns (None, i1) ->
  ffa3.infoLine i1 bad = Returns (Some e, i2) ->
  ffa3.QueryPrinterInfo d i = Returns ((Some e, i2), d1)
  /\ ffa3.iType i2 = ffa3.iType i1 /\ ffa3.iName i2 = ffa3.iName i1
  /\ ffa3.iFirmware i2 = ffa3.iFirmware i1
  /\ ffa3.iSerial i2 = ffa3.iSerial i1
  /\ ffa3.iMacAddr i2 = ffa3.iMacAddr i1.
Proof.
  intros Hsend Hsplit Hbefore Hbad.
  split; [|exact (@infoLine_failure_keeps i1 i2 bad e Hbad)].
  unfold ffa3.QueryPrinterInfo; rewrite Hsend; unfold bind at 1.
  rewrite Hsplit, (@infoLines_app before (bad :: after) i i1 Hbefore).
  simpl; rewrite Hbad; reflexivity.
Qed.

Lemma QueryPrinterInfo_failure_keeps_earlier_lines_witness :
  let reply := framePrefix (str "M115") ++ str "Machine Type: Adventurer 3"
                 ++ CRLF ++ str "Tool Count: one" ++ frameSuffix in
  let i0 := ffa3.mkInfo [] [] [] [] 0 0 0 7 [] in
  ffa3.QueryPrinterInfo (streamOf [reply]) i0
  = Returns ((Some (ErrSyntax (str "Atoi") (str "one")),
              ffa3.mkInfo (str "Adventurer 3") [] [] [] 0 0 0 0 []),
             mkConn [] [] [str "~M115" ++ [LF]] None false).
Proof.
  intros reply i0.
  refine (proj1 (@QueryPrinterInfo_failure_keeps_earlier_lines
                   (streamOf [reply])
                   (mkConn [] [] [str "~M115" ++ [LF]] None false)
                   (str "Machine Type: Adventurer 3" ++ CRLF
                      ++ str "Tool Count: one")
                   [str "Machine Type: Adventurer 3" ++ [CR]] []
                   (str "Tool Count: one") i0
                   (ffa3.mkInfo (str "Adventurer 3") [] [] [] 0 0 0 7 [])
                   (ffa3.mkInfo (str "Adventurer 3") [] [] [] 0 0 0 0 [])
                   (ErrSyntax (str "Atoi") (str "one")) _ _ _ _));
    vm_compute; reflexivity.
Defined.

(** C4, as stated, fails: a reply whose second line is not in the
    vocabulary makes [QueryPrinterInfo] return an error and a record in
    which the machine type of the first line is already written. *)
Lemma QueryPrinterInfo_partial_record :
  let reply := framePrefix (str "M115") ++ str "Machine Type: Adventurer 3"
                 ++ CRLF ++ str "Door: open" ++ frameSuffix in
  let i0 := ffa3.mkInfo [] [] [] [] 0 0 0 0 [] in
  let i1 := ffa3.mkInfo (str "Adventurer 3") [] [] [] 0 0 0 0 [] in
  ffa3.QueryPrinterInfo (streamOf [reply]) i0
  = Returns ((Some (ErrUnknownReply (str "Door: open")), i1),
             mkConn [] [] [str "~M115" ++ [LF]] None false)
  /\ i1 <> i0.
Proof.
  vm_compute; split; [reflexivity | discriminate].
Qed.

(** The same in [QueryExtruderPosition]: [p.X] is written before the
    conversion of the second field fails. *)
Lemma QueryExtruderPosition_partial_record :
  let reply := framePrefix (str "M114")
                 ++ str "X:1.5 Y:99999999999999999999.0 Z:0.0 A:0 B:0"
                 ++ frameSuffix in
  ffa3.QueryExtruderPosition (streamOf [reply]) (ffa3.mkPosition 0 0 0 0 0)
  = Returns ((Some (ErrRange (str "Atoi") (str "99999999999999999999")),
              ffa3.mkPosition 1500000 0 0 0 0),
             mkConn [] [] [str "~M114" ++ [LF]] None false).
Proof. vm_compute; reflexivity. Qed.

(* ================================================================== *)
(** * The distance codec *)

Lemma wrap64_small (z : Z) : - 2 ^ 63 <= z < 2 ^ 63 -> wrap64 z = z.
Proof. intros H; unfold wrap64; rewrite Z.mod_small; lia. Qed.

Lemma wrap64_shift (z k : Z) : wrap64 (z + k * 2 ^ 64) = wrap64 z.
Proof.
  unfold wrap64.
  replace (z + k * 2 ^ 64 + 2 ^ 63) with (z + 2 ^ 63 + k * 2 ^ 64) by ring.
  rewrite Z_mod_plus_full; reflexivity.
Qed.

Lemma wrap64_repr (z : Z) : exists k, wrap64 z = z + k * 2 ^ 64.
Proof.
  exists (- ((z + 2 ^ 63) / 2 ^ 64)); unfold wrap64.
  pose proof (Z.div_mod (z + 2 ^ 63) (2 ^ 64)) as H.
  lia.
Qed.

Lemma wrap64_add (a b : Z) : wrap64 (wrap64 a + wrap64 b) = wrap64 (a + b).
Proof.
  destruct (wrap64_repr a) as [k ->]; destruct (wrap64_repr b) as [l ->].
  replace (a + k * 2 ^ 64 + (b + l * 2 ^ 64)) with (a + b + (k + l) * 2 ^ 64)
    by ring.
  apply wrap64_shift.
Qed.

Lemma wrap64_mul_l (a b : Z) : wrap64 (wrap64 a * b) = wrap64 (a * b).
Proof.
  destruct (wrap64_repr a) as [k ->].
  replace ((a + k * 2 ^ 64) * b) with (a * b + (k * b) * 2 ^ 64) by ring.
  apply wrap64_shift.
Qed.

(** The loop [for j := 0; j < len(s[i+1:]); j++ { ff /= 10 }] leaves in
    [ff] the millimetre divided by [10^d]. *)
Lemma scale_after_digits (d : nat) :
  Nat.iter d (fun ff => physic.div ff 10) physic.MilliMetre
  = physic.MilliMetre / 10 ^ Z.of_nat d.
Proof.
  induction d as [|d IH].
  - reflexivity.
  - rewrite Nat2Z.inj_succ, Z.pow_succ_r by lia.
    simpl Nat.iter; rewrite IH; unfold physic.div.
    assert (H10 : 0 < 10 ^ Z.of_nat d) by (apply Z.pow_pos_nonneg; lia).
    assert (Hlo : 0 <= physic.MilliMetre / 10 ^ Z.of_nat d)
      by (apply Z.div_pos; [vm_compute; discriminate | exact H10]).
    assert (Hhi : physic.MilliMetre / 10 ^ Z.of_nat d <= physic.MilliMetre)
      by (apply Z.div_le_upper_bound; [exact H10|];
          change physic.MilliMetre with 1000000; nia).
    rewrite Z.quot_div_nonneg by lia.
    rewrite Z.div_div by lia.
    rewrite (Z.mul_comm (10 ^ Z.of_nat d) 10).
    apply wrap64_small.
    assert (0 <= physic.MilliMetre / (10 * 10 ^ Z.of_nat d) <= physic.MilliMetre).
    { split; [apply Z.div_pos; [vm_compute; discriminate | lia]|].
      apply Z.div_le_upper_bound; [lia|].
      change physic.MilliMetre with 1000000; nia. }
    change physic.MilliMetre with 1000000 in *; lia.
Qed.

Lemma index_head {A : Type} (x : A) (l : list A) : index (x :: l) 0 = Returns x.
Proof.
  unfold index.
  replace (0 <? Z.of_nat (length (x :: l))) with true
    by (symmetry; apply Z.ltb_lt; simpl length; lia).
  reflexivity.
Qed.

Lemma index_nil {A : Type} (i : Z) : index (@nil A) i = Panics.
Proof.
  unfold index; simpl length.
  destruct (0 <=? i) eqn:H0; [|reflexivity].
  replace (i <? Z.of_nat 0) with false
    by (symmetry; apply Z.ltb_ge; apply Z.leb_le in H0; lia).
  reflexivity.
Qed.

Lemma sliceTo_app (a b : gostring) : sliceTo (a ++ b) (len a) = Returns a.
Proof.
  unfold sliceTo, slice; rewrite len_app.
  pose proof (len_nonneg a); pose proof (len_nonneg b).
  replace (0 <=? len a) with true by (symmetry; apply Z.leb_le; lia).
  replace (len a <=? len a + len b) with true
    by (symmetry; apply Z.leb_le; lia).
  simpl; rewrite Z.sub_0_r; unfold len; rewrite Nat2Z.id.
  rewrite firstn_app, firstn_all, Nat.sub_diag; simpl.
  rewrite app_nil_r; reflexivity.
Qed.

Lemma sliceFrom_app (a b : gostring) : sliceFrom (a ++ b) (len a) = Returns b.
Proof.
  unfold sliceFrom, slice; rewrite len_app.
  pose proof (len_nonneg a); pose proof (len_nonneg b).
  replace (0 <=? len a) with true by (symmetry; apply Z.leb_le; lia).
  replace (len a <=? len a + len b) with true
    by (symmetry; apply Z.leb_le; lia).
  rewrite Z.leb_refl; simpl.
  replace (len a + len b - len a) with (len b) by lia.
  unfold len; rewrite !Nat2Z.id.
  rewrite skipn_app, skipn_all, Nat.sub_diag; simpl.
  apply f_equal, firstn_all.
Qed.

Lemma sliceFrom_tail (c : ascii) (s : gostring) :
  sliceFrom (c :: s) 1 = Returns s.
Proof. exact (sliceFrom_app [c] s). Qed.

(** [IndexRune] finds the first occurrence. *)
Lemma IndexRune_Some (s : gostring) (c : ascii) (i : nat) :
  strings.IndexRune s c = Some i ->
  exists a b, s = a ++ c :: b /\ length a = i /\ ~ In c a.
Proof.
  revert i; induction s as [|x s IH]; intros i; simpl; [discriminate|].
  destruct (Ascii.eqb_spec x c) as [->|Hne].
  - intros H; injection H; intros; subst.
    exists [], s; simpl; auto.
  - destruct (strings.IndexRune s c) as [j|]; [|discriminate].
    intros H; injection H; intros; subst.
    destruct (IH j eq_refl) as (a & b & -> & Hl & Hn).
    exists (x :: a), b; simpl; repeat split; auto.
    intros [H1|H1]; auto.
Qed.

Lemma IndexRune_None (s : gostring) (c : ascii) :
  strings.IndexRune s c = None <-> ~ In c s.
Proof.
  induction s as [|x s IH]; simpl; [tauto|].
  destruct (Ascii.eqb_spec x c) as [->|Hne].
  - split; [discriminate | intros H; exfalso; auto].
  - destruct (strings.IndexRune s c) as [j|].
    + split; [discriminate|].
      intros H; exfalso; apply H; right.
      destruct (in_dec ascii_dec c s) as [Hin|Hin]; [exact Hin|].
      apply IH in Hin; discriminate.
    + split; [|reflexivity].
      intros _ [H|H]; [auto | revert H; apply IH; reflexivity].
Qed.

Lemma IndexRune_app (a b : gostring) (c : ascii) :
  ~ In c a -> strings.IndexRune (a ++ c :: b) c = Some (length a).
Proof.
  induction a as [|x a IH]; intros Hn; simpl.
  - rewrite Ascii.eqb_refl; reflexivity.
  - destruct (Ascii.eqb_spec x c) as [->|Hne]; [exfalso; apply Hn; left; auto|].
    rewrite IH; [reflexivity | intros H; apply Hn; right; exact H].
Qed.

(** Digits are neither signs nor the decimal point nor a blank. *)
Lemma digit_not (c x : ascii) :
  strconv.isDigit c = true -> strconv.isDigit x = false -> Ascii.eqb c x = false.
Proof.
  intros Hc Hx; destruct (Ascii.eqb_spec c x) as [->|]; congruence.
Qed.

Lemma allDigits_not_in (ds : gostring) (x : ascii) :
  allDigits ds = true -> strconv.isDigit x = false -> ~ In x ds.
Proof.
  unfold allDigits; rewrite forallb_forall; intros H Hx Hin.
  apply H in Hin; congruence.
Qed.

Lemma digitVal_range (c : ascii) :
  strconv.isDigit c = true -> 0 <= strconv.digitVal c <= 9.
Proof.
  unfold strconv.isDigit, strconv.digitVal; intros H.
  apply andb_true_iff in H; destruct H as [H1 H2].
  apply Nat.leb_le in H1; apply Nat.leb_le in H2; lia.
Qed.

Lemma digits_grow (ds : gostring) (n : Z) :
  allDigits ds = true -> 0 <= n ->
  n <= fold_left (fun n c => n * 10 + strconv.digitVal c) ds n.
Proof.
  revert n; induction ds as [|c ds IH]; intros n Hd Hn; simpl; [lia|].
  unfold allDigits in Hd; simpl in Hd; apply andb_true_iff in Hd.
  destruct Hd as [Hc Hd]; pose proof (@digitVal_range c Hc).
  specialize (IH (n * 10 + strconv.digitVal c) Hd); lia.
Qed.

(** On digits that stay within a 64-bit word the loop reads the whole
    number. *)
Lemma scanDigits_digits (ds : gostring) (n : Z) :
  allDigits ds = true -> 0 <= n ->
  fold_left (fun n c => n * 10 + strconv.digitVal c) ds n < 2 ^ 64 ->
  strconv.scanDigits ds n
  = strconv.Number (fold_left (fun n c => n * 10 + strconv.digitVal c) ds n).
Proof.
  revert n; induction ds as [|c ds IH]; intros n Hd Hn Hv;
    [reflexivity|].
  unfold allDigits in Hd; cbn [forallb] in Hd; apply andb_true_iff in Hd.
  destruct Hd as [Hc Hd]; pose proof (@digitVal_range c Hc).
  cbn [fold_left] in Hv |- *; cbn [strconv.scanDigits]; rewrite Hc.
  assert (Hstep : 0 <= n * 10 + strconv.digitVal c) by lia.
  pose proof (@digits_grow ds (n * 10 + strconv.digitVal c) Hd Hstep).
  cbv zeta.
  destruct (Z.leb_spec (2 ^ 64) (n * 10 + strconv.digitVal c)) as [Hov|_];
    [lia|].
  apply IH; assumption.
Qed.

(** The loop reads a number from digits only. *)
Lemma scanDigits_Number (ds : gostring) (n m : Z) :
  strconv.scanDigits ds n = strconv.Number m -> allDigits ds = true.
Proof.
  revert n; induction ds as [|c ds IH]; intros n; [reflexivity|].
  cbn [strconv.scanDigits].
  destruct (strconv.isDigit c) eqn:Hc; [|discriminate].
  cbv zeta.
  destruct (2 ^ 64 <=? n * 10 + strconv.digitVal c); [discriminate|].
  intros H; unfold allDigits; cbn [forallb]; rewrite Hc.
  exact (IH _ H).
Qed.

(** [strconv.Atoi] on a run of digits below [1 << 63]. *)
Lemma Atoi_digits (ds : gostring) :
  ds <> [] -> allDigits ds = true -> strconv.digitsValue ds < 2 ^ 63 ->
  strconv.Atoi ds = (strconv.digitsValue ds, None).
Proof.
  intros Hne Hd Hv; destruct ds as [|c ds]; [congruence|].
  unfold strconv.Atoi.
  assert (Hc : strconv.isDigit c = true)
    by (unfold allDigits in Hd; simpl in Hd; apply andb_true_iff in Hd; tauto).
  rewrite (digit_not c "-" Hc eq_refl), (digit_not c "+" Hc eq_refl).
  cbv beta iota zeta delta [orb].
  rewrite (@scanDigits_digits (c :: ds) 0 Hd (Z.le_refl 0))
    by (fold (strconv.digitsValue (c :: ds)); lia).
  fold (strconv.digitsValue (c :: ds)).
  replace (strconv.cutoff <=? strconv.digitsValue (c :: ds)) with false
    by (symmetry; apply Z.leb_gt; exact Hv).
  reflexivity.
Qed.

(** What [strconv.Atoi] accepts is, after the sign that may stand at its
    head, a non-empty run of digits. *)
Lemma Atoi_accepts_unsigned (s : gostring) (v : Z) :
  strconv.Atoi s = (v, None) ->
  unsignedPart s <> [] /\ allDigits (unsignedPart s) = true.
Proof.
  unfold strconv.Atoi, unsignedPart; destruct s as [|c s]; [discriminate|].
  cbv zeta.
  destruct (Ascii.eqb c "+") eqn:Hp; destruct (Ascii.eqb c "-") eqn:Hm;
    cbv beta iota delta [orb].
  1-3: destruct s as [|x s]; [discriminate|].
  all: match goal with
       | |- match strconv.scanDigits ?ds 0 with _ => _ end = _ -> _ =>
           destruct (strconv.scanDigits ds 0) as [un| |] eqn:Hscan;
           [ intros _; split;
             [discriminate | exact (@scanDigits_Number _ _ _ Hscan)]
           | discriminate
           | discriminate ]
       end.
Qed.

(** What [strconv.Atoi] accepts is not empty and holds digits and signs
    only. *)
Lemma Atoi_accepts (s : gostring) (v : Z) :
  strconv.Atoi s = (v, None) ->
  s <> [] /\ forall c, In c s ->
               strconv.isDigit c = true \/ c = "+"%char \/ c = "-"%char.
Proof.
  intros H; apply Atoi_accepts_unsigned in H; destruct H as [Hne Hd].
  unfold allDigits in Hd; rewrite forallb_forall in Hd.
  destruct s as [|c s]; [exfalso; apply Hne; reflexivity|].
  split; [discriminate|].
  unfold unsignedPart in Hd.
  destruct (Ascii.eqb_spec c "+") as [->|Hp];
    [|destruct (Ascii.eqb_spec c "-") as [->|Hm]]; simpl in Hd.
  - intros x [<-|Hin]; auto.
  - intros x [<-|Hin]; auto.
  - intros x Hin; left; apply Hd; exact Hin.
Qed.

Lemma Atoi_rejects (p : gostring) :
  badPart p -> exists v e, strconv.Atoi p = (v, Some e).
Proof.
  intros Hbad.
  destruct (strconv.Atoi p) as [v [e|]] eqn:H; [eauto|].
  exfalso; apply Atoi_accepts_unsigned in H; destruct H as [Hne Hd].
  destruct Hbad as [Hempty|(c & Hin & Hc)]; [congruence|].
  unfold allDigits in Hd; rewrite forallb_forall in Hd.
  rewrite (Hd c Hin) in Hc; discriminate.
Qed.

Lemma skipn_past {A : Type} (a b : list A) (c : A) :
  skipn (S (length a)) (a ++ c :: b) = b.
Proof. induction a as [|x a IH]; simpl; auto. Qed.

(** The conversion block of [parseDistance] never panics: its slices are
    cut at an index that [IndexRune] returned. *)
Lemma parse_block (s : gostring) :
  match strings.IndexRune s "."%char with
  | Some i =>
      a <- sliceTo s (Z.of_nat i) ;;
      let '(v, err) := strconv.Atoi a in
      match err with
      | Some e => Returns (inl e)
      | None =>
          b <- sliceFrom s (Z.of_nat i + 1) ;;
          let '(f, err) := strconv.Atoi b in
          match err with
          | Some e => Returns (inl e)
          | None =>
              let ff := Nat.iter (length b)
                          (fun ff => physic.div ff 10%Z) physic.MilliMetre in
              Returns (inr (physic.add (physic.mul physic.MilliMetre v)
                                       (physic.mul ff f)))
          end
      end
  | None =>
      let '(v, err) := strconv.Atoi s in
      match err with
      | Some e => Returns (inl e)
      | None => Returns (inr (physic.mul physic.MilliMetre v))
      end
  end = Returns (magnitude s).
Proof.
  unfold magnitude.
  destruct (strings.IndexRune s ".") as [i|] eqn:Hi.
  - apply IndexRune_Some in Hi; destruct Hi as (a & b & -> & <- & _).
    change (Z.of_nat (length a)) with (len a).
    rewrite sliceTo_app; unfold bind at 1.
    rewrite firstn_app, firstn_all, Nat.sub_diag; simpl firstn.
    rewrite app_nil_r.
    rewrite skipn_past.
    destruct (strconv.Atoi a) as [v [e|]]; [reflexivity|].
    replace (sliceFrom (a ++ "."%char :: b) (len a + 1)) with (Returns b).
    + unfold bind.
      destruct (strconv.Atoi b) as [f [e|]]; reflexivity.
    + symmetry.
      change (a ++ "."%char :: b) with (a ++ ["."%char] ++ b).
      rewrite app_assoc.
      replace (len a + 1) with (len (a ++ ["."%char]))
        by (rewrite len_app; reflexivity).
      apply sliceFrom_app.
  - destruct (strconv.Atoi s) as [v [e|]]; reflexivity.
Qed.

Lemma parseDistance_neg (body : gostring) :
  ffa3.parseDistance ("-"%char :: body)
  = Returns match magnitude body with
            | inl e => (0, Some e)
            | inr out => (physic.mul out (-1), None)
            end.
Proof.
  unfold ffa3.parseDistance.
  rewrite index_head; unfold bind at 1.
  rewrite Ascii.eqb_refl, sliceFrom_tail; unfold bind at 1.
  rewrite parse_block; unfold bind.
  destruct (magnitude body); reflexivity.
Qed.

Lemma parseDistance_pos (c : ascii) (rest : gostring) :
  Ascii.eqb c "-" = false ->
  ffa3.parseDistance (c :: rest)
  = Returns match magnitude (c :: rest) with
            | inl e => (0, Some e)
            | inr out => (out, None)
            end.
Proof.
  intros Hc; unfold ffa3.parseDistance.
  rewrite index_head; unfold bind at 1.
  rewrite Hc; unfold bind at 1.
  rewrite parse_block; unfold bind.
  destruct (magnitude (c :: rest)); reflexivity.
Qed.

(** Every non-empty text makes [parseDistance] return. *)
Lemma parseDistance_returns (s : gostring) :
  s <> [] -> exists v err, ffa3.parseDistance s = Returns (v, err).
Proof.
  destruct s as [|c rest]; [congruence|]; intros _.
  destruct (Ascii.eqb_spec c "-") as [->|Hc].
  - rewrite parseDistance_neg; destruct (magnitude rest); eauto.
  - rewrite parseDistance_pos by (apply Ascii.eqb_neq; exact Hc).
    destruct (magnitude (c :: rest)); eauto.
Qed.

Lemma magnitude_decimal (ip : gostring) (frac : option gostring) :
  wellFormed ip frac -> fitsInt ip frac ->
  magnitude (ip ++ match frac with
                   | Some fp => "."%char :: fp
                   | None => []
                   end)
  = inr (wrap64 (specDistance false ip frac)).
Proof.
  intros (Hne & Hd & Hf) (Hv & Hfv); unfold magnitude, specDistance.
  destruct frac as [fp|].
  - destruct Hf as (Hfne & Hfd).
    rewrite IndexRune_app by (apply allDigits_not_in; auto).
    rewrite firstn_app, firstn_all, Nat.sub_diag; simpl firstn.
    rewrite app_nil_r, skipn_past.
    rewrite (Atoi_digits Hne Hd Hv), (Atoi_digits Hfne Hfd Hfv).
    rewrite scale_after_digits.
    unfold physic.add, physic.mul; rewrite wrap64_add.
    do 2 f_equal; ring.
  - rewrite app_nil_r.
    replace (strings.IndexRune ip ".") with (@None nat)
      by (symmetry; apply IndexRune_None, allDigits_not_in; auto).
    rewrite (Atoi_digits Hne Hd Hv).
    unfold physic.mul; do 2 f_equal; ring.
Qed.

Lemma magnitude_bad (a : gostring) (frac : option gostring) :
  ~ In "."%char a ->
  badPart a \/ (exists b, frac = Some b /\ badPart b) ->
  exists e, magnitude (a ++ match frac with
                            | Some fp => "."%char :: fp
                            | None => []
                            end) = inl e.
Proof.
  intros Hdot Hbad; unfold magnitude.
  destruct frac as [b|].
  - rewrite IndexRune_app by exact Hdot.
    rewrite firstn_app, firstn_all, Nat.sub_diag; simpl firstn.
    rewrite app_nil_r, skipn_past.
    destruct (strconv.Atoi a) as [v [e|]] eqn:Ha; [eauto|].
    destruct Hbad as [Hbad|(b' & Hb & Hbad)].
    + destruct (Atoi_rejects Hbad) as (v' & e & H); congruence.
    + injection Hb; intros; subst b'.
      destruct (Atoi_rejects Hbad) as (v' & e & ->); eauto.
  - rewrite app_nil_r.
    replace (strings.IndexRune a ".") with (@None nat)
      by (symmetry; apply IndexRune_None; exact Hdot).
    destruct Hbad as [Hbad|(b' & Hb & _)]; [|discriminate].
    destruct (Atoi_rejects Hbad) as (v' & e & ->); eauto.
Qed.

Lemma parseDistance_wellFormed (neg : bool) (ip : gostring)
  (frac : option gostring) :
  wellFormed ip frac -> fitsInt ip frac ->
  ffa3.parseDistance (decimalText neg ip frac)
  = Returns (wrap64 (specDistance neg ip frac), None).
Proof.
  intros Hwf Hfit; unfold decimalText.
  pose proof (magnitude_decimal Hwf Hfit) as Hm.
  destruct neg; simpl signOf.
  - change (["-"%char] ++ ?x) with ("-"%char :: x).
    rewrite parseDistance_neg, Hm.
    unfold physic.mul; rewrite wrap64_mul_l.
    do 3 f_equal; unfold specDistance; ring.
  - destruct Hwf as (Hne & Hd & _).
    destruct ip as [|c ip]; [congruence|].
    assert (Hc : strconv.isDigit c = true)
      by (unfold allDigits in Hd; simpl in Hd; apply andb_true_iff in Hd;
          tauto).
    simpl app in *.
    rewrite parseDistance_pos by (apply digit_not; auto).
    rewrite Hm; reflexivity.
Qed.

(** C5, as amended.  For every signed decimal text (optional leading
    [-], integer digits, optionally [.] and [d] fractional digits) whose
    two digit runs each denote a number below [2^63], [parseDistance]
    returns, reduced to an [int64],
    [sign * (intPart * unit + fracPart * (unit / 10^d))], the unit being
    the millimetre and the division truncating; when that number fits an
    [int64] it is returned as it is.  It returns an error when the integer
    or the fractional part, without the sign that may stand at its head,
    is empty or holds a byte that is not a digit, such as a second
    decimal point or a sign further on.
    [parseDistance("-12.340")] is -12340 micrometres. *)
Theorem parseDistance_codec :
  (forall neg ip frac,
      wellFormed ip frac -> fitsInt ip frac ->
      ffa3.parseDistance (decimalText neg ip frac)
      = Returns (wrap64 (specDistance neg ip frac), None))
  /\ (forall neg ip frac,
         wellFormed ip frac -> fitsInt ip frac ->
         - 2 ^ 63 <= specDistance neg ip frac < 2 ^ 63 ->
         ffa3.parseDistance (decimalText neg ip frac)
         = Returns (specDistance neg ip frac, None))
  /\ (forall neg a frac,
         ~ In "."%char a ->
         (neg = false ->
          exists c rest, decimalText false a frac = c :: rest /\ c <> "-"%char) ->
         badPart a \/ (exists b, frac = Some b /\ badPart b) ->
         exists e,
           ffa3.parseDistance (decimalText neg a frac) = Returns (0, Some e))
  /\ ffa3.parseDistance (str "-12.340")
     = Returns (-12340 * physic.MicroMetre, None).
Proof.
  split; [exact parseDistance_wellFormed|].
  split; [|split].
  - intros neg ip frac Hwf Hfit Hrange.
    rewrite parseDistance_wellFormed by assumption.
    rewrite wrap64_small by exact Hrange; reflexivity.
  - intros neg a frac Hdot Hhead Hbad.
    destruct (@magnitude_bad a frac Hdot Hbad) as [e He].
    unfold decimalText in *; destruct neg; simpl signOf in *.
    + change (["-"%char] ++ ?x) with ("-"%char :: x).
      rewrite parseDistance_neg, He; eauto.
    + destruct (Hhead eq_refl) as (c & rest & Heq & Hc).
      simpl app in *; rewrite Heq in *.
      rewrite parseDistance_pos by (apply Ascii.eqb_neq; exact Hc).
      rewrite He; eauto.
  - vm_compute; reflexivity.
Qed.

Lemma parseDistance_codec_witness :
  ffa3.parseDistance (decimalText true (str "12") (Some (str "340")))
  = Returns (-12340000, None)
  /\ exists e,
       ffa3.parseDistance (decimalText false (str "1") (Some (str "2.3")))
       = Returns (0, Some e).
Proof.
  destruct parseDistance_codec as (_ & Hvalue & Herror & _).
  split.
  - apply (Hvalue true (str "12") (Some (str "340"))).
    + repeat split; discriminate.
    + split; reflexivity.
    + split; vm_compute; congruence.
  - apply (Herror false (str "1") (Some (str "2.3"))).
    + simpl; intros [H|[]]; discriminate.
    + intros _; exists "1"%char, (str ".2.3"); split;
        [reflexivity | discriminate].
    + right; exists (str "2.3"); split; [reflexivity|].
      right; exists "."%char; simpl; repeat split;
        try discriminate; auto.
Defined.

(** C5, as stated, fails twice: a signed decimal text whose integer part
    is twenty digits long is answered with a range error, not with a
    value; and a sign at the head of a part, which is not a digit, is
    read as the sign of that part and no error is returned, be it a
    second [-] before the integer part or a [-] after the decimal
    point. *)
Lemma parseDistance_range_and_sign :
  wellFormed (str "99999999999999999999") None
  /\ ffa3.parseDistance (decimalText false (str "99999999999999999999") None)
     = Returns (0, Some (ErrRange (str "Atoi") (str "99999999999999999999")))
  /\ ffa3.parseDistance (str "--5") = Returns (5 * physic.MilliMetre, None)
  /\ ffa3.parseDistance (str "1.-5")
     = Returns (physic.MilliMetre - 5 * (10 * physic.MicroMetre), None).
Proof.
  repeat split; try discriminate; vm_compute; reflexivity.
Qed.

(* ================================================================== *)
(** * The patterns of the reply parsers *)

Section Matching.

Variable n : nat.

Lemma run_Cat (r1 r2 : regexp.Regexp) s caps k :
  regexp.run n (regexp.Cat r1 r2) s caps k
  = regexp.run n r1 s caps (fun s' caps' => regexp.run n r2 s' caps' k).
Proof. reflexivity. Qed.

Lemma run_lits_fwd (p s : gostring) caps k :
  regexp.run n (regexp.lits p) (p ++ s) caps k = k s caps.
Proof.
  induction p as [|c p IH]; simpl; [reflexivity|].
  rewrite Ascii.eqb_refl; exact IH.
Qed.

Lemma run_lits_inv (p s : gostring) caps k r :
  regexp.run n (regexp.lits p) s caps k = Some r ->
  exists s', s = p ++ s' /\ k s' caps = Some r.
Proof.
  revert s; induction p as [|c p IH]; intros s; simpl.
  - intros H; exists s; auto.
  - destruct s as [|x s]; [discriminate|].
    destruct (Ascii.eqb_spec x c) as [->|]; [|discriminate].
    intros H; destruct (IH _ H) as (s' & -> & Hk).
    exists s'; auto.
Qed.

Lemma plusDigits_stuck (s : gostring) caps k :
  noDigitHead s -> regexp.plusDigits s caps k = None.
Proof.
  destruct s as [|c s]; simpl; [reflexivity|]; intros ->; reflexivity.
Qed.

(** The greedy [\d+] takes the whole run when what follows the run does
    not start with a digit and the rest of the pattern accepts it. *)
Lemma plusDigits_fwd (ds s' : gostring) caps k r :
  ds <> [] -> allDigits ds = true -> noDigitHead s' ->
  k s' caps = Some r ->
  regexp.plusDigits (ds ++ s') caps k = Some r.
Proof.
  intros Hne Hd Hs Hk; induction ds as [|c ds IH]; [congruence|].
  unfold allDigits in Hd; simpl in Hd; apply andb_true_iff in Hd.
  destruct Hd as [Hc Hd]; simpl; rewrite Hc.
  destruct ds as [|c' ds].
  - simpl app; rewrite plusDigits_stuck by exact Hs; exact Hk.
  - rewrite IH; [reflexivity | discriminate | exact Hd].
Qed.

Lemma plusDigits_inv (s : gostring) caps k r :
  regexp.plusDigits s caps k = Some r ->
  exists ds s', s = ds ++ s' /\ ds <> [] /\ allDigits ds = true
                /\ k s' caps = Some r.
Proof.
  induction s as [|c s IH]; simpl; [discriminate|].
  destruct (strconv.isDigit c) eqn:Hc; [|discriminate].
  destruct (regexp.plusDigits s caps k) as [m|] eqn:Hp.
  - intros H; injection H; intros; subst m.
    destruct (IH eq_refl) as (ds & s' & -> & Hne & Hd & Hk).
    exists (c :: ds), s'; repeat split; auto; [discriminate|].
    unfold allDigits; simpl; rewrite Hc; exact Hd.
  - intros Hk; exists [c], s; repeat split; auto; [discriminate|].
    unfold allDigits; simpl; rewrite Hc; reflexivity.
Qed.

Lemma firstn_consumed {A : Type} (a b : list A) :
  firstn (length (a ++ b) - length b) (a ++ b) = a.
Proof.
  rewrite length_app.
  replace (length a + length b - length b)%nat with (length a) by lia.
  rewrite firstn_app, firstn_all, Nat.sub_diag; simpl.
  apply app_nil_r.
Qed.

(** [(\d+)] *)
Lemma run_intGroup_fwd (ds s' : gostring) caps k r :
  ds <> [] -> allDigits ds = true -> noDigitHead s' ->
  k s' (caps ++ [ds]) = Some r ->
  regexp.run n (regexp.Group regexp.Digits) (ds ++ s') caps k = Some r.
Proof.
  intros Hne Hd Hs Hk; simpl.
  apply plusDigits_fwd; auto.
  rewrite firstn_consumed; exact Hk.
Qed.

Lemma run_intGroup_inv (s : gostring) caps k r :
  regexp.run n (regexp.Group regexp.Digits) s caps k = Some r ->
  exists ds s', s = ds ++ s' /\ ds <> [] /\ allDigits ds = true
                /\ k s' (caps ++ [ds]) = Some r.
Proof.
  simpl; intros H.
  apply plusDigits_inv in H; destruct H as (ds & s' & -> & Hne & Hd & Hk).
  rewrite firstn_consumed in Hk.
  exists ds, s'; auto.
Qed.

(** [\d+(?:\.\d+)] *)
Lemma run_unsigned_fwd (ip fp s' : gostring) caps k r :
  wellFormed ip (Some fp) -> noDigitHead s' ->
  k s' caps = Some r ->
  regexp.run n reUnsigned (ip ++ "."%char :: fp ++ s') caps k = Some r.
Proof.
  intros (Hne & Hd & Hfne & Hfd) Hs Hk; simpl.
  apply plusDigits_fwd; auto; [reflexivity|].
  rewrite Ascii.eqb_refl.
  apply plusDigits_fwd; auto.
Qed.

Lemma run_unsigned_inv (s : gostring) caps k r :
  regexp.run n reUnsigned s caps k = Some r ->
  exists ip fp s', s = ip ++ "."%char :: fp ++ s'
                   /\ wellFormed ip (Some fp) /\ k s' caps = Some r.
Proof.
  simpl; intros H.
  apply plusDigits_inv in H; destruct H as (ip & s1 & -> & Hne & Hd & H).
  destruct s1 as [|x s1]; [discriminate|].
  destruct (Ascii.eqb_spec x ".") as [->|]; [|discriminate].
  apply plusDigits_inv in H; destruct H as (fp & s' & -> & Hfne & Hfd & H).
  exists ip, fp, s'; repeat split; auto.
Qed.

Lemma decimalText_app (neg : bool) (ip fp s' : gostring) :
  decimalText neg ip (Some fp) ++ s'
  = signOf neg ++ ip ++ "."%char :: fp ++ s'.
Proof.
  unfold decimalText; repeat rewrite <- app_assoc; reflexivity.
Qed.

Lemma firstn_consumed_eq {A : Type} (s a b : list A) :
  s = a ++ b -> firstn (length s - length b) s = a.
Proof. intros ->; apply firstn_consumed. Qed.

(** [(\-?\d+(?:\.\d+))]: the sign is tried first. *)
Lemma run_decimalGroup_eq (s : gostring) caps k :
  regexp.run n (regexp.Group ffa3.reDecimal) s caps k
  = match
      regexp.run n (regexp.Lit "-"%char) s caps
        (fun s1 caps1 =>
           regexp.run n reUnsigned s1 caps1
             (fun s2 caps2 =>
                k s2 (caps2 ++ [firstn (length s - length s2) s])))
    with
    | Some m => Some m
    | None =>
        regexp.run n reUnsigned s caps
          (fun s2 caps2 => k s2 (caps2 ++ [firstn (length s - length s2) s]))
    end.
Proof. reflexivity. Qed.

Lemma run_decimalGroup_fwd (neg : bool) (ip fp s' : gostring) caps k r :
  wellFormed ip (Some fp) -> noDigitHead s' ->
  k s' (caps ++ [decimalText neg ip (Some fp)]) = Some r ->
  regexp.run n (regexp.Group ffa3.reDecimal)
    (decimalText neg ip (Some fp) ++ s') caps k = Some r.
Proof.
  intros Hwf Hs Hk.
  rewrite run_decimalGroup_eq.
  remember (decimalText neg ip (Some fp) ++ s') as s eqn:Hs0.
  assert (Hrest :
            regexp.run n reUnsigned (ip ++ "."%char :: fp ++ s') caps
              (fun s2 caps2 =>
                 k s2 (caps2 ++ [firstn (length s - length s2) s]))
            = Some r).
  { apply run_unsigned_fwd; auto.
    rewrite (firstn_consumed_eq _ _ Hs0); exact Hk. }
  rewrite decimalText_app in Hs0.
  destruct neg; simpl signOf in Hs0; simpl app in Hs0.
  - assert (Hlit : forall K1,
               regexp.run n (regexp.Lit "-"%char) s caps K1
               = K1 (ip ++ "."%char :: fp ++ s') caps)
      by (intros K1; rewrite Hs0; cbn [regexp.run];
          rewrite Ascii.eqb_refl; reflexivity).
    rewrite Hlit, Hrest; reflexivity.
  - destruct Hwf as (Hne & Hd & Hf).
    destruct ip as [|c ip]; [congruence|].
    assert (Hc : strconv.isDigit c = true)
      by (unfold allDigits in Hd; simpl in Hd; apply andb_true_iff in Hd;
          tauto).
    simpl app in Hs0, Hrest.
    assert (Hlit : forall K1,
               regexp.run n (regexp.Lit "-"%char) s caps K1 = None)
      by (intros K1; rewrite Hs0; cbn [regexp.run];
          rewrite (digit_not c "-" Hc eq_refl); reflexivity).
    rewrite Hlit, Hs0 at 1; exact Hrest.
Qed.

Lemma run_decimalGroup_inv (s : gostring) caps k r :
  regexp.run n (regexp.Group ffa3.reDecimal) s caps k = Some r ->
  exists neg ip fp s',
    s = decimalText neg ip (Some fp) ++ s'
    /\ wellFormed ip (Some fp)
    /\ k s' (caps ++ [decimalText neg ip (Some fp)]) = Some r.
Proof.
  rewrite run_decimalGroup_eq.
  destruct (regexp.run n (regexp.Lit "-"%char) s caps _) as [m|] eqn:Hsign.
  - intros H; injection H; intros; subst m.
    cbn [regexp.run] in Hsign.
    destruct s as [|x s1]; [discriminate|].
    destruct (Ascii.eqb_spec x "-") as [->|]; [|discriminate].
    apply run_unsigned_inv in Hsign.
    destruct Hsign as (ip & fp & s' & -> & Hwf & Hk).
    exists true, ip, fp, s'; split; [|split; [exact Hwf|]].
    + rewrite decimalText_app; reflexivity.
    + rewrite <- Hk; do 3 f_equal; symmetry.
      apply firstn_consumed_eq.
      rewrite decimalText_app; reflexivity.
  - clear Hsign; intros H.
    apply run_unsigned_inv in H.
    destruct H as (ip & fp & s' & -> & Hwf & Hk).
    exists false, ip, fp, s'; split; [|split; [exact Hwf|]].
    + rewrite decimalText_app; reflexivity.
    + rewrite <- Hk; do 3 f_equal; symmetry.
      apply firstn_consumed_eq.
      rewrite decimalText_app; reflexivity.
Qed.

End Matching.

Lemma run_Bol_first (n : nat) (r : regexp.Regexp) (t : gostring) caps k :
  length t <> n -> regexp.run n (regexp.Cat regexp.Bol r) t caps k = None.
Proof.
  intros H; cbn [regexp.run].
  replace (length t =? n)%nat with false
    by (symmetry; apply Nat.eqb_neq; exact H).
  reflexivity.
Qed.

Lemma search_shorter (n : nat) (r : regexp.Regexp) (t : gostring) :
  (length t < n)%nat -> regexp.search n (regexp.Cat regexp.Bol r) t = None.
Proof.
  induction t as [|c t IH]; intros H.
  - unfold regexp.search; rewrite run_Bol_first by lia; reflexivity.
  - simpl in H; cbn [regexp.search].
    rewrite run_Bol_first by (simpl; lia).
    apply IH; lia.
Qed.

(** A pattern that starts with [^] is tried at the start of the text
    only. *)
Lemma FindStringSubmatch_anchored (r : regexp.Regexp) (s : gostring) :
  regexp.FindStringSubmatch (regexp.Cat regexp.Bol r) s
  = regexp.run (length s) r s []
      (fun s' caps => Some (firstn (length s - length s') s :: caps)).
Proof.
  unfold regexp.FindStringSubmatch.
  assert (Hrun : forall k,
             regexp.run (length s) (regexp.Cat regexp.Bol r) s [] k
             = regexp.run (length s) r s [] k)
    by (intros k; cbn [regexp.run]; rewrite Nat.eqb_refl; reflexivity).
  destruct s as [|c s].
  - unfold regexp.search; rewrite Hrun.
    destruct (regexp.run _ r [] [] _); reflexivity.
  - cbn [regexp.search]; rewrite Hrun.
    rewrite search_shorter by (simpl; lia).
    destruct (regexp.run _ r (c :: s) [] _); reflexivity.
Qed.

Lemma run_Eol_inv (n : nat) (s : gostring) caps k r :
  regexp.run n regexp.Eol s caps k = Some r -> s = [] /\ k [] caps = Some r.
Proof. destruct s; simpl; [auto | discriminate]. Qed.

(** The pattern of [QueryExtruderPosition] after its [^]. *)
Lemma rePosition_unfold :
  ffa3.rePosition
  = regexp.Cat regexp.Bol
      (regexp.Cat (regexp.lits (str "X:"))
      (regexp.Cat (regexp.Group ffa3.reDecimal)
      (regexp.Cat (regexp.lits (str " Y:"))
      (regexp.Cat (regexp.Group ffa3.reDecimal)
      (regexp.Cat (regexp.lits (str " Z:"))
      (regexp.Cat (regexp.Group ffa3.reDecimal)
      (regexp.Cat (regexp.lits (str " A:"))
      (regexp.Cat (regexp.Group regexp.Digits)
      (regexp.Cat (regexp.lits (str " B:"))
      (regexp.Cat (regexp.Group regexp.Digits)
      (regexp.Cat regexp.Eol regexp.Eps))))))))))).
Proof. reflexivity. Qed.

(** On the line of the expected shape the pattern matches, and the five
    groups are the five fields. *)
Lemma rePosition_matches
  (nx ny nz : bool) (ix fx iy fy iz fz a b : gostring) :
  wellFormed ix (Some fx) -> wellFormed iy (Some fy) ->
  wellFormed iz (Some fz) -> isInt a -> isInt b ->
  let x := decimalText nx ix (Some fx) in
  let y := decimalText ny iy (Some fy) in
  let z := decimalText nz iz (Some fz) in
  regexp.FindStringSubmatch ffa3.rePosition (positionText x y z a b)
  = Some [positionText x y z a b; x; y; z; a; b].
Proof.
  intros Hx Hy Hz [Hane Had] [Hbne Hbd] x y z.
  rewrite rePosition_unfold, FindStringSubmatch_anchored.
  remember (positionText x y z a b) as s eqn:Hs.
  remember (fun (s' : gostring) (caps : list gostring) =>
              Some (firstn (length s - length s') s :: caps)) as k0 eqn:Hk0.
  assert (Hfull : forall caps, k0 [] caps = Some (s :: caps))
    by (intros caps; rewrite Hk0; simpl; rewrite Nat.sub_0_r, firstn_all;
        reflexivity).
  clear Hk0; remember (length s) as n eqn:Hn; clear Hn.
  rewrite Hs at 1; unfold positionText.
  rewrite run_Cat, run_lits_fwd.
  rewrite run_Cat; apply run_decimalGroup_fwd; [exact Hx | reflexivity|].
  rewrite run_Cat, run_lits_fwd.
  rewrite run_Cat; apply run_decimalGroup_fwd; [exact Hy | reflexivity|].
  rewrite run_Cat, run_lits_fwd.
  rewrite run_Cat; apply run_decimalGroup_fwd; [exact Hz | reflexivity|].
  rewrite run_Cat, run_lits_fwd.
  rewrite run_Cat; apply run_intGroup_fwd; [exact Hane | exact Had | reflexivity|].
  rewrite run_Cat, run_lits_fwd.
  rewrite <- (app_nil_r b) at 1.
  rewrite run_Cat; apply run_intGroup_fwd; [exact Hbne | exact Hbd | exact I|].
  cbn [regexp.run app]; apply Hfull.
Qed.

(** What the pattern matches is a line of that shape. *)
Lemma rePosition_shape (s : gostring) (m : list gostring) :
  regexp.FindStringSubmatch ffa3.rePosition s = Some m ->
  exists nx ny nz ix fx iy fy iz fz a b,
    wellFormed ix (Some fx) /\ wellFormed iy (Some fy)
    /\ wellFormed iz (Some fz) /\ isInt a /\ isInt b
    /\ s = positionText (decimalText nx ix (Some fx))
             (decimalText ny iy (Some fy)) (decimalText nz iz (Some fz)) a b
    /\ m = [s; decimalText nx ix (Some fx); decimalText ny iy (Some fy);
            decimalText nz iz (Some fz); a; b].
Proof.
  rewrite rePosition_unfold, FindStringSubmatch_anchored.
  remember (fun (s' : gostring) (caps : list gostring) =>
              Some (firstn (length s - length s') s :: caps)) as k0 eqn:Hk0.
  assert (Hfull : forall caps, k0 [] caps = Some (s :: caps))
    by (intros caps; rewrite Hk0; simpl; rewrite Nat.sub_0_r, firstn_all;
        reflexivity).
  clear Hk0; remember (length s) as n eqn:Hn; clear Hn; intros H.
  rewrite run_Cat in H; apply run_lits_inv in H; destruct H as (s1 & Hs & H).
  rewrite run_Cat in H; apply run_decimalGroup_inv in H.
  destruct H as (nx & ix & fx & s2 & -> & Hx & H).
  rewrite run_Cat in H; apply run_lits_inv in H; destruct H as (s3 & -> & H).
  rewrite run_Cat in H; apply run_decimalGroup_inv in H.
  destruct H as (ny & iy & fy & s4 & -> & Hy & H).
  rewrite run_Cat in H; apply run_lits_inv in H; destruct H as (s5 & -> & H).
  rewrite run_Cat in H; apply run_decimalGroup_inv in H.
  destruct H as (nz & iz & fz & s6 & -> & Hz & H).
  rewrite run_Cat in H; apply run_lits_inv in H; destruct H as (s7 & -> & H).
  rewrite run_Cat in H; apply run_intGroup_inv in H.
  destruct H as (a & s8 & -> & Hane & Had & H).
  rewrite run_Cat in H; apply run_lits_inv in H; destruct H as (s9 & -> & H).
  rewrite run_Cat in H; apply run_intGroup_inv in H.
  destruct H as (b & s10 & -> & Hbne & Hbd & H).
  rewrite run_Cat in H; apply run_Eol_inv in H; destruct H as (-> & H).
  cbn [regexp.run app] in H; rewrite Hfull in H.
  injection H; intros <-.
  exists nx, ny, nz, ix, fx, iy, fy, iz, fz, a, b.
  split; [exact Hx|]; split; [exact Hy|]; split; [exact Hz|].
  split; [split; assumption|]; split; [split; assumption|].
  split; [|reflexivity].
  rewrite Hs; unfold positionText.
  rewrite app_nil_r; repeat rewrite <- app_assoc; reflexivity.
Qed.

(* ================================================================== *)
(** * QueryExtruderPosition *)

Lemma decimalText_nonempty (neg : bool) (ip : gostring) frac :
  wellFormed ip frac -> decimalText neg ip frac <> [].
Proof.
  intros (Hne & _); unfold decimalText.
  destruct neg, ip; simpl; congruence.
Qed.

(** What [QueryExtruderPosition] returns once the pattern has matched and
    the three conversions of distances have returned: the fields are
    written one after the other, up to the first conversion that fails. *)
Lemma QueryExtruderPosition_eval
  (d d1 : Dev) (resp x y z a b : gostring) (p : ffa3.Position)
  (vx vy vz : physic.Distance) (ex ey ez : option error) :
  ffa3.sendCommand d (str "M114") = Returns ((resp, None), d1) ->
  regexp.FindStringSubmatch ffa3.rePosition resp = Some [resp; x; y; z; a; b] ->
  ffa3.parseDistance x = Returns (vx, ex) ->
  ffa3.parseDistance y = Returns (vy, ey) ->
  ffa3.parseDistance z = Returns (vz, ez) ->
  ffa3.QueryExtruderPosition d p =
  Returns
    (match ex with
     | Some e => (Some e, p)
     | None =>
     match ey with
     | Some e =>
         (Some e, ffa3.mkPosition vx (ffa3.pY p) (ffa3.pZ p) (ffa3.pA p) (ffa3.pB p))
     | None =>
     match ez with
     | Some e => (Some e, ffa3.mkPosition vx vy (ffa3.pZ p) (ffa3.pA p) (ffa3.pB p))
     | None =>
     match strconv.Atoi a with
     | (_, Some e) => (Some e, ffa3.mkPosition vx vy vz (ffa3.pA p) (ffa3.pB p))
     | (wa, None) =>
     match strconv.Atoi b with
     | (_, Some e) => (Some e, ffa3.mkPosition vx vy vz wa (ffa3.pB p))
     | (wb, None) => (None, ffa3.mkPosition vx vy vz wa wb)
     end end end end end, d1).
Proof.
  intros Hsend Hm Hx Hy Hz.
  unfold ffa3.QueryExtruderPosition.
  rewrite Hsend; unfold bind at 1; rewrite Hm.
  change (index [resp; x; y; z; a; b] 1) with (Returns x).
  unfold bind at 1; rewrite Hx; unfold bind at 1.
  destruct ex as [e|]; [reflexivity|].
  change (index [resp; x; y; z; a; b] 2) with (Returns y).
  unfold bind at 1; rewrite Hy; unfold bind at 1.
  destruct ey as [e|]; [reflexivity|].
  change (index [resp; x; y; z; a; b] 3) with (Returns z).
  unfold bind at 1; rewrite Hz; unfold bind at 1.
  destruct ez as [e|]; [reflexivity|].
  change (index [resp; x; y; z; a; b] 4) with (Returns a).
  unfold bind at 1.
  destruct (strconv.Atoi a) as [wa [e|]]; [reflexivity|].
  change (index [resp; x; y; z; a; b] 5) with (Returns b).
  unfold bind at 1.
  destruct (strconv.Atoi b) as [wb [e|]]; reflexivity.
Qed.

(** C6, as amended.  Let the exchange of [M114] return the payload
    [resp] without error.  (1) If [resp] is the single line
    [X:<d> Y:<d> Z:<d> A:<int> B:<int>] where each [<d>] is an optional
    [-], digits, [.] and digits, and every digit run denotes a number
    below [2^63], then [QueryExtruderPosition] succeeds; X, Y and Z are
    the distances of the codec and A and B the integers.  (2) If it
    succeeds, [resp] is a line of that shape with signed decimals of the
    codec's grammar, and the fields of the record are what
    [parseDistance] and [strconv.Atoi] return on the fields of the line.
    (3) In every case it returns: a payload that is not of the shape is
    answered with an error. *)
Theorem QueryExtruderPosition_grammar
  (d d1 : Dev) (resp : gostring) (p : ffa3.Position) :
  ffa3.sendCommand d (str "M114") = Returns ((resp, None), d1) ->
  (forall nx ix fx ny iy fy nz iz fz a b,
      resp = positionText (decimalText nx ix (Some fx))
               (decimalText ny iy (Some fy)) (decimalText nz iz (Some fz)) a b ->
      wellFormed ix (Some fx) -> fitsInt ix (Some fx) ->
      wellFormed iy (Some fy) -> fitsInt iy (Some fy) ->
      wellFormed iz (Some fz) -> fitsInt iz (Some fz) ->
      isInt a -> strconv.digitsValue a < 2 ^ 63 ->
      isInt b -> strconv.digitsValue b < 2 ^ 63 ->
      ffa3.QueryExtruderPosition d p
      = Returns ((None,
                  ffa3.mkPosition
                    (wrap64 (specDistance nx ix (Some fx)))
                    (wrap64 (specDistance ny iy (Some fy)))
                    (wrap64 (specDistance nz iz (Some fz)))
                    (strconv.digitsValue a) (strconv.digitsValue b)), d1))
  /\ (forall p',
         ffa3.QueryExtruderPosition d p = Returns ((None, p'), d1) ->
         exists x y z a b,
           resp = positionText x y z a b
           /\ isDecimal x /\ isDecimal y /\ isDecimal z /\ isInt a /\ isInt b
           /\ ffa3.parseDistance x = Returns (ffa3.pX p', None)
           /\ ffa3.parseDistance y = Returns (ffa3.pY p', None)
           /\ ffa3.parseDistance z = Returns (ffa3.pZ p', None)
           /\ strconv.Atoi a = (ffa3.pA p', None)
           /\ strconv.Atoi b = (ffa3.pB p', None))
  /\ exists err p', ffa3.QueryExtruderPosition d p = Returns ((err, p'), d1).
Proof.
  intros Hsend; split; [|split].
  - intros nx ix fx ny iy fy nz iz fz a b -> Hx Hfx Hy Hfy Hz Hfz Ha Hva Hb Hvb.
    rewrite (@QueryExtruderPosition_eval d d1 _ _ _ _ a b p _ _ _ None None None
               Hsend (rePosition_matches nx ny nz Hx Hy Hz Ha Hb)
               (parseDistance_wellFormed nx Hx Hfx)
               (parseDistance_wellFormed ny Hy Hfy)
               (parseDistance_wellFormed nz Hz Hfz)).
    destruct Ha as [Hane Had]; destruct Hb as [Hbne Hbd].
    rewrite (Atoi_digits Hane Had Hva), (Atoi_digits Hbne Hbd Hvb).
    reflexivity.
  - intros p' H.
    destruct (regexp.FindStringSubmatch ffa3.rePosition resp) as [m|] eqn:Hm.
    + destruct (rePosition_shape _ Hm)
        as (nx & ny & nz & ix & fx & iy & fy & iz & fz & a & b
            & Hx & Hy & Hz & Ha & Hb & Hresp & ->).
      destruct (parseDistance_returns (decimalText_nonempty nx Hx))
        as (vx & ex & Hpx).
      destruct (parseDistance_returns (decimalText_nonempty ny Hy))
        as (vy & ey & Hpy).
      destruct (parseDistance_returns (decimalText_nonempty nz Hz))
        as (vz & ez & Hpz).
      rewrite (@QueryExtruderPosition_eval d d1 _ _ _ _ a b p _ _ _ _ _ _
                 Hsend Hm Hpx Hpy Hpz) in H.
      exists (decimalText nx ix (Some fx)), (decimalText ny iy (Some fy)),
        (decimalText nz iz (Some fz)), a, b.
      destruct ex as [e|]; [discriminate|].
      destruct ey as [e|]; [discriminate|].
      destruct ez as [e|]; [discriminate|].
      destruct (strconv.Atoi a) as [wa [e|]]; [discriminate|].
      destruct (strconv.Atoi b) as [wb [e|]]; [discriminate|].
      injection H; intros <-; simpl.
      split; [exact Hresp|].
      split; [exists nx, ix, (Some fx); auto|].
      split; [exists ny, iy, (Some fy); auto|].
      split; [exists nz, iz, (Some fz); auto|].
      auto 10.
    + unfold ffa3.QueryExtruderPosition in H.
      rewrite Hsend in H; unfold bind in H; rewrite Hm in H; discriminate.
  - destruct (regexp.FindStringSubmatch ffa3.rePosition resp) as [m|] eqn:Hm.
    + destruct (rePosition_shape _ Hm)
        as (nx & ny & nz & ix & fx & iy & fy & iz & fz & a & b
            & Hx & Hy & Hz & Ha & Hb & Hresp & ->).
      destruct (parseDistance_returns (decimalText_nonempty nx Hx))
        as (vx & ex & Hpx).
      destruct (parseDistance_returns (decimalText_nonempty ny Hy))
        as (vy & ey & Hpy).
      destruct (parseDistance_returns (decimalText_nonempty nz Hz))
        as (vz & ez & Hpz).
      rewrite (@QueryExtruderPosition_eval d d1 _ _ _ _ a b p _ _ _ _ _ _
                 Hsend Hm Hpx Hpy Hpz).
      destruct ex as [e|]; [eauto|].
      destruct ey as [e|]; [eauto|].
      destruct ez as [e|]; [eauto|].
      destruct (strconv.Atoi a) as [wa [e|]]; [eauto|].
      destruct (strconv.Atoi b) as [wb [e|]]; eauto.
    + unfold ffa3.QueryExtruderPosition.
      rewrite Hsend; unfold bind; rewrite Hm; eauto.
Qed.

Lemma QueryExtruderPosition_grammar_witness :
  let reply := framePrefix (str "M114") ++ str "X:1.5 Y:-2.25 Z:0.0 A:0 B:7"
                 ++ frameSuffix in
  ffa3.QueryExtruderPosition (streamOf [reply]) (ffa3.mkPosition 0 0 0 0 0)
  = Returns ((None, ffa3.mkPosition 1500000 (-2250000) 0 0 7),
             mkConn [] [] [str "~M114" ++ [LF]] None false).
Proof.
  intros reply.
  refine (proj1 (@QueryExtruderPosition_grammar (streamOf [reply])
                   (mkConn [] [] [str "~M114" ++ [LF]] None false)
                   (str "X:1.5 Y:-2.25 Z:0.0 A:0 B:7")
                   (ffa3.mkPosition 0 0 0 0 0) _)
            false (str "1") (str "5") true (str "2") (str "25")
            false (str "0") (str "0") (str "0") (str "7")
            eq_refl _ _ _ _ _ _ _ _ _ _);
    try (vm_compute; reflexivity);
    try (repeat split; discriminate);
    try (split; reflexivity).
Defined.

(** C6, as stated, fails: a line of the exact shape whose first field has
    twenty integer digits is answered with a range error. *)
Lemma QueryExtruderPosition_rejects_long_field :
  let nines := str "99999999999999999999" in
  let line := str "X:99999999999999999999.0 Y:0.0 Z:0.0 A:0 B:0" in
  let reply := framePrefix (str "M114") ++ line ++ frameSuffix in
  line = positionText (decimalText false nines (Some (str "0")))
           (decimalText false (str "0") (Some (str "0")))
           (decimalText false (str "0") (Some (str "0"))) (str "0") (str "0")
  /\ wellFormed nines (Some (str "0"))
  /\ wellFormed (str "0") (Some (str "0"))
  /\ isInt (str "0")
  /\ ffa3.QueryExtruderPosition (streamOf [reply]) (ffa3.mkPosition 0 0 0 0 0)
     = Returns ((Some (ErrRange (str "Atoi") nines), ffa3.mkPosition 0 0 0 0 0),
                mkConn [] [] [str "~M114" ++ [LF]] None false).
Proof.
  repeat split; try discriminate; vm_compute; reflexivity.
Qed.

(** The pattern asks for the fraction: a line whose decimals have none is
    answered with the unknown-reply error, although [parseDistance] reads
    such a decimal. *)
Lemma QueryExtruderPosition_integer_only :
  let line := str "X:1 Y:2 Z:3 A:0 B:0" in
  let reply := framePrefix (str "M114") ++ line ++ frameSuffix in
  ffa3.QueryExtruderPosition (streamOf [reply]) (ffa3.mkPosition 0 0 0 0 0)
  = Returns ((Some (ErrUnknownReply line), ffa3.mkPosition 0 0 0 0 0),
             mkConn [] [] [str "~M114" ++ [LF]] None false)
  /\ ffa3.parseDistance (str "1") = Returns (physic.MilliMetre, None).
Proof. vm_compute; split; reflexivity. Qed.

(** C10.  On every non-empty text [parseDistance] returns a value or an
    error: every index and slice is in bounds.  This covers each of the
    three decimal fields that the pattern of [QueryExtruderPosition]
    hands over, none of which is empty.  On the empty text the read of
    [s[0]] panics. *)
Theorem parseDistance_in_bounds :
  (forall s, s <> [] -> exists v err, ffa3.parseDistance s = Returns (v, err))
  /\ (forall resp m k field,
         regexp.FindStringSubmatch ffa3.rePosition resp = Some m ->
         1 <= k <= 3 ->
         index m k = Returns field ->
         field <> []
         /\ exists v err, ffa3.parseDistance field = Returns (v, err))
  /\ ffa3.parseDistance [] = Panics.
Proof.
  split; [exact parseDistance_returns|]; split; [|reflexivity].
  intros resp m k field Hm Hk Hidx.
  destruct (rePosition_shape _ Hm)
    as (nx & ny & nz & ix & fx & iy & fy & iz & fz & a & b
        & Hx & Hy & Hz & _ & _ & _ & ->).
  assert (Hcases : k = 1 \/ k = 2 \/ k = 3) by lia.
  assert (Hfield : field <> []).
  { destruct Hcases as [-> | [-> | ->]]; injection Hidx; intros <-;
      apply decimalText_nonempty; assumption. }
  split; [exact Hfield | exact (parseDistance_returns Hfield)].
Qed.

Lemma parseDistance_in_bounds_witness :
  exists v err, ffa3.parseDistance (str "7.") = Returns (v, err).
Proof.
  apply (proj1 parseDistance_in_bounds (str "7.")); discriminate.
Defined.

(* ================================================================== *)
(** * More on the command transport *)

Unset Implicit Arguments.

(** The two ways in which [sendCommand] comes back once the read loop
    has handed over [raw] without an error. *)
Lemma sendCommand_accepted (d d0 d1 : Dev) (cmd raw : gostring) :
  Write d (str "~" ++ cmd ++ [LF]) = (None, d0) ->
  readAll d0 = Returns ((raw, None), d1) ->
  strings.HasPrefix raw (framePrefix (leadingWord cmd)) = true ->
  strings.HasSuffix raw frameSuffix = true ->
  (raw = framePrefix (leadingWord cmd) ++ str "ok" ++ CRLF
   /\ ffa3.sendCommand d cmd = Returns (([], None), d1)
   /\ ffa3_v1.sendCommand d cmd = Returns (([], None), d1))
  \/ (exists interior,
         raw = framePrefix (leadingWord cmd) ++ interior ++ frameSuffix
         /\ ffa3.sendCommand d cmd = Returns ((interior, None), d1)
         /\ ffa3_v1.sendCommand d cmd
            = Returns ((interior ++ CRLF, None), d1)).
Proof.
  intros Hw Hr Hp Hs.
  rewrite (@sendCommand_verify d d0 d1 cmd raw Hw Hr).
  rewrite (@sendCommand_v1_verify d d0 d1 cmd raw Hw Hr).
  rewrite Hp, Hs; cbv beta iota delta [andb].
  destruct (accepted_shape _ _ Hp Hs) as [-> | [interior ->]].
  - left; rewrite slice_empty_frame; auto.
  - right; exists interior; rewrite slice_interior; unfold bind at 1 3.
    rewrite strip_line_end; auto.
Qed.

Lemma sendCommand_rejected (d d0 d1 : Dev) (cmd raw : gostring) :
  Write d (str "~" ++ cmd ++ [LF]) = (None, d0) ->
  readAll d0 = Returns ((raw, None), d1) ->
  strings.HasPrefix raw (framePrefix (leadingWord cmd))
  && strings.HasSuffix raw frameSuffix = false ->
  ffa3.sendCommand d cmd
  = Returns ((raw, Some (ErrUnknownCmdReply (leadingWord cmd) raw)), d1)
  /\ ffa3_v1.sendCommand d cmd
     = Returns ((raw, Some (ErrUnknownCmdReply (leadingWord cmd) raw)), d1).
Proof.
  intros Hw Hr Hb.
  rewrite (@sendCommand_verify d d0 d1 cmd raw Hw Hr).
  rewrite (@sendCommand_v1_verify d d0 d1 cmd raw Hw Hr).
  rewrite Hb; auto.
Qed.

(** X1.  In neither generation does [sendCommand] panic: whenever both
    the prefix and the suffix are found, the response is long enough for
    the slice between them, also when the line end of the prefix serves
    as the start of the suffix. *)
Theorem sendCommand_never_panics (d : Dev) (cmd : gostring) :
  ffa3.sendCommand d cmd <> Panics /\ ffa3_v1.sendCommand d cmd <> Panics.
Proof.
  destruct (Write d (str "~" ++ cmd ++ [LF])) as [[e|] d0] eqn:Hw.
  - unfold ffa3.sendCommand, ffa3_v1.sendCommand; rewrite Hw.
    split; discriminate.
  - destruct (readAll d0) as [[[raw [e|]] d1]| |] eqn:Hr.
    + unfold ffa3.sendCommand, ffa3_v1.sendCommand; rewrite Hw, Hr.
      split; discriminate.
    + destruct (strings.HasPrefix raw (framePrefix (leadingWord cmd))) eqn:Hp;
        [destruct (strings.HasSuffix raw frameSuffix) eqn:Hs|].
      * destruct (sendCommand_accepted d d0 _ cmd raw Hw Hr Hp Hs)
          as [(_ & -> & ->) | (interior & _ & -> & ->)];
          split; discriminate.
      * destruct (sendCommand_rejected d d0 d1 cmd raw Hw Hr) as [-> ->];
          [rewrite Hp, Hs; reflexivity | split; discriminate].
      * destruct (sendCommand_rejected d d0 d1 cmd raw Hw Hr) as [-> ->];
          [rewrite Hp; reflexivity | split; discriminate].
    + exfalso; exact (readAll_not_panics _ Hr).
    + unfold ffa3.sendCommand, ffa3_v1.sendCommand; rewrite Hw, Hr.
      split; discriminate.
Qed.

Lemma sendCommand_success_shape
  (d d1 : Dev) (cmd line : gostring) :
  ffa3.sendCommand d cmd = Returns ((line, None), d1) ->
  exists d0 raw,
    Write d (str "~" ++ cmd ++ [LF]) = (None, d0)
    /\ readAll d0 = Returns ((raw, None), d1)
    /\ ((raw = framePrefix (leadingWord cmd) ++ str "ok" ++ CRLF /\ line = [])
        \/ raw = framePrefix (leadingWord cmd) ++ line ++ frameSuffix).
Proof.
  intros H.
  destruct (Write d (str "~" ++ cmd ++ [LF])) as [[e|] d0] eqn:Hw.
  - unfold ffa3.sendCommand in H; rewrite Hw in H; discriminate.
  - destruct (readAll d0) as [[[raw [e|]] d2]| |] eqn:Hr;
      try (unfold ffa3.sendCommand in H; rewrite Hw, Hr in H; discriminate).
    destruct (strings.HasPrefix raw (framePrefix (leadingWord cmd))) eqn:Hp;
      [destruct (strings.HasSuffix raw frameSuffix) eqn:Hs|].
    + destruct (sendCommand_accepted d d0 _ cmd raw Hw Hr Hp Hs)
        as [(Hraw & H2 & _) | (interior & Hraw & H2 & _)];
        rewrite H2 in H; injection H; intros Hd Hl; subst d2 line;
        exists d0, raw; auto.
    + destruct (sendCommand_rejected d d0 d2 cmd raw Hw Hr) as [H2 _];
        [rewrite Hp, Hs; reflexivity | rewrite H2 in H; discriminate].
    + destruct (sendCommand_rejected d d0 d2 cmd raw Hw Hr) as [H2 _];
        [rewrite Hp; reflexivity | rewrite H2 in H; discriminate].
Qed.

(** X2.  [sendCommand] returns without error only when the write went
    through and the read loop handed over, without error, a response
    framed for the command: the prefix followed by [ok\r\n] alone, the
    payload then being empty, or the prefix, the payload and the suffix. *)
Theorem sendCommand_success_is_framed
  (d d1 : Dev) (cmd line : gostring) :
  ffa3.sendCommand d cmd = Returns ((line, None), d1) ->
  exists d0 raw,
    Write d (str "~" ++ cmd ++ [LF]) = (None, d0)
    /\ readAll d0 = Returns ((raw, None), d1)
    /\ ((raw = framePrefix (leadingWord cmd) ++ str "ok" ++ CRLF /\ line = [])
        \/ raw = framePrefix (leadingWord cmd) ++ line ++ frameSuffix).
Proof. exact (sendCommand_success_shape d d1 cmd line). Qed.

Lemma sendCommand_success_is_framed_witness :
  exists d0 raw,
    Write (streamOf [framePrefix (str "M27") ++ str "ok" ++ CRLF])
      (str "~" ++ str "M27" ++ [LF]) = (None, d0)
    /\ readAll d0
       = Returns ((raw, None), mkConn [] [] [str "~M27" ++ [LF]] None false)
    /\ ((raw = framePrefix (leadingWord (str "M27")) ++ str "ok" ++ CRLF
         /\ @nil ascii = [])
        \/ raw = framePrefix (leadingWord (str "M27")) ++ [] ++ frameSuffix).
Proof.
  apply (sendCommand_success_is_framed
           (streamOf [framePrefix (str "M27") ++ str "ok" ++ CRLF])
           (mkConn [] [] [str "~M27" ++ [LF]] None false) (str "M27") []).
  vm_compute; reflexivity.
Defined.

Lemma leadingWord_no_space (cmd : gostring) :
  ~ In " "%char (leadingWord cmd).
Proof.
  unfold leadingWord.
  destruct (strings.IndexRune cmd " ") as [i|] eqn:Hi.
  - apply IndexRune_Some in Hi; destruct Hi as (a & b & -> & <- & Hn).
    rewrite firstn_app, firstn_all, Nat.sub_diag; simpl.
    rewrite app_nil_r; exact Hn.
  - apply IndexRune_None; exact Hi.
Qed.

(** Two words without blank that are each followed by a blank at the head
    of the same text are the same word. *)
Lemma word_before_blank (w w' r r' : gostring) :
  ~ In " "%char w -> ~ In " "%char w' ->
  w ++ " "%char :: r = w' ++ " "%char :: r' -> w = w'.
Proof.
  revert w'; induction w as [|c w IH]; intros [|c' w'] Hw Hw' H; simpl in *.
  - reflexivity.
  - injection H; intros _ Hc; exfalso; apply Hw'; left; auto.
  - injection H; intros _ Hc; exfalso; apply Hw; left; auto.
  - injection H; intros Ht ->; f_equal.
    apply IH with (w' := w'); auto.
Qed.

(** X3.  A response framed for another command is refused: when the read
    loop hands over a response that starts with the prefix of a token
    other than the leading word of the command sent, [sendCommand]
    returns the unknown-reply error that carries the whole response. *)
Theorem sendCommand_rejects_other_command
  (d d0 d1 : Dev) (cmd token rest : gostring) :
  Write d (str "~" ++ cmd ++ [LF]) = (None, d0) ->
  readAll d0 = Returns ((framePrefix token ++ rest, None), d1) ->
  ~ In " "%char token ->
  token <> leadingWord cmd ->
  ffa3.sendCommand d cmd
  = Returns ((framePrefix token ++ rest,
              Some (ErrUnknownCmdReply (leadingWord cmd)
                      (framePrefix token ++ rest))), d1).
Proof.
  intros Hw Hr Htok Hne.
  apply (sendCommand_rejected d d0 d1 cmd _ Hw Hr).
  apply andb_false_iff; left.
  destruct (strings.HasPrefix (framePrefix token ++ rest)
              (framePrefix (leadingWord cmd))) eqn:Hp; [|reflexivity].
  exfalso; apply Hne.
  apply HasPrefix_spec in Hp; destruct Hp as [t Ht].
  unfold framePrefix in Ht.
  repeat rewrite <- app_assoc in Ht.
  apply app_inv_head in Ht.
  apply (word_before_blank token (leadingWord cmd) _ _ Htok
           (leadingWord_no_space cmd) Ht).
Qed.

Lemma sendCommand_rejects_other_command_witness :
  ffa3.sendCommand
    (streamOf [framePrefix (str "M119") ++ str "MoveMode: READY" ++ frameSuffix])
    (str "M27")
  = Returns ((framePrefix (str "M119") ++ str "MoveMode: READY" ++ frameSuffix,
              Some (ErrUnknownCmdReply (str "M27")
                      (framePrefix (str "M119") ++ str "MoveMode: READY"
                         ++ frameSuffix))),
             mkConn [] [] [str "~M27" ++ [LF]] None false).
Proof.
  apply (sendCommand_rejects_other_command
           (streamOf [framePrefix (str "M119") ++ str "MoveMode: READY"
                        ++ frameSuffix])
           (mkConn [(framePrefix (str "M119") ++ str "MoveMode: READY"
                       ++ frameSuffix, None)] [] [str "~M27" ++ [LF]] None false)
           (mkConn [] [] [str "~M27" ++ [LF]] None false)
           (str "M27") (str "M119") (str "MoveMode: READY" ++ frameSuffix)).
  - reflexivity.
  - vm_compute; reflexivity.
  - simpl; intros [H|[H|[H|[H|[]]]]]; discriminate.
  - discriminate.
Defined.

(** X4.  When every read that the stream has to offer fills the whole
    4096-byte buffer, as the single read of a response of exactly 4096
    bytes does, [sendCommand] reads on and blocks: the loop ends only on a
    shorter read or on an error. *)
Theorem sendCommand_blocks_on_full_reads
  (d d0 : Dev) (cmd : gostring) (fulls : list gostring) :
  Write d (str "~" ++ cmd ++ [LF]) = (None, d0) ->
  incoming d = map (fun b => (b, None)) fulls ->
  Forall (fun b => length b = 4096%nat) fulls ->
  ffa3.sendCommand d cmd = Blocks.
Proof.
  intros Hw Hin Hfull.
  destruct (Write_incoming _ _ Hw) as (Hi & _).
  unfold ffa3.sendCommand; rewrite Hw.
  unfold readAll; rewrite Hi, Hin.
  change 4096%nat with bufLen in Hfull.
  rewrite <- (app_nil_r (map _ fulls)).
  rewrite readLoop_full_reads by exact Hfull.
  reflexivity.
Qed.

Lemma sendCommand_blocks_on_full_reads_witness :
  ffa3.sendCommand (streamOf [repeat "a"%char 4096]) (str "M27") = Blocks.
Proof.
  apply (sendCommand_blocks_on_full_reads
           (streamOf [repeat "a"%char 4096])
           (mkConn [(repeat "a"%char 4096, None)] [] [str "~M27" ++ [LF]]
              None false)
           (str "M27") [repeat "a"%char 4096]).
  - reflexivity.
  - reflexivity.
  - constructor; [apply repeat_length | constructor].
Defined.

Lemma sendCommand_interior (d d0 d1 : Dev) (cmd interior : gostring) :
  Write d (str "~" ++ cmd ++ [LF]) = (None, d0) ->
  readAll d0 =
    Returns ((framePrefix (leadingWord cmd) ++ interior ++ frameSuffix, None),
             d1) ->
  ffa3.sendCommand d cmd = Returns ((interior, None), d1).
Proof.
  intros Hw Hr.
  rewrite (@sendCommand_verify d d0 d1 cmd _ Hw Hr).
  replace (strings.HasPrefix _ (framePrefix (leadingWord cmd))) with true
    by (symmetry; apply HasPrefix_app).
  replace (strings.HasSuffix _ frameSuffix) with true
    by (symmetry; rewrite app_assoc; apply HasSuffix_app).
  cbv beta iota delta [andb].
  rewrite slice_interior; unfold bind at 1.
  rewrite strip_line_end; reflexivity.
Qed.

Lemma empty_frame_suffix (token : gostring) :
  framePrefix token ++ str "ok" ++ CRLF
  = (str "CMD " ++ token ++ str " Received.") ++ frameSuffix.
Proof.
  unfold framePrefix, frameSuffix; repeat rewrite <- app_assoc; reflexivity.
Qed.

(** The exchanges that are answered without payload. *)
Lemma sendCommand_answeredEmpty (d d1 : Dev) (cmd : gostring) :
  ffa3.sendCommand d cmd = Returns (([], None), d1) <-> answeredEmpty d cmd d1.
Proof.
  split.
  - intros H; apply sendCommand_success_shape in H.
    destruct H as (d0 & raw & Hw & Hr & [[Hraw _]|Hraw]);
      exists d0, raw; auto.
  - intros (d0 & raw & Hw & Hr & Hraw).
    destruct Hraw as [-> | ->];
      [rewrite (@sendCommand_verify d d0 d1 cmd _ Hw Hr)|].
    + rewrite HasPrefix_app.
      replace (strings.HasSuffix _ frameSuffix) with true
        by (symmetry; rewrite empty_frame_suffix; apply HasSuffix_app).
      cbv beta iota delta [andb].
      rewrite slice_empty_frame; reflexivity.
    + exact (sendCommand_interior d d0 d1 cmd [] Hw Hr).
Qed.

(** The body that [SetLight], [SetFan] and [StopJob] share: the reply is
    looked at before the error. *)
Lemma expects_empty (d d1 : Dev) (cmd : gostring) :
  ('((resp, err), d) <- ffa3.sendCommand d cmd ;;
   if negb (eqs resp [])
   then Returns (Some (ErrUnknownReply resp), d)
   else Returns (err, d)) = Returns (None, d1)
  <-> answeredEmpty d cmd d1.
Proof.
  rewrite <- sendCommand_answeredEmpty.
  destruct (ffa3.sendCommand d cmd) as [[[resp err] d2]| |]; simpl;
    try (split; discriminate).
  destruct resp as [|c resp]; simpl.
  - split; intros H; injection H; intros; subst; reflexivity.
  - split; discriminate.
Qed.

(** X5.  [SetLight], [SetFan] and [StopJob] return no error exactly when
    their command ([M146 ...], [M106 P0 S255] or [M107 P0], [M26]) was
    written and answered, without a read error, by a frame for its leading
    word that carries no payload. *)
Theorem switches_expect_empty_reply (d d1 : Dev) :
  (forall on,
      ffa3.SetLight d on = Returns (None, d1)
      <-> answeredEmpty d (if on then str "M146 r255 g255 b255 F0"
                           else str "M146 r0 g0 b0 F0") d1)
  /\ (forall on,
         ffa3.SetFan d on = Returns (None, d1)
         <-> answeredEmpty d (if on then str "M106 P0 S255"
                              else str "M107 P0") d1)
  /\ (ffa3.StopJob d = Returns (None, d1)
      <-> answeredEmpty d (str "M26") d1).
Proof.
  split; [|split].
  - intros on; unfold ffa3.SetLight; apply expects_empty.
  - intros on; unfold ffa3.SetFan; apply expects_empty.
  - unfold ffa3.StopJob; apply expects_empty.
Qed.

(** A reply with a payload makes them fail with that payload, and a
    transport error that came with bytes is replaced by the unknown-reply
    error on those bytes. *)
Lemma expects_empty_payload (d d1 : Dev) (on : bool) c resp err :
  ffa3.sendCommand d (if on then str "M146 r255 g255 b255 F0"
                      else str "M146 r0 g0 b0 F0")
  = Returns ((c :: resp, err), d1) ->
  ffa3.SetLight d on = Returns (Some (ErrUnknownReply (c :: resp)), d1).
Proof. intros H; unfold ffa3.SetLight; rewrite H; reflexivity. Qed.

(** X6.  When [Close] returns, the bye command [M602] has been written
    and the stream is closed, whatever the bye exchange gave.  The error
    of the bye exchange has priority: the error of closing the stream is
    returned only after the reply [Control Release.]. *)
Theorem Close_closes_stream (d d' : Dev) (err : option error) :
  ffa3.Close d = Returns (err, d') ->
  closed d' = true
  /\ sent d' = sent d ++ [str "~M602" ++ [LF]]
  /\ exists resp berr d1,
       ffa3.sendCommand d (str "M602") = Returns ((resp, berr), d1)
       /\ err = match berr with
                | Some e => Some e
                | None =>
                    if eqs resp (str "Control Release.") then closeErr d
                    else Some (ErrReleaseControl resp)
                end.
Proof.
  unfold ffa3.Close, ffa3.sendBye.
  destruct (ffa3.sendCommand d (str "M602")) as [[[resp berr] d1]| |] eqn:Hbye;
    try discriminate.
  destruct (sendCommand_state _ _ Hbye) as (Hsent & _ & Hce).
  unfold bind at 2.
  assert (Hend : forall e,
             Returns (e, snd (CloseConn d1)) = Returns (err, d') ->
             closed d' = true /\ sent d' = sent d ++ [str "~M602" ++ [LF]]
             /\ e = err).
  { intros e H; injection H; intros <- <-; simpl; auto. }
  destruct berr as [e|].
  - unfold bind; cbn [CloseConn]; intros H.
    destruct (Hend _ H) as (Hc & Hs & <-).
    split; [exact Hc|]; split; [exact Hs|].
    exists resp, (Some e), d1; auto.
  - destruct (eqs resp (str "Control Release.")) eqn:Heq;
      cbv beta iota delta [negb]; unfold bind; cbn [CloseConn]; intros H;
      destruct (Hend _ H) as (Hc & Hs & <-);
      (split; [exact Hc|]; split; [exact Hs|]);
      exists resp, None, d1; rewrite Heq, ?Hce; auto.
Qed.

Lemma Close_closes_stream_witness :
  let bye := framePrefix (str "M602") ++ str "Control Release." ++ frameSuffix in
  closed (mkConn [] [] [str "~M602" ++ [LF]] (Some ErrEOF) true) = true
  /\ sent (mkConn [] [] [str "~M602" ++ [LF]] (Some ErrEOF) true)
     = sent (mkConn [(bye, None)] [] [] (Some ErrEOF) false)
         ++ [str "~M602" ++ [LF]]
  /\ exists resp berr d1,
       ffa3.sendCommand (mkConn [(bye, None)] [] [] (Some ErrEOF) false)
         (str "M602") = Returns ((resp, berr), d1)
       /\ Some ErrEOF
          = match berr with
            | Some e => Some e
            | None =>
                if eqs resp (str "Control Release.")
                then closeErr (mkConn [(bye, None)] [] [] (Some ErrEOF) false)
                else Some (ErrReleaseControl resp)
            end.
Proof.
  intros bye.
  apply (Close_closes_stream (mkConn [(bye, None)] [] [] (Some ErrEOF) false)
           (mkConn [] [] [str "~M602" ++ [LF]] (Some ErrEOF) true)
           (Some ErrEOF)).
  vm_compute; reflexivity.
Defined.

Lemma switches_expect_empty_reply_witness :
  ffa3.StopJob (streamOf [framePrefix (str "M26") ++ str "ok" ++ CRLF])
  = Returns (None, mkConn [] [] [str "~M26" ++ [LF]] None false).
Proof.
  apply (proj2 (proj2 (switches_expect_empty_reply
                         (streamOf [framePrefix (str "M26") ++ str "ok" ++ CRLF])
                         (mkConn [] [] [str "~M26" ++ [LF]] None false)))).
  exists (mkConn [(framePrefix (str "M26") ++ str "ok" ++ CRLF, None)] []
            [str "~M26" ++ [LF]] None false),
    (framePrefix (str "M26") ++ str "ok" ++ CRLF).
  split; [reflexivity|]; split; [vm_compute; reflexivity|].
  left; reflexivity.
Defined.

(* ================================================================== *)
(** * More on the reply parsers *)

Lemma infoLine_blank (i : ffa3.Info) (line : gostring) :
  strings.TrimRight line [CR] = [] ->
  ffa3.infoLine i line = Returns (None, i).
Proof. intros H; unfold ffa3.infoLine; rewrite H; reflexivity. Qed.

(** X7.  [QueryPrinterInfo] ignores blank lines: removing from the lines
    of a payload those that are empty or made of [\r] only changes neither
    the error nor the record. *)
Theorem infoLines_ignore_blank_lines (lines : list gostring) (i : ffa3.Info) :
  ffa3.infoLines
    (filter (fun l => negb (eqs (strings.TrimRight l [CR]) [])) lines) i
  = ffa3.infoLines lines i.
Proof.
  revert i; induction lines as [|line lines IH]; intros i; [reflexivity|].
  cbn [filter].
  destruct (eqs (strings.TrimRight line [CR]) []) eqn:Hb; cbn [negb].
  - apply eqs_spec in Hb.
    cbn [ffa3.infoLines]; rewrite (infoLine_blank i line Hb).
    unfold bind; apply IH.
  - cbn [ffa3.infoLines].
    destruct (ffa3.infoLine i line) as [[[e|] i']| |]; unfold bind;
      try reflexivity.
    apply IH.
Qed.

(** Decides the tests [strings.HasPrefix] of the [switch] on a line that
    starts with a known key. *)
Ltac pick_key :=
  repeat match goal with
         | |- context [if strings.HasPrefix (?k ++ ?v) ?p then _ else _] =>
             first [ change (strings.HasPrefix (k ++ v) p) with false
                   | rewrite (HasPrefix_app k v) ];
             cbv iota
         end.

Lemma sliceFrom_key (key v : gostring) :
  sliceFrom (key ++ v) (len key) = Returns v.
Proof. apply sliceFrom_app. Qed.

(** X8.  The lines with one value.  A line that, without its trailing
    [\r], is one of the keys [Machine Type: ], [Machine Name: ],
    [Firmware: ], [SN: ] or [Mac Address: ] followed by a text assigns
    that text to the key's field and to no other; [Tool Count: ] followed
    by digits below [2^63] assigns their number to the tool count. *)
Theorem infoLine_keys (i : ffa3.Info) (line v : gostring) :
  (strings.TrimRight line [CR] = str "Machine Type: " ++ v ->
   ffa3.infoLine i line = Returns (None, ffa3.setType i v))
  /\ (strings.TrimRight line [CR] = str "Machine Name: " ++ v ->
      ffa3.infoLine i line = Returns (None, ffa3.setName i v))
  /\ (strings.TrimRight line [CR] = str "Firmware: " ++ v ->
      ffa3.infoLine i line = Returns (None, ffa3.setFirmware i v))
  /\ (strings.TrimRight line [CR] = str "SN: " ++ v ->
      ffa3.infoLine i line = Returns (None, ffa3.setSerial i v))
  /\ (strings.TrimRight line [CR] = str "Mac Address: " ++ v ->
      ffa3.infoLine i line = Returns (None, ffa3.setMacAddr i v))
  /\ (strings.TrimRight line [CR] = str "Tool Count: " ++ v ->
      isInt v -> strconv.digitsValue v < 2 ^ 63 ->
      ffa3.infoLine i line
      = Returns (None, ffa3.setExtruderCount i (strconv.digitsValue v))).
Proof.
  repeat split; intros H; unfold ffa3.infoLine; rewrite H; pick_key;
    rewrite sliceFrom_key; try reflexivity.
  intros [Hne Hd] Hv.
  unfold bind; rewrite (Atoi_digits Hne Hd Hv); reflexivity.
Qed.

Lemma infoLine_keys_witness :
  ffa3.infoLine (ffa3.mkInfo [] [] [] [] 0 0 0 0 [])
    (str "Firmware: v1.3.7" ++ [CR])
  = Returns (None, ffa3.mkInfo [] [] (str "v1.3.7") [] 0 0 0 0 []).
Proof.
  apply (proj1 (proj2 (proj2 (infoLine_keys
                                (ffa3.mkInfo [] [] [] [] 0 0 0 0 [])
                                (str "Firmware: v1.3.7" ++ [CR])
                                (str "v1.3.7"))))).
  reflexivity.
Defined.

Lemma run_Lit_fwd (n : nat) (c : ascii) (s : gostring) caps k :
  regexp.run n (regexp.Lit c) (c :: s) caps k = k s caps.
Proof. simpl; rewrite Ascii.eqb_refl; reflexivity. Qed.

Lemma run_Lit_inv (n : nat) (c : ascii) (s : gostring) caps k r :
  regexp.run n (regexp.Lit c) s caps k = Some r ->
  exists s', s = c :: s' /\ k s' caps = Some r.
Proof.
  destruct s as [|x s]; simpl; [discriminate|].
  destruct (Ascii.eqb_spec x c) as [->|]; [|discriminate].
  intros H; exists s; auto.
Qed.

Lemma reInfoXYZ_unfold :
  ffa3.reInfoXYZ
  = regexp.Cat regexp.Bol
      (regexp.Cat (regexp.lits (str "X: "))
      (regexp.Cat (regexp.Group regexp.Digits)
      (regexp.Cat (regexp.lits (str " Y: "))
      (regexp.Cat (regexp.Group regexp.Digits)
      (regexp.Cat (regexp.lits (str " Z: "))
      (regexp.Cat (regexp.Group regexp.Digits)
      (regexp.Cat regexp.Eol regexp.Eps))))))).
Proof. reflexivity. Qed.

Lemma reInfoXYZ_matches (a b c : gostring) :
  isInt a -> isInt b -> isInt c ->
  regexp.FindStringSubmatch ffa3.reInfoXYZ (volumeText a b c)
  = Some [volumeText a b c; a; b; c].
Proof.
  intros [Hane Had] [Hbne Hbd] [Hcne Hcd].
  rewrite reInfoXYZ_unfold, FindStringSubmatch_anchored.
  remember (volumeText a b c) as s eqn:Hs.
  remember (fun (s' : gostring) (caps : list gostring) =>
              Some (firstn (length s - length s') s :: caps)) as k0 eqn:Hk0.
  assert (Hfull : forall caps, k0 [] caps = Some (s :: caps))
    by (intros caps; rewrite Hk0; simpl; rewrite Nat.sub_0_r, firstn_all;
        reflexivity).
  clear Hk0; remember (length s) as n eqn:Hn; clear Hn.
  rewrite Hs at 1; unfold volumeText.
  rewrite run_Cat, run_lits_fwd.
  rewrite run_Cat; apply run_intGroup_fwd; [exact Hane | exact Had | reflexivity|].
  rewrite run_Cat, run_lits_fwd.
  rewrite run_Cat; apply run_intGroup_fwd; [exact Hbne | exact Hbd | reflexivity|].
  rewrite run_Cat, run_lits_fwd.
  rewrite <- (app_nil_r c) at 1.
  rewrite run_Cat; apply run_intGroup_fwd; [exact Hcne | exact Hcd | exact I|].
  cbn [regexp.run app]; apply Hfull.
Qed.

Lemma reInfoXYZ_shape (s : gostring) (m : list gostring) :
  regexp.FindStringSubmatch ffa3.reInfoXYZ s = Some m ->
  exists a b c,
    isInt a /\ isInt b /\ isInt c
    /\ s = volumeText a b c /\ m = [s; a; b; c].
Proof.
  rewrite reInfoXYZ_unfold, FindStringSubmatch_anchored.
  remember (fun (s' : gostring) (caps : list gostring) =>
              Some (firstn (length s - length s') s :: caps)) as k0 eqn:Hk0.
  assert (Hfull : forall caps, k0 [] caps = Some (s :: caps))
    by (intros caps; rewrite Hk0; simpl; rewrite Nat.sub_0_r, firstn_all;
        reflexivity).
  clear Hk0; remember (length s) as n eqn:Hn; clear Hn; intros H.
  rewrite run_Cat in H; apply run_lits_inv in H; destruct H as (s1 & Hs & H).
  rewrite run_Cat in H; apply run_intGroup_inv in H.
  destruct H as (a & s2 & -> & Hane & Had & H).
  rewrite run_Cat in H; apply run_lits_inv in H; destruct H as (s3 & -> & H).
  rewrite run_Cat in H; apply run_intGroup_inv in H.
  destruct H as (b & s4 & -> & Hbne & Hbd & H).
  rewrite run_Cat in H; apply run_lits_inv in H; destruct H as (s5 & -> & H).
  rewrite run_Cat in H; apply run_intGroup_inv in H.
  destruct H as (c & s6 & -> & Hcne & Hcd & H).
  rewrite run_Cat in H; apply run_Eol_inv in H; destruct H as (-> & H).
  cbn [regexp.run app] in H; rewrite Hfull in H.
  injection H; intros <-.
  exists a, b, c.
  split; [split; assumption|]; split; [split; assumption|].
  split; [split; assumption|]; split; [|reflexivity].
  rewrite Hs; unfold volumeText.
  rewrite app_nil_r; repeat rewrite <- app_assoc; reflexivity.
Qed.

(** X9.  The line of the build volume.  A line that, without its
    trailing [\r], reads [X: <a> Y: <b> Z: <c>] with three runs of digits
    below [2^63] sets the three distances to that many millimetres and
    touches nothing else.  Conversely a line that starts with [X: ] and
    is accepted has that shape: anything before, between or after the
    three numbers is refused. *)
Theorem infoLine_volume (i : ffa3.Info) (line : gostring) :
  (forall a b c,
      strings.TrimRight line [CR] = volumeText a b c ->
      isInt a -> isInt b -> isInt c ->
      strconv.digitsValue a < 2 ^ 63 -> strconv.digitsValue b < 2 ^ 63 ->
      strconv.digitsValue c < 2 ^ 63 ->
      ffa3.infoLine i line
      = Returns (None,
                 ffa3.mkInfo (ffa3.iType i) (ffa3.iName i) (ffa3.iFirmware i)
                   (ffa3.iSerial i)
                   (wrap64 (physic.MilliMetre * strconv.digitsValue a))
                   (wrap64 (physic.MilliMetre * strconv.digitsValue b))
                   (wrap64 (physic.MilliMetre * strconv.digitsValue c))
                   (ffa3.iExtruderCount i) (ffa3.iMacAddr i)))
  /\ (forall rest i',
         strings.TrimRight line [CR] = str "X: " ++ rest ->
         ffa3.infoLine i line = Returns (None, i') ->
         exists a b c,
           isInt a /\ isInt b /\ isInt c
           /\ strings.TrimRight line [CR] = volumeText a b c).
Proof.
  split.
  - intros a b c H Ha Hb Hc Hva Hvb Hvc.
    unfold ffa3.infoLine; rewrite H.
    unfold volumeText; pick_key.
    fold (volumeText a b c).
    rewrite (reInfoXYZ_matches a b c Ha Hb Hc).
    destruct Ha as [Hane Had]; destruct Hb as [Hbne Hbd];
      destruct Hc as [Hcne Hcd].
    change (index [volumeText a b c; a; b; c] 1) with (Returns a).
    unfold bind at 1; rewrite (Atoi_digits Hane Had Hva).
    change (index [volumeText a b c; a; b; c] 2) with (Returns b).
    unfold bind at 1; rewrite (Atoi_digits Hbne Hbd Hvb).
    change (index [volumeText a b c; a; b; c] 3) with (Returns c).
    unfold bind at 1; rewrite (Atoi_digits Hcne Hcd Hvc).
    reflexivity.
  - intros rest i' H; unfold ffa3.infoLine; rewrite H; pick_key.
    rewrite <- H.
    destruct (regexp.FindStringSubmatch ffa3.reInfoXYZ
                (strings.TrimRight line [CR])) as [m|] eqn:Hm;
      [|discriminate].
    intros _.
    destruct (reInfoXYZ_shape _ m Hm) as (a & b & c & Ha & Hb & Hc & Hs & _).
    exists a, b, c; auto.
Qed.

Lemma infoLine_volume_witness :
  ffa3.infoLine (ffa3.mkInfo [] [] [] [] 0 0 0 0 []) (str "X: 150 Y: 150 Z: 150")
  = Returns (None, ffa3.mkInfo [] [] [] [] 150000000 150000000 150000000 0 []).
Proof.
  apply (proj1 (infoLine_volume (ffa3.mkInfo [] [] [] [] 0 0 0 0 [])
                  (str "X: 150 Y: 150 Z: 150"))
           (str "150") (str "150") (str "150"));
    try reflexivity; split; try discriminate; reflexivity.
Defined.

Lemma statusLine_allowed (line : gostring) :
  ffa3.statusLine line = None <-> allowedStatus (strings.TrimRight line [CR]).
Proof.
  unfold ffa3.statusLine, allowedStatus.
  remember (strings.TrimRight line [CR]) as t eqn:Ht; clear Ht.
  destruct (eqs t (str "Endstop: X-max:0 Y-max:0 Z-max:0")) eqn:H1;
    [apply eqs_spec in H1; tauto|].
  destruct (strings.HasPrefix t (str "MachineStatus: ")) eqn:H2;
    [apply HasPrefix_spec in H2; tauto|].
  destruct (strings.HasPrefix t (str "MoveMode: ")) eqn:H3;
    [apply HasPrefix_spec in H3; tauto|].
  destruct (eqs t (str "Status: S:0 L:0 J:0 F:0")) eqn:H4;
    [apply eqs_spec in H4; tauto|].
  split; [discriminate|].
  intros [H|[H|[H|H]]]; exfalso.
  - apply eqs_spec in H; congruence.
  - apply HasPrefix_spec in H; congruence.
  - apply HasPrefix_spec in H; congruence.
  - apply eqs_spec in H; congruence.
Qed.

Lemma statusLines_allowed (lines : list gostring) :
  ffa3.statusLines lines = None
  <-> Forall (fun l => allowedStatus (strings.TrimRight l [CR])) lines.
Proof.
  induction lines as [|line lines IH]; simpl.
  - split; [constructor | reflexivity].
  - destruct (ffa3.statusLine line) as [e|] eqn:Hl.
    + split; [discriminate|].
      intros H; inversion H; subst.
      apply statusLine_allowed in H2; congruence.
    + rewrite IH; split.
      * intros H; constructor; [apply statusLine_allowed; exact Hl | exact H].
      * intros H; inversion H; assumption.
Qed.

(** X10.  Once the exchange of [M119] has returned a payload,
    [QueryStatus] returns, leaves the caller's record as it was, and
    returns no error exactly when every line of the payload, without its
    trailing [\r], is [Endstop: X-max:0 Y-max:0 Z-max:0], starts with
    [MachineStatus: ] or [MoveMode: ], or is [Status: S:0 L:0 J:0 F:0].
    An empty line is none of these: the empty payload is refused. *)
Theorem QueryStatus_vocabulary
  (d d1 : Dev) (resp : gostring) (st : ffa3.Status) :
  ffa3.sendCommand d (str "M119") = Returns ((resp, None), d1) ->
  exists err,
    ffa3.QueryStatus d st = Returns ((err, st), d1)
    /\ (err = None
        <-> Forall (fun l => allowedStatus (strings.TrimRight l [CR]))
              (strings.Split resp LF))
    /\ (resp = [] -> err <> None).
Proof.
  intros Hsend; unfold ffa3.QueryStatus; rewrite Hsend; unfold bind.
  exists (ffa3.statusLines (strings.Split resp LF)).
  split; [reflexivity|]; split; [apply statusLines_allowed|].
  intros ->; cbn; discriminate.
Qed.

Lemma QueryStatus_vocabulary_witness :
  exists err,
    ffa3.QueryStatus
      (streamOf [framePrefix (str "M119") ++ str "MoveMode: READY"
                   ++ frameSuffix])
      (ffa3.mkStatus 0 0 0 [] [] [])
    = Returns ((err, ffa3.mkStatus 0 0 0 [] [] []),
               mkConn [] [] [str "~M119" ++ [LF]] None false)
    /\ (err = None
        <-> Forall (fun l => allowedStatus (strings.TrimRight l [CR]))
              (strings.Split (str "MoveMode: READY") LF))
    /\ (str "MoveMode: READY" = [] -> err <> None).
Proof.
  apply (QueryStatus_vocabulary
           (streamOf [framePrefix (str "M119") ++ str "MoveMode: READY"
                        ++ frameSuffix])
           (mkConn [] [] [str "~M119" ++ [LF]] None false)
           (str "MoveMode: READY") (ffa3.mkStatus 0 0 0 [] [] [])).
  vm_compute; reflexivity.
Defined.

Lemma reTemp_unfold :
  ffa3.reTemp
  = regexp.Cat regexp.Bol
      (regexp.Cat (regexp.Lit "T"%char)
      (regexp.Cat (regexp.Group regexp.Digits)
      (regexp.Cat (regexp.Lit ":"%char)
      (regexp.Cat (regexp.Group regexp.Digits)
      (regexp.Cat (regexp.lits (str " /"))
      (regexp.Cat (regexp.Group regexp.Digits)
      (regexp.Cat (regexp.lits (str " B:"))
      (regexp.Cat (regexp.Group regexp.Digits)
      (regexp.Cat (regexp.Lit "/"%char)
      (regexp.Cat (regexp.Group regexp.Digits)
      (regexp.Cat regexp.Eol regexp.Eps))))))))))).
Proof. reflexivity. Qed.

Lemma reTemp_matches (n a b c e : gostring) :
  isInt n -> isInt a -> isInt b -> isInt c -> isInt e ->
  regexp.FindStringSubmatch ffa3.reTemp (tempText n a b c e)
  = Some [tempText n a b c e; n; a; b; c; e].
Proof.
  intros [Hn1 Hn2] [Ha1 Ha2] [Hb1 Hb2] [Hc1 Hc2] [He1 He2].
  rewrite reTemp_unfold, FindStringSubmatch_anchored.
  remember (tempText n a b c e) as s eqn:Hs.
  remember (fun (s' : gostring) (caps : list gostring) =>
              Some (firstn (length s - length s') s :: caps)) as k0 eqn:Hk0.
  assert (Hfull : forall caps, k0 [] caps = Some (s :: caps))
    by (intros caps; rewrite Hk0; simpl; rewrite Nat.sub_0_r, firstn_all;
        reflexivity).
  clear Hk0; remember (length s) as len0 eqn:Hlen; clear Hlen.
  rewrite Hs at 1; unfold tempText.
  change (str "T" ++ ?x) with ("T"%char :: x).
  rewrite run_Cat, run_Lit_fwd.
  rewrite run_Cat; apply run_intGroup_fwd; [exact Hn1 | exact Hn2 | reflexivity|].
  change (str ":" ++ ?x) with (":"%char :: x).
  rewrite run_Cat, run_Lit_fwd.
  rewrite run_Cat; apply run_intGroup_fwd; [exact Ha1 | exact Ha2 | reflexivity|].
  rewrite run_Cat, run_lits_fwd.
  rewrite run_Cat; apply run_intGroup_fwd; [exact Hb1 | exact Hb2 | reflexivity|].
  rewrite run_Cat, run_lits_fwd.
  rewrite run_Cat; apply run_intGroup_fwd; [exact Hc1 | exact Hc2 | reflexivity|].
  change (str "/" ++ ?x) with ("/"%char :: x).
  rewrite run_Cat, run_Lit_fwd.
  rewrite <- (app_nil_r e) at 1.
  rewrite run_Cat; apply run_intGroup_fwd; [exact He1 | exact He2 | exact I|].
  cbn [regexp.run app]; apply Hfull.
Qed.

Lemma reTemp_shape (s : gostring) (m : list gostring) :
  regexp.FindStringSubmatch ffa3.reTemp s = Some m ->
  exists n a b c e,
    isInt n /\ isInt a /\ isInt b /\ isInt c /\ isInt e
    /\ s = tempText n a b c e.
Proof.
  rewrite reTemp_unfold, FindStringSubmatch_anchored.
  remember (fun (s' : gostring) (caps : list gostring) =>
              Some (firstn (length s - length s') s :: caps)) as k0 eqn:Hk0.
  clear Hk0; remember (length s) as len0 eqn:Hlen; clear Hlen; intros H.
  rewrite run_Cat in H; apply run_Lit_inv in H; destruct H as (s1 & Hs & H).
  rewrite run_Cat in H; apply run_intGroup_inv in H.
  destruct H as (n & s2 & -> & Hn1 & Hn2 & H).
  rewrite run_Cat in H; apply run_Lit_inv in H; destruct H as (s3 & -> & H).
  rewrite run_Cat in H; apply run_intGroup_inv in H.
  destruct H as (a & s4 & -> & Ha1 & Ha2 & H).
  rewrite run_Cat in H; apply run_lits_inv in H; destruct H as (s5 & -> & H).
  rewrite run_Cat in H; apply run_intGroup_inv in H.
  destruct H as (b & s6 & -> & Hb1 & Hb2 & H).
  rewrite run_Cat in H; apply run_lits_inv in H; destruct H as (s7 & -> & H).
  rewrite run_Cat in H; apply run_intGroup_inv in H.
  destruct H as (c & s8 & -> & Hc1 & Hc2 & H).
  rewrite run_Cat in H; apply run_Lit_inv in H; destruct H as (s9 & -> & H).
  rewrite run_Cat in H; apply run_intGroup_inv in H.
  destruct H as (e & s10 & -> & He1 & He2 & H).
  rewrite run_Cat in H; apply run_Eol_inv in H; destruct H as (-> & H).
  exists n, a, b, c, e.
  split; [split; assumption|]; split; [split; assumption|].
  split; [split; assumption|]; split; [split; assumption|].
  split; [split; assumption|].
  rewrite Hs; unfold tempText.
  rewrite app_nil_r; simpl; repeat rewrite <- app_assoc; reflexivity.
Qed.

(** X11.  Once the exchange of [M105] has returned a payload,
    [QueryTemp] returns, and returns no error exactly when the payload is
    [T<n>:<a> /<b> B:<c>/<e>] with five non-empty runs of digits, of any
    length: the numbers are not converted, so none is out of range. *)
Theorem QueryTemp_pattern
  (d d1 : Dev) (resp : gostring) (t : ffa3.Temperatures) :
  ffa3.sendCommand d (str "M105") = Returns ((resp, None), d1) ->
  exists err,
    ffa3.QueryTemp d t = Returns ((err, t), d1)
    /\ (err = None
        <-> exists n a b c e,
              isInt n /\ isInt a /\ isInt b /\ isInt c /\ isInt e
              /\ resp = tempText n a b c e).
Proof.
  intros Hsend; unfold ffa3.QueryTemp; rewrite Hsend; unfold bind.
  destruct (regexp.FindStringSubmatch ffa3.reTemp resp) as [m|] eqn:Hm.
  - exists None; split; [reflexivity|]; split; [|reflexivity].
    intros _; exact (reTemp_shape resp m Hm).
  - eexists; split; [reflexivity|]; split; [discriminate|].
    intros (n & a & b & c & e & Hn & Ha & Hb & Hc & He & ->).
    rewrite (reTemp_matches n a b c e Hn Ha Hb Hc He) in Hm; discriminate.
Qed.

Lemma QueryTemp_pattern_witness :
  exists err,
    ffa3.QueryTemp
      (streamOf [framePrefix (str "M105") ++ str "T0:210 /215 B:55/60"
                   ++ frameSuffix])
      (ffa3.mkTemperatures 0 0 0)
    = Returns ((err, ffa3.mkTemperatures 0 0 0),
               mkConn [] [] [str "~M105" ++ [LF]] None false)
    /\ (err = None
        <-> exists n a b c e,
              isInt n /\ isInt a /\ isInt b /\ isInt c /\ isInt e
              /\ str "T0:210 /215 B:55/60" = tempText n a b c e).
Proof.
  apply (QueryTemp_pattern
           (streamOf [framePrefix (str "M105") ++ str "T0:210 /215 B:55/60"
                        ++ frameSuffix])
           (mkConn [] [] [str "~M105" ++ [LF]] None false)
           (str "T0:210 /215 B:55/60") (ffa3.mkTemperatures 0 0 0)).
  vm_compute; reflexivity.
Defined.

(* ================================================================== *)
(** * More on the discovery *)

Lemma reader_first_length (d : Z) evs out :
  (length (ffa3.reader true d evs out) <= S (length out))%nat.
Proof.
  destruct evs as [|[t ev] evs]; simpl; [lia|].
  destruct (d <=? t); [lia|].
  destruct ev as [[payload src]|e]; [|lia].
  match goal with
  | |- context [match ?x with Some _ => _ | None => _ end] => destruct x
  end; [rewrite length_app; simpl; lia | lia].
Qed.

Lemma reader_length (first : bool) (d : Z) evs out :
  (length (ffa3.reader first d evs out) <= length out + length evs)%nat.
Proof.
  revert out; induction evs as [|[t ev] evs IH]; intros out; simpl; [lia|].
  destruct (d <=? t); [lia|].
  destruct ev as [[payload src]|e]; [|lia].
  match goal with
  | |- context [match ?x with Some _ => _ | None => _ end] =>
      destruct x as [i|]
  end.
  - destruct first; [rewrite length_app; simpl; lia|].
    specialize (IH (out ++ [mkFound src (firstn i (firstn 1024 payload))])).
    rewrite length_app in IH; simpl in IH; lia.
  - destruct first; [lia|].
    specialize (IH out); lia.
Qed.

(** X12.  [Search] returns at most as many printers as there are
    arrivals, and with [first] set at most one. *)
Theorem Search_count (net : UDPNet) (first : bool) (d : Z) :
  (length (fst (ffa3.Search net first d)) <= length (arrivals net))%nat
  /\ (length (fst (ffa3.Search net true d)) <= 1)%nat.
Proof.
  unfold ffa3.Search.
  destruct (resolveErr net); [simpl; lia|].
  destruct (openErr net); [simpl; lia|].
  destruct (writeErr net); [simpl; lia|].
  cbn [fst]; split.
  - apply (reader_length first d (arrivals net) []).
  - apply (reader_first_length d (arrivals net) []).
Qed.



Lemma listenReader_returns evs out :
  (exists t e, In (t, inr e) evs)
  <-> exists r, ffa3_v1.listenReader evs out = Returns r.
Proof.
  revert out; induction evs as [|[t [[payload src]|e]] evs IH]; intros out;
    simpl.
  - split; [intros (t & e & []) | intros [r H]; discriminate].
  - rewrite <- IH; split.
    + intros (t' & e & [H|H]); [discriminate | eauto].
    + intros (t' & e & H); eauto.
  - split; [eauto | intros _; exists t, e; auto].
Qed.

Lemma listenReader_cases evs out :
  (exists r, ffa3_v1.listenReader evs out = Returns r)
  \/ ffa3_v1.listenReader evs out = Blocks.
Proof.
  revert out; induction evs as [|[t [[payload src]|e]] evs IH]; intros out;
    simpl; eauto.
Qed.

(** X14.  [SearchListen] of the first generation never closes the socket
    it listens on.  Once its sockets are set up, it returns exactly when
    a read on that socket fails; otherwise it blocks, however long after
    its one-second window, and whether or not the write of the magic
    packet succeeded. *)
Theorem SearchListen_waits_for_read_error (net : ListenNet) :
  resolveErr (sockets net) = None ->
  openErr (sockets net) = None ->
  resolveLocalErr net = None ->
  listenErr net = None ->
  ((exists t e, In (t, inr e) (arrivals (sockets net)))
   <-> exists r, ffa3_v1.SearchListen net = Returns r)
  /\ ((forall t e, ~ In (t, inr e) (arrivals (sockets net))) ->
      ffa3_v1.SearchListen net = Blocks).
Proof.
  intros H1 H2 H3 H4; unfold ffa3_v1.SearchListen.
  rewrite H1, H2, H3, H4.
  pose proof (listenReader_returns (arrivals (sockets net)) []) as Hiff.
  assert (Hboth :
            (exists r, ffa3_v1.listenReader (arrivals (sockets net)) []
                       = Returns r)
            <-> exists r,
                match writeErr (sockets net) with
                | Some e =>
                    _ <- ffa3_v1.listenReader (arrivals (sockets net)) [] ;;
                    Returns
                      ([], Some (ErrWrap (str "failed to write magic packet") e))
                | None =>
                    out <- ffa3_v1.listenReader (arrivals (sockets net)) [] ;;
                    Returns (out, udpCloseErr (sockets net))
                end = Returns r).
  { destruct (ffa3_v1.listenReader (arrivals (sockets net)) []) as [out| |];
      destruct (writeErr (sockets net)); simpl;
      split; intros [r H]; try discriminate; eauto. }
  split.
  - rewrite Hiff; exact Hboth.
  - intros Hnone.
    destruct (listenReader_cases (arrivals (sockets net)) []) as [Hr|Hb].
    + apply Hiff in Hr; destruct Hr as (t & e & Hin).
      exfalso; exact (Hnone t e Hin).
    + rewrite Hb; destruct (writeErr (sockets net)); reflexivity.
Qed.

Lemma SearchListen_waits_for_read_error_witness :
  ffa3_v1.SearchListen
    (mkListenNet
       (mkUDPNet None None [(5, inl (str "Adventurer3", str "10.0.0.2"))]
          None None) None None)
  = Blocks.
Proof.
  apply (proj2 (SearchListen_waits_for_read_error
                  (mkListenNet
                     (mkUDPNet None None
                        [(5, inl (str "Adventurer3", str "10.0.0.2"))]
                        None None) None None)
                  eq_refl eq_refl eq_refl eq_refl)).
  intros t e [H|[]]; discriminate.
Defined.

(* ================================================================== *)
(** * The first generation of the client *)

(** What the first generation returns as payload is empty or ends with
    the line separator that precedes [ok]. *)
Lemma sendCommand_v1_success_shape (d d1 : Dev) (cmd line : gostring) :
  ffa3_v1.sendCommand d cmd = Returns ((line, None), d1) ->
  exists d0 raw,
    Write d (str "~" ++ cmd ++ [LF]) = (None, d0)
    /\ readAll d0 = Returns ((raw, None), d1)
    /\ ((raw = framePrefix (leadingWord cmd) ++ str "ok" ++ CRLF /\ line = [])
        \/ exists interior,
             line = interior ++ CRLF
             /\ raw = framePrefix (leadingWord cmd) ++ interior ++ frameSuffix).
Proof.
  intros H.
  destruct (Write d (str "~" ++ cmd ++ [LF])) as [[e|] d0] eqn:Hw.
  - unfold ffa3_v1.sendCommand in H; rewrite Hw in H; discriminate.
  - destruct (readAll d0) as [[[raw [e|]] d2]| |] eqn:Hr;
      try (unfold ffa3_v1.sendCommand in H; rewrite Hw, Hr in H; discriminate).
    destruct (strings.HasPrefix raw (framePrefix (leadingWord cmd))) eqn:Hp;
      [destruct (strings.HasSuffix raw frameSuffix) eqn:Hs|].
    + destruct (sendCommand_accepted d d0 _ cmd raw Hw Hr Hp Hs)
        as [(Hraw & _ & H2) | (interior & Hraw & _ & H2)];
        rewrite H2 in H; injection H; intros Hd Hl; subst d2 line;
        exists d0, raw; eauto 6.
    + destruct (sendCommand_rejected d d0 d2 cmd raw Hw Hr) as [_ H2];
        [rewrite Hp, Hs; reflexivity | rewrite H2 in H; discriminate].
    + destruct (sendCommand_rejected d d0 d2 cmd raw Hw Hr) as [_ H2];
        [rewrite Hp; reflexivity | rewrite H2 in H; discriminate].
Qed.

Lemma sendHello_v1_fails (d d1 : Dev) (err : option error) :
  ffa3_v1.sendHello d = Returns (err, d1) -> err <> None.
Proof.
  unfold ffa3_v1.sendHello.
  destruct (ffa3_v1.sendCommand d (str "M601 S1"))
    as [[[resp [e|]] d2]| |] eqn:Hs; unfold bind; try discriminate.
  - intros H; injection H; intros; subst; discriminate.
  - destruct (eqs resp (str "Control failed."));
      [intros H; injection H; intros; subst; discriminate|].
    destruct (eqs resp (str "Control Success.")) eqn:Heq;
      cbv beta iota delta [negb];
      [|intros H; injection H; intros; subst; discriminate].
    exfalso; apply eqs_spec in Heq; subst resp.
    apply sendCommand_v1_success_shape in Hs.
    destruct Hs as (d0 & raw & _ & _ & [[_ H]|(interior & H & _)]);
      [discriminate|].
    apply (f_equal (@rev ascii)) in H.
    rewrite rev_app_distr in H; discriminate.
Qed.

(** X15.  [Connect] of the first generation never hands over a
    connection.  Its [sendCommand] returns a payload that is empty or ends
    with [\r\n], and [sendHello] compares it with [Control Success.]:
    whenever [Connect] returns, it returns no [Dev] and an error. *)
Theorem Connect_v1_never_connects
  (dial : gostring -> Conn + error) (ip : gostring)
  (dev : option Dev) (err : option error) (stream : option Conn) :
  ffa3_v1.Connect dial ip = Returns ((dev, err), stream) ->
  dev = None /\ err <> None.
Proof.
  unfold ffa3_v1.Connect.
  destruct (dial (ip ++ str ":8899")) as [conn|e].
  - destruct (ffa3_v1.sendHello conn) as [[herr d1]| |] eqn:Hh; simpl;
      try discriminate.
    pose proof (sendHello_v1_fails conn d1 herr Hh) as Hne.
    destruct herr as [e|]; [|congruence].
    destruct (ffa3_v1.Close d1) as [[cerr d2]| |]; simpl; try discriminate.
    intros H; injection H; intros; subst; split; [reflexivity | discriminate].
  - intros H; injection H; intros; subst; split; [reflexivity | discriminate].
Qed.

Lemma Connect_v1_never_connects_witness :
  @None Dev = None /\ Some (ErrTakeControl (str "Control Success." ++ CRLF))
                      <> None.
Proof.
  apply (Connect_v1_never_connects
           (fun _ => inl (streamOf
                            [framePrefix (str "M601") ++ str "Control Success."
                               ++ frameSuffix;
                             framePrefix (str "M602") ++ str "Control Release."
                               ++ frameSuffix]))
           (str "10.0.0.2") None
           (Some (ErrTakeControl (str "Control Success." ++ CRLF)))
           (Some (mkConn [] [] [str "~M601 S1" ++ [LF]; str "~M602" ++ [LF]]
                    None true))).
  vm_compute; reflexivity.
Defined.

(** X16.  [SetLight] of the first generation compares the payload with
    the whole frame [CMD M146 Received.\r\nok\r\n].  It returns no error
    exactly when the response repeats that frame, without its last line
    separator, between the prefix and the suffix; the frame without payload
    that the second generation expects makes it fail. *)
Theorem SetLight_v1_expects_frame_in_frame (d d1 : Dev) (on : bool) :
  let cmd := if on then str "M146 r255 g255 b255 F0"
             else str "M146 r0 g0 b0 F0" in
  ffa3_v1.SetLight d on = Returns (None, d1)
  <-> exists d0,
        Write d (str "~" ++ cmd ++ [LF]) = (None, d0)
        /\ readAll d0
           = Returns ((framePrefix (str "M146")
                         ++ (str "CMD M146 Received." ++ CRLF ++ str "ok")
                         ++ frameSuffix, None), d1).
Proof.
  intros cmd.
  assert (Hword : leadingWord cmd = str "M146") by (destruct on; reflexivity).
  unfold ffa3_v1.SetLight; fold cmd.
  split.
  - destruct (ffa3_v1.sendCommand d cmd) as [[[resp err] d2]| |] eqn:Hs;
      simpl; try discriminate.
    destruct (eqs resp _) eqn:Heq; simpl; [|discriminate].
    intros H0; injection H0; intros; subst err d2.
    apply eqs_spec in Heq; subst resp.
    apply sendCommand_v1_success_shape in Hs.
    destruct Hs as (d0 & raw & Hw & Hr & [[_ H]|(interior & H & Hraw)]);
      [discriminate|].
    exists d0; split; [exact Hw|].
    assert (Hi : interior = str "CMD M146 Received." ++ CRLF ++ str "ok")
      by (apply (app_inv_tail CRLF); rewrite <- H; reflexivity).
    rewrite Hr, Hraw, Hword, Hi; reflexivity.
  - intros (d0 & Hw & Hr).
    rewrite <- Hword in Hr.
    rewrite (@sendCommand_v1_verify d d0 d1 cmd _ Hw Hr).
    replace (strings.HasPrefix _ (framePrefix (leadingWord cmd))) with true
      by (symmetry; apply HasPrefix_app).
    replace (strings.HasSuffix _ frameSuffix) with true
      by (symmetry; rewrite app_assoc; apply HasSuffix_app).
    cbv beta iota delta [andb].
    rewrite slice_interior; reflexivity.
Qed.

Lemma SetLight_v1_expects_frame_in_frame_witness :
  ffa3_v1.SetLight
    (streamOf [framePrefix (str "M146")
                 ++ (str "CMD M146 Received." ++ CRLF ++ str "ok")
                 ++ frameSuffix]) false
  = Returns (None, mkConn [] [] [str "~M146 r0 g0 b0 F0" ++ [LF]] None false).
Proof.
  apply (proj2 (SetLight_v1_expects_frame_in_frame
                  (streamOf [framePrefix (str "M146")
                               ++ (str "CMD M146 Received." ++ CRLF ++ str "ok")
                               ++ frameSuffix])
                  (mkConn [] [] [str "~M146 r0 g0 b0 F0" ++ [LF]] None false)
                  false)).
  eexists; split; [reflexivity | vm_compute; reflexivity].
Defined.

(** On the reply that the printer gives, the frame without payload, the
    first generation's [SetLight] fails. *)
Lemma SetLight_v1_fails_on_empty_frame :
  ffa3_v1.SetLight (streamOf [framePrefix (str "M146") ++ str "ok" ++ CRLF]) true
  = Returns (Some (ErrUnknownCmdReply (str "M146") []),
             mkConn [] [] [str "~M146 r255 g255 b255 F0" ++ [LF]] None false).
Proof. vm_compute; reflexivity. Qed.

(* ================================================================== *)
(** * More on the distance codec *)

(** X17.  The leading [-] negates: for a text that does not start with
    [-], putting one in front turns the distance [v] into [-v], reduced to
    an [int64], and leaves an error as it is. *)
Theorem parseDistance_negation (c : ascii) (rest : gostring) :
  c <> "-"%char ->
  match ffa3.parseDistance (c :: rest) with
  | Returns (v, None) =>
      ffa3.parseDistance ("-"%char :: c :: rest) = Returns (wrap64 (- v), None)
  | Returns (_, Some e) =>
      ffa3.parseDistance ("-"%char :: c :: rest) = Returns (0, Some e)
  | _ => False
  end.
Proof.
  intros Hc.
  rewrite parseDistance_pos by (apply Ascii.eqb_neq; exact Hc).
  rewrite parseDistance_neg.
  destruct (magnitude (c :: rest)) as [e|out]; [reflexivity|].
  unfold physic.mul; do 3 f_equal; ring.
Qed.

Lemma parseDistance_negation_witness :
  ffa3.parseDistance (str "-2.5") = Returns (wrap64 (- 2500000), None).
Proof.
  exact (parseDistance_negation "2"%char (str ".5") ltac:(discriminate)).
Defined.

Lemma scale_exact (d : nat) :
  (d <= 6)%nat ->
  physic.MilliMetre / 10 ^ Z.of_nat d = 10 ^ (6 - Z.of_nat d).
Proof.
  intros H.
  destruct d as [|[|[|[|[|[|[|d]]]]]]]; try reflexivity; lia.
Qed.

Lemma scale_lost (d : nat) :
  (7 <= d)%nat -> physic.MilliMetre / 10 ^ Z.of_nat d = 0.
Proof.
  intros H; apply Z.div_small.
  assert (10 ^ 7 <= 10 ^ Z.of_nat d) by (apply Z.pow_le_mono_r; lia).
  change physic.MilliMetre with 1000000.
  change (10 ^ 7) with 10000000 in *; lia.
Qed.

(** X18.  The precision of the codec is six fractional digits, on a
    well-formed signed decimal text with a fraction whose two digit runs
    each denote a number below [2^63].  With at most six fractional
    digits the fraction is taken exactly, in nanometres; with seven or
    more the divisor of the last digit is zero and the whole fraction is
    lost: the text reads as its integer part alone. *)
Theorem parseDistance_precision (neg : bool) (ip fp : gostring) :
  wellFormed ip (Some fp) -> fitsInt ip (Some fp) ->
  ((length fp <= 6)%nat ->
   ffa3.parseDistance (decimalText neg ip (Some fp))
   = Returns (wrap64 ((if neg then -1 else 1)
                      * (strconv.digitsValue ip * 10 ^ 6
                         + strconv.digitsValue fp
                           * 10 ^ (6 - Z.of_nat (length fp)))), None))
  /\ ((7 <= length fp)%nat ->
      ffa3.parseDistance (decimalText neg ip (Some fp))
      = ffa3.parseDistance (decimalText neg ip None)).
Proof.
  intros Hwf Hfit; split; intros Hd.
  - rewrite (parseDistance_wellFormed neg Hwf Hfit).
    unfold specDistance; rewrite (scale_exact _ Hd); reflexivity.
  - assert (Hwf0 : wellFormed ip None)
      by (destruct Hwf as (H1 & H2 & _); repeat split; assumption).
    assert (Hfit0 : fitsInt ip None)
      by (destruct Hfit as (H1 & _); split; [assumption | exact I]).
    rewrite (parseDistance_wellFormed neg Hwf Hfit).
    rewrite (parseDistance_wellFormed neg Hwf0 Hfit0).
    unfold specDistance; rewrite (scale_lost _ Hd).
    do 3 f_equal; ring.
Qed.

Lemma parseDistance_precision_witness :
  ffa3.parseDistance (str "1.5000000") = ffa3.parseDistance (str "1").
Proof.
  apply (proj2 (parseDistance_precision false (str "1") (str "5000000")
                  ltac:(repeat split; discriminate)
                  ltac:(split; reflexivity))).
  simpl; lia.
Defined.

(* ================================================================== *)
(** * The vocabulary of the printer information *)

Lemma infoLine_accepts (i i' : ffa3.Info) (line : gostring) :
  ffa3.infoLine i line = Returns (None, i') ->
  knownInfoLine (strings.TrimRight line [CR]).
Proof.
  unfold ffa3.infoLine, knownInfoLine, infoKeys.
  remember (strings.TrimRight line [CR]) as t eqn:Ht; clear Ht.
  repeat match goal with
         | |- context [if strings.HasPrefix t ?k then _ else _] =>
             let H := fresh "Hk" in
             destruct (strings.HasPrefix t k) eqn:H;
             [apply HasPrefix_spec in H; destruct H as [v ->];
              intros _; right; exists k, v; simpl; auto 10|]
         end.
  destruct (eqs t []) eqn:He; [|discriminate].
  apply eqs_spec in He; auto.
Qed.

Lemma infoLines_accept (lines : list gostring) (i i' : ffa3.Info) :
  ffa3.infoLines lines i = Returns (None, i') ->
  Forall (fun l => knownInfoLine (strings.TrimRight l [CR])) lines.
Proof.
  revert i; induction lines as [|line lines IH]; intros i; simpl;
    [constructor|].
  destruct (ffa3.infoLine i line) as [[[e|] i1]| |] eqn:Hl; simpl;
    try discriminate.
  intros H; constructor; [exact (infoLine_accepts i i1 line Hl)|].
  exact (IH i1 H).
Qed.

(** X19.  The vocabulary of [QueryPrinterInfo] is closed: when it
    returns no error, every line of the payload, without its trailing
    [\r], is empty or starts with one of the seven keys. *)
Theorem QueryPrinterInfo_vocabulary
  (d d1 : Dev) (i i' : ffa3.Info) :
  ffa3.QueryPrinterInfo d i = Returns ((None, i'), d1) ->
  exists resp,
    ffa3.sendCommand d (str "M115") = Returns ((resp, None), d1)
    /\ Forall (fun l => knownInfoLine (strings.TrimRight l [CR]))
         (strings.Split resp LF).
Proof.
  unfold ffa3.QueryPrinterInfo.
  destruct (ffa3.sendCommand d (str "M115")) as [[[resp [e|]] d2]| |];
    unfold bind at 1; try discriminate.
  destruct (ffa3.infoLines (strings.Split resp LF) i) as [[err i2]| |] eqn:Hl;
    unfold bind; try discriminate.
  intros H; injection H; intros; subst err i2 d2.
  exists resp; split; [reflexivity|].
  exact (infoLines_accept _ i i' Hl).
Qed.

Lemma QueryPrinterInfo_vocabulary_witness :
  exists resp,
    ffa3.sendCommand
      (streamOf [framePrefix (str "M115") ++ str "SN: SNFFAD123456"
                   ++ frameSuffix]) (str "M115")
    = Returns ((resp, None), mkConn [] [] [str "~M115" ++ [LF]] None false)
    /\ Forall (fun l => knownInfoLine (strings.TrimRight l [CR]))
         (strings.Split resp LF).
Proof.
  apply (QueryPrinterInfo_vocabulary
           (streamOf [framePrefix (str "M115") ++ str "SN: SNFFAD123456"
                        ++ frameSuffix])
           (mkConn [] [] [str "~M115" ++ [LF]] None false)
           (ffa3.mkInfo [] [] [] [] 0 0 0 0 [])
           (ffa3.mkInfo [] [] [] (str "SNFFAD123456") 0 0 0 0 [])).
  vm_compute; reflexivity.
Defined.

(* ================================================================== *)
(** * The printer information in the two generations *)

Lemma search_head (n : nat) (re : regexp.Regexp) (s : gostring) m :
  regexp.run n re s []
    (fun s' caps => Some (firstn (length s - length s') s :: caps)) = Some m ->
  regexp.search n re s = Some m.
Proof. intros H; destruct s; cbn [regexp.search]; rewrite H; reflexivity. Qed.

Lemma reInfoXYZ_v1_unfold :
  ffa3_v1_info.reInfoXYZ
  = regexp.Cat (regexp.lits (str "X: "))
      (regexp.Cat (regexp.Group regexp.Digits)
      (regexp.Cat (regexp.lits (str " Y: "))
      (regexp.Cat (regexp.Group regexp.Digits)
      (regexp.Cat (regexp.lits (str " Z: "))
      (regexp.Cat (regexp.Group regexp.Digits) regexp.Eps))))).
Proof. reflexivity. Qed.

(** Without anchors the pattern is satisfied by the start of the line:
    what follows the third number is not looked at. *)
Lemma reInfoXYZ_v1_matches (a b c junk : gostring) :
  isInt a -> isInt b -> isInt c -> noDigitHead junk ->
  regexp.FindStringSubmatch ffa3_v1_info.reInfoXYZ (volumeText a b c ++ junk)
  = Some [volumeText a b c; a; b; c].
Proof.
  intros [Hane Had] [Hbne Hbd] [Hcne Hcd] Hjunk.
  unfold regexp.FindStringSubmatch; apply search_head.
  rewrite reInfoXYZ_v1_unfold.
  remember (volumeText a b c ++ junk) as s eqn:Hs.
  remember (fun (s' : gostring) (caps : list gostring) =>
              Some (firstn (length s - length s') s :: caps)) as k0 eqn:Hk0.
  assert (Hfull : forall caps, k0 junk caps = Some (volumeText a b c :: caps))
    by (intros caps; rewrite Hk0, (firstn_consumed_eq _ _ Hs); reflexivity).
  clear Hk0; remember (length s) as n eqn:Hn; clear Hn.
  rewrite Hs; unfold volumeText; repeat rewrite <- app_assoc.
  rewrite run_Cat, run_lits_fwd.
  rewrite run_Cat; apply run_intGroup_fwd; [exact Hane | exact Had | reflexivity|].
  rewrite run_Cat, run_lits_fwd.
  rewrite run_Cat; apply run_intGroup_fwd; [exact Hbne | exact Hbd | reflexivity|].
  rewrite run_Cat, run_lits_fwd.
  rewrite run_Cat; apply run_intGroup_fwd; [exact Hcne | exact Hcd | exact Hjunk|].
  cbn [regexp.run app]; apply Hfull.
Qed.

Lemma TrimRight_keeps (s : gostring) (c : ascii) :
  c <> CR -> strings.TrimRight (s ++ [c]) [CR] = s ++ [c].
Proof.
  intros Hc; induction s as [|x s IH]; simpl.
  - destruct (Ascii.eqb_spec c CR); [congruence | reflexivity].
  - rewrite IH; destruct (s ++ [c]) eqn:Hs; [|reflexivity].
    destruct s; discriminate.
Qed.

Lemma TrimRight_digit_end (pre ds : gostring) :
  ds <> [] -> allDigits ds = true ->
  strings.TrimRight (pre ++ ds) [CR] = pre ++ ds.
Proof.
  intros Hne Hd.
  destruct (exists_last Hne) as (ds' & c & ->).
  rewrite app_assoc; apply TrimRight_keeps.
  intros ->.
  unfold allDigits in Hd; rewrite forallb_app in Hd.
  apply andb_true_iff in Hd; destruct Hd as [_ Hd]; discriminate.
Qed.

Lemma digits_run_unique (a a' r r' : gostring) :
  allDigits a = true -> allDigits a' = true ->
  noDigitHead r -> noDigitHead r' ->
  a ++ r = a' ++ r' -> a = a' /\ r = r'.
Proof.
  revert a'; induction a as [|x a IH]; intros [|x' a'] Ha Ha' Hr Hr' H;
    simpl in *.
  - auto.
  - subst r; simpl in Hr.
    unfold allDigits in Ha'; simpl in Ha'; apply andb_true_iff in Ha'.
    destruct Ha' as [Hx _]; congruence.
  - subst r'; simpl in Hr'.
    unfold allDigits in Ha; simpl in Ha; apply andb_true_iff in Ha.
    destruct Ha as [Hx _]; congruence.
  - injection H; intros Ht ->.
    unfold allDigits in Ha, Ha'; simpl in Ha, Ha'.
    apply andb_true_iff in Ha; apply andb_true_iff in Ha'.
    destruct (IH a' (proj2 Ha) (proj2 Ha') Hr Hr' Ht) as [-> ->]; auto.
Qed.

(** The anchored pattern refuses a build-volume line that goes on after
    its third number. *)
Lemma reInfoXYZ_refuses_tail (a b c junk : gostring) :
  isInt a -> isInt b -> isInt c -> junk <> [] -> noDigitHead junk ->
  regexp.FindStringSubmatch ffa3.reInfoXYZ (volumeText a b c ++ junk) = None.
Proof.
  intros [_ Had] [_ Hbd] [_ Hcd] Hne Hjunk.
  destruct (regexp.FindStringSubmatch ffa3.reInfoXYZ (volumeText a b c ++ junk))
    as [m|] eqn:Hm; [|reflexivity].
  exfalso.
  destruct (reInfoXYZ_shape _ m Hm)
    as (a' & b' & c' & [_ Ha'] & [_ Hb'] & [_ Hc'] & Heq & _).
  unfold volumeText in Heq; repeat rewrite <- app_assoc in Heq.
  apply app_inv_head in Heq.
  apply digits_run_unique in Heq; auto; try reflexivity.
  destruct Heq as [_ Heq]; apply app_inv_head in Heq.
  apply digits_run_unique in Heq; auto; try reflexivity.
  destruct Heq as [_ Heq]; apply app_inv_head in Heq.
  rewrite <- (app_nil_r c') in Heq.
  apply digits_run_unique in Heq; auto; [|exact I].
  destruct Heq as [_ Heq]; congruence.
Qed.

Lemma infoLine_generations (i i1 : ffa3.Info) (line : gostring) :
  ffa3.infoLine i line = Returns (None, i1) ->
  ffa3_v1_info.infoLine i line = Returns (None, i1).
Proof.
  unfold ffa3.infoLine, ffa3_v1_info.infoLine.
  remember (strings.TrimRight line [CR]) as t eqn:Ht; clear Ht.
  repeat match goal with
         | |- context [if strings.HasPrefix t ?k then _ else _] =>
             destruct (strings.HasPrefix t k) eqn:?; [|]
         end; try (intros Hl; exact Hl).
  - destruct (regexp.FindStringSubmatch ffa3.reInfoXYZ t) as [m|] eqn:Hm;
      [|discriminate].
    destruct (reInfoXYZ_shape t m Hm) as (a & b & c & Ha & Hb & Hc & Ht & ->).
    pose proof (reInfoXYZ_v1_matches a b c [] Ha Hb Hc I) as H1.
    rewrite app_nil_r, <- Ht in H1; rewrite H1.
    intros Hl; exact Hl.
  - destruct (eqs t []) eqn:He; [|discriminate].
    apply eqs_spec in He; subst t; intros Hl; exact Hl.
Qed.

(** X20.  The first generation's parser of the printer information
    accepts whatever the second accepts, with the same record: lines that
    the second generation reads without error leave the same record in the
    first.  The first accepts more: a build-volume line that goes on after
    its third number is read by the first and refused by the second. *)
Theorem infoLines_generations (lines : list gostring) (i i' : ffa3.Info) :
  (ffa3.infoLines lines i = Returns (None, i') ->
   ffa3_v1_info.infoLines lines i = Returns (None, i'))
  /\ (forall line a b c junk,
         strings.TrimRight line [CR] = volumeText a b c ++ junk ->
         isInt a -> isInt b -> isInt c ->
         junk <> [] -> noDigitHead junk ->
         ffa3_v1_info.infoLine i line = ffa3.infoLine i (volumeText a b c)
         /\ ffa3.infoLine i line
            = Returns (Some (ErrUnknownReply (volumeText a b c ++ junk)), i)).
Proof.
  split.
  - revert i; induction lines as [|line lines IH]; intros i; simpl;
      [auto|].
    destruct (ffa3.infoLine i line) as [[[e|] i1]| |] eqn:Hl; simpl;
      try discriminate.
    intros H; rewrite (infoLine_generations i i1 line Hl); simpl.
    apply IH; exact H.
  - intros line a b c junk Htrim Ha Hb Hc Hne Hjunk.
    assert (Hflat : str "X: " ++ a ++ str " Y: " ++ b ++ str " Z: " ++ c ++ junk
                    = volumeText a b c ++ junk)
      by (unfold volumeText; repeat rewrite <- app_assoc; reflexivity).
    split.
    + unfold ffa3_v1_info.infoLine; rewrite Htrim, <- Hflat; pick_key.
      rewrite Hflat, (reInfoXYZ_v1_matches a b c junk Ha Hb Hc Hjunk).
      assert (Htrim0 : strings.TrimRight (volumeText a b c) [CR]
                       = volumeText a b c)
        by (unfold volumeText; repeat rewrite app_assoc;
            apply TrimRight_digit_end; destruct Hc; assumption).
      unfold ffa3.infoLine; rewrite Htrim0.
      unfold volumeText; pick_key.
      fold (volumeText a b c).
      rewrite (reInfoXYZ_matches a b c Ha Hb Hc); reflexivity.
    + unfold ffa3.infoLine; rewrite Htrim, <- Hflat; pick_key.
      rewrite Hflat, (reInfoXYZ_refuses_tail a b c junk Ha Hb Hc Hne Hjunk).
      reflexivity.
Qed.

Lemma infoLines_generations_witness :
  ffa3_v1_info.infoLines [str "SN: SNFFAD123456" ++ [CR]; []]
    (ffa3.mkInfo [] [] [] [] 0 0 0 0 [])
  = Returns (None, ffa3.mkInfo [] [] [] (str "SNFFAD123456") 0 0 0 0 []).
Proof.
  apply (proj1 (infoLines_generations
                  [str "SN: SNFFAD123456" ++ [CR]; []]
                  (ffa3.mkInfo [] [] [] [] 0 0 0 0 [])
                  (ffa3.mkInfo [] [] [] (str "SNFFAD123456") 0 0 0 0 []))).
  reflexivity.
Defined.
